(** * DC_Handler: the publishing pipeline and its clients

    A shallow embedding of four route handlers of the operator console (the
    publishing of a post, its optimisation, the saving of SEO data, the list
    of posts) and the properties the specification states about them.

    - JavaScript strings are sequences of UTF-16 code units ([jsstring]).
    - The values that reach [JSON.stringify] or come out of [JSON.parse] are
      [jsval]s; the parameters the TypeScript source types are typed here
      too, an optional one as an [option].
    - Every [fetch] goes through an oracle of the environment and is recorded
      in a log of requests, so "how many calls, to what, with which body" can
      be stated.  The body of an answer has the shape the remote service
      documents, or cannot be decoded.
    - [throw]/[try]/[catch] are an error monad over that log.
    - [console.log] and the like are left out. *)

From Stdlib Require Import Bool String Ascii DecimalString List NArith ZArith Lia.
Import ListNotations.
Open Scope list_scope.

Set Implicit Arguments.
Set Warnings "-register-all".

(* ================================================================= *)
(** ** Strings *)

(** A JavaScript string: its UTF-16 code units, [length] is [.length]. *)
Definition jsstring := list N.

(** The code units of an ASCII literal of the source. *)
Definition js (s : string) : jsstring :=
  map N_of_ascii (list_ascii_of_string s).

Fixpoint str_eqb (a b : jsstring) : bool :=
  match a, b with
  | [], [] => true
  | x :: a', y :: b' => (x =? y)%N && str_eqb a' b'
  | _, _ => false
  end.

Definition between (lo hi c : N) : bool := ((lo <=? c) && (c <=? hi))%N.

(** [\s] of a regular expression and the set [trim] removes: WhiteSpace and
    LineTerminator of ECMAScript (both are the same set). *)
Definition is_space (c : N) : bool :=
  (between 9 13 c || (c =? 32) || (c =? 160) || (c =? 5760)
   || between 8192 8202 c || (c =? 8232) || (c =? 8233) || (c =? 8239)
   || (c =? 8287) || (c =? 12288) || (c =? 65279))%N.

Definition is_digit (c : N) : bool := between 48 57 c.
Definition is_upper (c : N) : bool := between 65 90 c.
Definition is_lower (c : N) : bool := between 97 122 c.

(** [\w] is [[A-Za-z0-9_]]. *)
Definition is_word (c : N) : bool :=
  (is_upper c || is_lower c || is_digit c || (c =? 95))%N.

Definition HYPHEN : N := 45.
Definition SPACE : N := 32.
Definition BACKTICK : N := 96.

Fixpoint dropWhile (p : N -> bool) (s : jsstring) : jsstring :=
  match s with
  | [] => []
  | c :: s' => if p c then dropWhile p s' else s
  end.

Fixpoint takeWhile (p : N -> bool) (s : jsstring) : jsstring :=
  match s with
  | [] => []
  | c :: s' => if p c then c :: takeWhile p s' else []
  end.

Definition trimStart (s : jsstring) : jsstring := dropWhile is_space s.
Definition trimEnd (s : jsstring) : jsstring := rev (dropWhile is_space (rev s)).

(** [s.trim()] *)
Definition trim (s : jsstring) : jsstring := trimEnd (trimStart s).

(** [s.substring(0, n)] *)
Definition substring0 (n : nat) (s : jsstring) : jsstring := firstn n s.

Fixpoint starts_with (p s : jsstring) : bool :=
  match p, s with
  | [], _ => true
  | _ :: _, [] => false
  | a :: p', b :: s' => (a =? b)%N && starts_with p' s'
  end.

(** [s.replace(/re/g, r)] for a regular expression that never matches the
    empty string.  [m t] is the length of the match of [re] that starts at the
    head of [t], if there is one; the scan goes left to right and resumes
    after each match.  [skip] counts the code units of the current match that
    are still to be dropped. *)
Fixpoint replace_g (m : jsstring -> option nat) (r : jsstring)
         (skip : nat) (s : jsstring) : jsstring :=
  match s with
  | [] => []
  | c :: s' =>
      match skip with
      | S k => replace_g m r k s'
      | O =>
          match m s with
          | Some (S k) => r ++ replace_g m r k s'
          | _ => c :: replace_g m r O s'
          end
      end
  end.

Definition replaceAll (m : jsstring -> option nat) (r s : jsstring) : jsstring :=
  replace_g m r O s.

(** [/<[^>]*>/] at the head: a [<] and everything up to the next [>]. *)
Fixpoint index_of (c : N) (s : jsstring) : option nat :=
  match s with
  | [] => None
  | d :: s' => if (d =? c)%N then Some O else option_map S (index_of c s')
  end.

Definition match_tag (s : jsstring) : option nat :=
  match s with
  | 60%N :: s' => option_map (fun i => S (S i)) (index_of 62%N s')
  | _ => None
  end.

(** [s.replace(/<[^>]*>/g, '')] *)
Definition strip_tags (s : jsstring) : jsstring := replaceAll match_tag [] s.

(** [/\s+/] at the head: the whole run of white space. *)
Definition match_spaces (s : jsstring) : option nat :=
  match takeWhile is_space s with
  | [] => None
  | w => Some (length w)
  end.

(** [s.replace(/\s+/g, ' ')] *)
Definition collapse_spaces (s : jsstring) : jsstring :=
  replaceAll match_spaces [SPACE] s.

(** [s.replace(/[^\w\s-]/g, '')] *)
Definition strip_special (s : jsstring) : jsstring :=
  filter (fun c => is_word c || is_space c || (c =? HYPHEN)%N) s.

(** [/\s+\S*$/] at the head: white space, then no white space up to the end
    of the string.  However [\s+] backtracks, what follows it must be free of
    white space, so the run is taken whole. *)
Definition match_last_word (s : jsstring) : bool :=
  match s with
  | [] => false
  | c :: _ => is_space c && forallb (fun d => negb (is_space d)) (dropWhile is_space s)
  end.

(** [s.replace(/\s+\S*$/, '')]: the first (leftmost) match is removed, and it
    reaches the end of the string. *)
Fixpoint drop_last_word (s : jsstring) : jsstring :=
  match s with
  | [] => []
  | c :: s' => if match_last_word s then [] else c :: drop_last_word s'
  end.

(** [s.toLowerCase()], one code unit at a time.  Above U+007F the engine's
    table sends a letter to other units above U+007F, as many as it had, with
    two exceptions written out here: U+0130 becomes [i] and U+0307, and the
    Kelvin sign U+212A becomes [k].  The remaining units above U+007F are left
    in place: the only caller replaces each of them by a hyphen. *)
Definition lower_unit (c : N) : jsstring :=
  if is_upper c then [(c + 32)%N]
  else if (c =? 304)%N then [105%N; 775%N]
  else if (c =? 8490)%N then [107%N]
  else [c].

Definition toLowerCase (s : jsstring) : jsstring := flat_map lower_unit s.

(** [s.replace(/[^a-z0-9-]/g, '-')] *)
Definition hyphenate (s : jsstring) : jsstring :=
  map (fun c => if is_lower c || is_digit c || (c =? HYPHEN)%N then c else HYPHEN) s.

(** The slug of a category or tag name,
    [name.toLowerCase().replace(/[^a-z0-9-]/g, '-')]. *)
Definition slugify (name : jsstring) : jsstring := hyphenate (toLowerCase name).

(** Decimal text of an integer, [String(n)] for an integral number. *)
Definition digits_of_Z (z : Z) : jsstring :=
  js (NilZero.string_of_int (Z.to_int z)).

(** [/```json\s*|\s*```/] at the head.  The first alternative is tried first;
    in the second one [\s*] takes the whole run of white space, since the
    three backticks cannot start inside the run. *)
Definition FENCE : jsstring := [BACKTICK; BACKTICK; BACKTICK].
Definition FENCE_JSON : jsstring := FENCE ++ js "json".

Definition match_fence (s : jsstring) : option nat :=
  if starts_with FENCE_JSON s
  then Some (7 + length (takeWhile is_space (skipn 7 s)))%nat
  else if starts_with FENCE (dropWhile is_space s)
       then Some (length (takeWhile is_space s) + 3)%nat
       else None.

(** [aiContent.replace(/```json\s*|\s*```/g, '').trim()] *)
Definition cleanedContent (aiContent : jsstring) : jsstring :=
  trim (replaceAll match_fence [] aiContent).

(* ================================================================= *)
(** ** JSON values *)

(** A JavaScript value as far as JSON reaches, and [undefined].  [JNum m e]
    is the number [m * 10^e], kept as the decimal it was written as. *)
Inductive jsval : Type :=
| JUndefined
| JNull
| JBool (b : bool)
| JNum (m e : Z)
| JStr (s : jsstring)
| JArr (l : list jsval)
| JObj (o : list (jsstring * jsval)).

Definition JInt (z : Z) : jsval := JNum z 0.

(** Truthiness, as [!v], [v || w] and [if (v)] use it. *)
Definition truthy (v : jsval) : bool :=
  match v with
  | JUndefined | JNull => false
  | JBool b => b
  | JNum m _ => negb (m =? 0)%Z
  | JStr s => match s with [] => false | _ => true end
  | JArr _ | JObj _ => true
  end.

(** [a || b] *)
Definition or_else (a b : jsval) : jsval := if truthy a then a else b.

(** The value a key holds in an object literal or a parsed object: the last
    binding of the key wins. *)
Fixpoint lookup (k : jsstring) (o : list (jsstring * jsval)) : option jsval :=
  match o with
  | [] => None
  | (k', v) :: o' =>
      match lookup k o' with
      | Some w => Some w
      | None => if str_eqb k k' then Some v else None
      end
  end.

(** What [JSON.stringify] keeps of a value: a property holding [undefined]
    is left out of its object, an [undefined] array element becomes [null]. *)
Definition kept (f : jsval -> jsval) (e : jsstring * jsval)
  : list (jsstring * jsval) :=
  let '(k, x) := e in
  match x with
  | JUndefined => []
  | _ => [(k, f x)]
  end.

Definition element (f : jsval -> jsval) (x : jsval) : jsval :=
  match x with
  | JUndefined => JNull
  | _ => f x
  end.

Fixpoint stringify (v : jsval) : jsval :=
  match v with
  | JArr l => JArr (map (element stringify) l)
  | JObj o => JObj (flat_map (kept stringify) o)
  | _ => v
  end.

(** The keys a JSON body carries. *)
Definition has_key (k : string) (body : jsval) : bool :=
  match body with
  | JObj o => match lookup (js k) o with Some _ => true | None => false end
  | _ => false
  end.

Definition field (k : string) (body : jsval) : option jsval :=
  match body with
  | JObj o => lookup (js k) o
  | _ => None
  end.

Definition of_opt {A} (f : A -> jsval) (o : option A) : jsval :=
  match o with Some a => f a | None => JUndefined end.

(* ================================================================= *)
(** ** [JSON.parse] *)

Inductive token : Type :=
| TLBrace | TRBrace | TLBracket | TRBracket | TColon | TComma
| TString (s : jsstring)
| TNumber (m e : Z)
| TTrue | TFalse | TNull.

(** JSON white space: tab, line feed, carriage return, space. *)
Definition json_ws (c : N) : bool :=
  ((c =? 9) || (c =? 10) || (c =? 13) || (c =? 32))%N.

Definition punct (c : N) : option token :=
  if (c =? 123)%N then Some TLBrace
  else if (c =? 125)%N then Some TRBrace
  else if (c =? 91)%N then Some TLBracket
  else if (c =? 93)%N then Some TRBracket
  else if (c =? 58)%N then Some TColon
  else if (c =? 44)%N then Some TComma
  else None.

(** The code units a number or one of [true], [false], [null] is made of. *)
Definition word_char (c : N) : bool :=
  (is_digit c || is_lower c || is_upper c
   || (c =? 43) || (c =? 45) || (c =? 46))%N.

Definition hex_val (c : N) : option N :=
  if is_digit c then Some (c - 48)%N
  else if between 97 102 c then Some (c - 87)%N
  else if between 65 70 c then Some (c - 55)%N
  else None.

Definition digits_val (ds : jsstring) : Z :=
  fold_left (fun acc d => (acc * 10 + Z.of_N (d - 48))%Z) ds 0%Z.

(** A JSON number: an optional minus, an integer part without a leading
    zero (unless it is the single digit 0), an optional fraction of one or
    more digits, an optional exponent. *)
Definition number_token (w : jsstring) : option token :=
  let '(neg, w1) :=
    match w with
    | 45%N :: r => (true, r)
    | _ => (false, w)
    end in
  let ip := takeWhile is_digit w1 in
  let w2 := dropWhile is_digit w1 in
  let int_ok :=
    match ip with
    | [] => false
    | 48%N :: _ :: _ => false
    | _ => true
    end in
  let frac :=
    match w2 with
    | 46%N :: r =>
        match takeWhile is_digit r with
        | [] => None
        | fp => Some (fp, dropWhile is_digit r)
        end
    | _ => Some ([], w2)
    end in
  match int_ok, frac with
  | true, Some (fp, w3) =>
      let m := digits_val (ip ++ fp) in
      let m := if neg then (- m)%Z else m in
      let shift := Z.of_nat (length fp) in
      match w3 with
      | [] => Some (TNumber m (- shift))
      | x :: r =>
          if ((x =? 101) || (x =? 69))%N then
            let '(eneg, ds) :=
              match r with
              | 45%N :: r' => (true, r')
              | 43%N :: r' => (false, r')
              | _ => (false, r)
              end in
            match ds with
            | [] => None
            | _ =>
                if forallb is_digit ds then
                  let e := digits_val ds in
                  Some (TNumber m ((if eneg then - e else e) - shift))
                else None
            end
          else None
      end
  | _, _ => None
  end.

Definition word_token (w : jsstring) : option token :=
  if str_eqb w (js "true") then Some TTrue
  else if str_eqb w (js "false") then Some TFalse
  else if str_eqb w (js "null") then Some TNull
  else number_token w.

Inductive lexstate : Type :=
| LIdle
| LWord (acc : jsstring)
| LString (acc : jsstring)
| LEscape (acc : jsstring)
| LUnicode (acc : jsstring) (v : N) (n : nat).

(** What a code unit starts when no token is open: the next state and the
    token it completes, if any. *)
Definition lex_start (c : N) : option (lexstate * option token) :=
  if json_ws c then Some (LIdle, None)
  else if (c =? 34)%N then Some (LString [], None)
  else match punct c with
       | Some t => Some (LIdle, Some t)
       | None => if word_char c then Some (LWord [c], None) else None
       end.

Definition emit (t : option token) (out : list token) : list token :=
  match t with Some t => t :: out | None => out end.

Definition unescape (c : N) : option N :=
  if (c =? 34)%N then Some 34%N
  else if (c =? 92)%N then Some 92%N
  else if (c =? 47)%N then Some 47%N
  else if (c =? 98)%N then Some 8%N
  else if (c =? 102)%N then Some 12%N
  else if (c =? 110)%N then Some 10%N
  else if (c =? 114)%N then Some 13%N
  else if (c =? 116)%N then Some 9%N
  else None.

(** The tokens of a JSON text; accumulators are kept reversed. *)
Fixpoint lex (st : lexstate) (out : list token) (s : jsstring)
  : option (list token) :=
  match s with
  | [] =>
      match st with
      | LIdle => Some (rev out)
      | LWord w => option_map (fun t => rev (t :: out)) (word_token (rev w))
      | _ => None
      end
  | c :: s' =>
      match st with
      | LIdle =>
          match lex_start c with
          | Some (st', t) => lex st' (emit t out) s'
          | None => None
          end
      | LWord w =>
          if word_char c then lex (LWord (c :: w)) out s'
          else match word_token (rev w), lex_start c with
               | Some t, Some (st', t') => lex st' (emit t' (t :: out)) s'
               | _, _ => None
               end
      | LString acc =>
          if (c =? 34)%N then lex LIdle (TString (rev acc) :: out) s'
          else if (c =? 92)%N then lex (LEscape acc) out s'
          else if (c <? 32)%N then None
          else lex (LString (c :: acc)) out s'
      | LEscape acc =>
          if (c =? 117)%N then lex (LUnicode acc 0 0) out s'
          else match unescape c with
               | Some x => lex (LString (x :: acc)) out s'
               | None => None
               end
      | LUnicode acc v n =>
          match hex_val c with
          | None => None
          | Some d =>
              let v' := (v * 16 + d)%N in
              match n with
              | 3%nat => lex (LString (v' :: acc)) out s'
              | _ => lex (LUnicode acc v' (S n)) out s'
              end
          end
      end
  end.

(** An array or object under construction, elements kept reversed.
    [FKey] waits for a key (or the closing brace), [FVal k] for the value of
    [k]. *)
Inductive frame : Type :=
| FArr (items : list jsval)
| FKey (entries : list (jsstring * jsval))
| FVal (entries : list (jsstring * jsval)) (k : jsstring).

Inductive pmode : Type :=
| MValue        (* a value must come *)
| MArrFirst     (* just after [[]: a value or []] *)
| MObjFirst     (* just after [{]: a key or [}] *)
| MKey          (* after a comma in an object: a key *)
| MColon        (* after a key: the colon *)
| MNext         (* after an element: a comma or the closing bracket *)
| MDone (v : jsval).

Definition pstate : Type := (pmode * list frame)%type.

(** A value was completed: attach it to the construction on top. *)
Definition attach (v : jsval) (st : list frame) : option pstate :=
  match st with
  | [] => Some (MDone v, [])
  | FArr items :: st' => Some (MNext, FArr (v :: items) :: st')
  | FVal es k :: st' => Some (MNext, FKey ((k, v) :: es) :: st')
  | FKey _ :: _ => None
  end.

Definition scalar (t : token) : option jsval :=
  match t with
  | TString s => Some (JStr s)
  | TNumber m e => Some (JNum m e)
  | TTrue => Some (JBool true)
  | TFalse => Some (JBool false)
  | TNull => Some JNull
  | _ => None
  end.

Definition pvalue (t : token) (st : list frame) : option pstate :=
  match t with
  | TLBracket => Some (MArrFirst, FArr [] :: st)
  | TLBrace => Some (MObjFirst, FKey [] :: st)
  | _ => match scalar t with
         | Some v => attach v st
         | None => None
         end
  end.

Definition pkey (t : token) (st : list frame) : option pstate :=
  match t, st with
  | TString k, FKey es :: st' => Some (MColon, FVal es k :: st')
  | _, _ => None
  end.

Definition pclose (t : token) (st : list frame) : option pstate :=
  match t, st with
  | TRBracket, FArr items :: st' => attach (JArr (rev items)) st'
  | TRBrace, FKey es :: st' => attach (JObj (rev es)) st'
  | _, _ => None
  end.

Definition pstep (p : pstate) (t : token) : option pstate :=
  let '(m, st) := p in
  match m with
  | MValue => pvalue t st
  | MArrFirst =>
      match t with
      | TRBracket => pclose t st
      | _ => pvalue t st
      end
  | MObjFirst =>
      match t with
      | TRBrace => pclose t st
      | _ => pkey t st
      end
  | MKey => pkey t st
  | MColon =>
      match t with
      | TColon => Some (MValue, st)
      | _ => None
      end
  | MNext =>
      match t, st with
      | TComma, FArr _ :: _ => Some (MValue, st)
      | TComma, FKey _ :: _ => Some (MKey, st)
      | _, _ => pclose t st
      end
  | MDone _ => None
  end.

Fixpoint prun (p : pstate) (ts : list token) : option jsval :=
  match ts with
  | [] => match p with (MDone v, _) => Some v | _ => None end
  | t :: ts' =>
      match pstep p t with
      | Some p' => prun p' ts'
      | None => None
      end
  end.

(** [JSON.parse(text)]: [None] is the [SyntaxError] it throws.  An object is
    kept as the list of its members as they are written; reading a property
    ([lookup]) takes the last member of that name. *)
Definition JSON_parse (text : jsstring) : option jsval :=
  match lex LIdle [] text with
  | Some ts => prun (MValue, []) ts
  | None => None
  end.

(* ================================================================= *)
(** ** Requests, responses and the environment *)

(** The pair [createAuthHeader] encodes: the header text is
    [Basic base64(user:pass)], kept here as the pair it is built from. *)
Record credentials : Type := mkCredentials {
  cred_user : jsstring;
  cred_pass : jsstring }.

Definition createAuthHeader (username password : jsstring) : credentials :=
  mkCredentials username password.

(** The URLs the handlers fetch, by their variable parts. *)
Inductive endpoint : Type :=
| WpUsers (slug : jsstring)        (* /wp/v2/users?slug=<URI-encoded slug>&_fields=id *)
| WpCategories (slug : jsstring)   (* /wp/v2/categories?slug=..&_fields=id *)
| WpTags (slug : jsstring)         (* /wp/v2/tags?slug=..&_fields=id *)
| WpMedia                          (* /wp/v2/media *)
| WpPost (postId : Z)              (* /wp/v2/posts/<postId> *)
| WpPostList (base status perPage : jsstring)
                                   (* <base>/wp-json/wp/v2/posts?status=..&per_page=..&_embed *)
| External (url : jsstring)        (* the image to download *)
| PixabayApi (key q : jsstring)    (* https://pixabay.com/api/?key=..&q=..&.. *)
| OpenAIChat.                      (* https://api.openai.com/v1/chat/completions *)

Inductive verb : Type := GET_ | POST_ | PUT_.

Inductive reqbody : Type :=
| NoBody
| JsonBody (v : jsval)             (* [JSON.stringify(v)] *)
| BinaryBody (bytes : list N).

Record request : Type := mkRequest {
  target : endpoint;
  method : verb;
  authorization : option credentials;
  headers : list (string * jsstring);
  body : reqbody }.

Record media : Type := mkMedia { media_id : Z; source_url : jsstring }.
Record blob : Type := mkBlob { blob_type : jsstring; blob_bytes : list N }.
Record hit : Type := mkHit {
  largeImageURL : option jsstring;
  webformatURL : option jsstring }.
Record post : Type := mkPost {
  post_id : Z;
  title_rendered : option jsstring }.  (* [post.title?.rendered] *)

(** What a response body decodes to, by the kind of call.  Bodies have the
    shape the remote service documents, or are not decodable at all. *)
Inductive kind : Type :=
| KLookup | KMedia | KImage | KWrite | KPixabay | KChat | KPosts.

Definition payload (k : kind) : Type :=
  match k with
  | KLookup => list Z              (* [[{id}, ...]] *)
  | KMedia => media                (* [{id, source_url}] *)
  | KImage => blob
  | KWrite => unit                 (* the updated post, only logged *)
  | KPixabay => option (list hit)  (* [data.hits] *)
  | KChat => option jsstring       (* [data.choices?.[0]?.message?.content] *)
  | KPosts => list post
  end.

(** A [Response]: [decoded] is what [json()] (or [blob()]) resolves to,
    [None] when it rejects. *)
Record response (A : Type) : Type := mkResponse {
  ok : bool;
  status : Z;
  header : string -> option jsstring;
  decoded : option A }.

Definition log : Type := list request.

(** [process.env], the clock, and the remote services: what a [fetch] of a
    request answers after the requests made so far, [None] when the promise
    rejects (a transport error). *)
Record Env : Type := mkEnv {
  WORDPRESS_URL : option jsstring;
  WORDPRESS_USERNAME : option jsstring;
  WORDPRESS_PASSWORD : option jsstring;
  OPENAI_API_KEY : option jsstring;
  OPENAI_MODEL_env : option jsstring;
  PIXABAY_API_KEY : option jsstring;
  Date_now : Z;
  toISOString_now : jsstring;
  remote : forall k : kind, log -> request -> option (response (payload k)) }.

(** Truthiness of the optional values of the typed parameters. *)
Definition some_str (o : option jsstring) : bool :=
  match o with Some (_ :: _) => true | _ => false end.
Definition some_num (o : option Z) : bool :=
  match o with Some z => negb (z =? 0)%Z | None => false end.
Definition some_list {A} (o : option (list A)) : bool :=
  match o with Some (_ :: _) => true | _ => false end.

(** [o ?? ''] and [o || ''] on an optional string. *)
Definition or_empty (o : option jsstring) : jsstring :=
  match o with Some s => s | None => [] end.

(* ================================================================= *)
(** ** Effects: exceptions over a log of requests *)

Inductive exn : Type :=
| Err (message : string)   (* [new Error(message...)], by its fixed prefix *)
| TypeErr
| SyntaxErr
| NetErr.

Inductive outcome (A : Type) : Type :=
| Ok (a : A)
| Throw (e : exn).
Arguments Throw {A} e.

Definition M (A : Type) : Type := log -> outcome A * log.

Definition ret {A} (a : A) : M A := fun l => (Ok a, l).
Definition throw {A} (e : exn) : M A := fun l => (Throw e, l).

Definition bind {A B} (m : M A) (f : A -> M B) : M B :=
  fun l =>
    match m l with
    | (Ok a, l') => f a l'
    | (Throw e, l') => (Throw e, l')
    end.

(** [try { m } catch (e) { h e }] *)
Definition try_catch {A} (m : M A) (h : exn -> M A) : M A :=
  fun l =>
    match m l with
    | (Ok a, l') => (Ok a, l')
    | (Throw e, l') => h e l'
    end.

Declare Scope js_scope.
Delimit Scope js_scope with js.
Notation "x <- m ;; k" := (bind m (fun x => k))
  (at level 61, m at next level, right associativity) : js_scope.
Notation "m ;;; k" := (bind m (fun _ => k))
  (at level 61, right associativity) : js_scope.
Open Scope js_scope.

(** A handler starts with no request made. *)
Definition run {A} (m : M A) : outcome A * log := m [].
Definition result_of {A} (m : M A) : outcome A := fst (run m).
Definition calls_of {A} (m : M A) : log := snd (run m).

Section Fetch.
Variable E : Env.

(** [await fetch(...)]: the request is made, then the promise settles. *)
Definition fetch (k : kind) (rq : request) : M (response (payload k)) :=
  fun l =>
    match remote E k l rq with
    | Some r => (Ok r, l ++ [rq])
    | None => (Throw NetErr, l ++ [rq])
    end.

(** [await response.json()], [await response.blob()] *)
Definition decode {A} (r : response A) : M A :=
  match decoded r with
  | Some a => ret a
  | None => throw SyntaxErr
  end.
End Fetch.

(** The HTTP answer of a route handler, [NextResponse.json(body, {status})]. *)
Record reply : Type := mkReply {
  reply_status : Z;
  reply_body : jsval }.

Definition NextResponse_json (v : jsval) (st : Z) : reply :=
  mkReply st (stringify v).

Definition success_of (r : reply) : option jsval := field "success" (reply_body r).

(* ================================================================= *)
(** ** [publish-post/route.ts] *)

Module PublishPost.

(** The body the page sends, as its [OptimizationResult] interface types
    it; a [?] parameter or an absent key is [None]. *)
Record body : Type := mkBody {
  postId : Z;
  optimizedTitle : jsstring;
  optimizedContent : jsstring;
  suggestedImage : option jsstring;
  detectedAuthorId : jsstring;
  seoTitle : option jsstring;
  seoDescription : option jsstring;
  keywords : option (list jsstring);
  seoScore : option Z;
  category : option jsstring;
  tags : option (list jsstring);
  publish : bool }.

Section Handler.
Variable E : Env.

Definition WP_USERNAME : jsstring := or_empty (WORDPRESS_USERNAME E).
Definition WP_PASSWORD : jsstring := or_empty (WORDPRESS_PASSWORD E).

Definition auth : option credentials :=
  Some (createAuthHeader WP_USERNAME WP_PASSWORD).

Definition lookup_request (ep : endpoint) : request :=
  mkRequest ep GET_ auth [] NoBody.

(** [users.length > 0 ? users[0].id : null] *)
Definition first_id (ids : list Z) : option Z :=
  match ids with
  | id :: _ => Some id
  | [] => None
  end.

Definition getUserIdByName (username : jsstring) : M (option Z) :=
  try_catch
    (response <- fetch E KLookup (lookup_request (WpUsers username)) ;;
     if negb (ok response) then ret None
     else users <- decode response ;; ret (first_id users))
    (fun _ => ret None).

Definition getCategoryIdByName (categoryName : jsstring) : M (option Z) :=
  try_catch
    (let categorySlug := slugify categoryName in
     response <- fetch E KLookup (lookup_request (WpCategories categorySlug)) ;;
     if negb (ok response) then ret None
     else categories <- decode response ;; ret (first_id categories))
    (fun _ => ret None).

(** The [for] loop of [getTagIdsByNames], [tagIds] threaded through. *)
Fixpoint tag_loop (tagNames : list jsstring) (tagIds : list Z) : M (list Z) :=
  match tagNames with
  | [] => ret tagIds
  | tagName :: rest =>
      let tagSlug := slugify tagName in
      response <- fetch E KLookup (lookup_request (WpTags tagSlug)) ;;
      if ok response then
        tags <- decode response ;;
        match tags with
        | id :: _ => tag_loop rest (tagIds ++ [id])
        | [] => tag_loop rest tagIds
        end
      else tag_loop rest tagIds
  end.

Definition getTagIdsByNames (tagNames : list jsstring) : M (list Z) :=
  try_catch (tag_loop tagNames []) (fun _ => ret []).

Definition image_request (imageUrl : jsstring) : request :=
  mkRequest (External imageUrl) GET_ None [] NoBody.

(** The upload: the bytes as body, [imageBlob.type || 'image/jpeg'] as
    content type, the file name in [Content-Disposition]. *)
Definition upload_request (filename : jsstring) (imageBlob : blob) : request :=
  mkRequest WpMedia POST_ auth
    [("Content-Type"%string,
      match blob_type imageBlob with
      | [] => js "image/jpeg"
      | t => t
      end);
     ("Content-Disposition"%string,
      js "attachment; filename=" ++ [34%N] ++ filename ++ [34%N])]
    (BinaryBody (blob_bytes imageBlob)).

Definition uploadImageToWordPress (imageUrl filename : jsstring)
  : M (option media) :=
  try_catch
    (imageResponse <- fetch E KImage (image_request imageUrl) ;;
     if negb (ok imageResponse) then throw (Err "Failed to fetch image")
     else
       imageBlob <- decode imageResponse ;;
       uploadResponse <- fetch E KMedia (upload_request filename imageBlob) ;;
       if negb (ok uploadResponse) then throw (Err "Failed to upload image")
       else
         mediaData <- decode uploadResponse ;;
         ret (Some mediaData))
    (fun _ => ret None).

(** The object [updateData] of [updateWordPressPost], property by
    property in the order the source assigns them. *)
Definition updateData
           (title content : jsstring)
           (featuredMediaId authorId categoryId : option Z)
           (tagIds : option (list Z))
           (status : jsstring)
           (seoTitle seoDescription : option jsstring)
           (keywords : option (list jsstring))
           (seoScore : option Z) : jsval :=
  JObj
    ([ (js "title", JStr title);
       (js "content", JStr content);
       (js "status", JStr status);
       (js "featured_media", of_opt JInt featuredMediaId) ]
     ++ (if some_num authorId
         then [ (js "author", of_opt JInt authorId) ] else [])
     ++ (if some_num categoryId
         then [ (js "categories", JArr [of_opt JInt categoryId]) ] else [])
     ++ (if some_list tagIds
         then [ (js "tags", of_opt (fun l => JArr (map JInt l)) tagIds) ]
         else [])
     ++ (if some_str seoTitle || some_str seoDescription
            || some_list keywords
            || (match seoScore with Some _ => true | None => false end)
         then [ (js "meta",
                 JObj
                   [ (js "rank_math_title",
                      JStr (or_empty seoTitle));
                     (js "rank_math_description",
                      JStr (or_empty seoDescription));
                     (js "rank_math_focus_keyword",
                      JStr (match keywords with
                            | Some (k :: _) => k
                            | _ => []
                            end));
                     (js "rank_math_score",
                      JStr (match seoScore with
                            | Some n => digits_of_Z n
                            | None => []
                            end)) ]) ]
         else [])).

Definition update_request (postId : Z) (data : jsval) : request :=
  mkRequest (WpPost postId) PUT_ auth
    [("Content-Type"%string, js "application/json")]
    (JsonBody (stringify data)).

Definition updateWordPressPost
           (postId : Z) (title content : jsstring)
           (featuredMediaId authorId categoryId : option Z)
           (tagIds : option (list Z))
           (status : jsstring)
           (seoTitle seoDescription : option jsstring)
           (keywords : option (list jsstring))
           (seoScore : option Z) : M bool :=
  try_catch
    (let data := updateData title content featuredMediaId authorId
                   categoryId tagIds status seoTitle seoDescription
                   keywords seoScore in
     updateResponse <- fetch E KWrite (update_request postId data) ;;
     if negb (ok updateResponse) then throw (Err "Failed to update post")
     else decode updateResponse ;;; ret true)
    (fun _ => ret false).

(** [suggestedImage && suggestedImage.trim()] *)
Definition image_given (suggestedImage : option jsstring) : bool :=
  match suggestedImage with
  | Some s => match s with [] => false | _ => match trim s with [] => false | _ => true end end
  | None => false
  end.

Definition filename_for (postId : Z) : jsstring :=
  js "featured-image-" ++ digits_of_Z postId ++ js "-"
     ++ digits_of_Z (Date_now E) ++ js ".jpg".

(** [null] for a lookup that found nothing, [undefined] for a value
    never assigned. *)
Definition or_null (o : option Z) : jsval :=
  match o with Some z => JInt z | None => JNull end.

Definition POST (b : body) : M reply :=
  try_catch
    (if match WP_USERNAME with [] => true | _ => false end
        || match WP_PASSWORD with [] => true | _ => false end
     then ret (NextResponse_json
                 (JObj [ (js "success", JBool false);
                         (js "error", JStr (js "Missing WordPress credentials")) ])
                 400)
     else
       (* Step 1: upload image if provided *)
       uploadResult <-
         (if image_given (suggestedImage b)
          then uploadImageToWordPress (or_empty (suggestedImage b))
                                      (filename_for (postId b))
          else ret None) ;;
       let featuredMediaId := option_map media_id uploadResult in
       let uploadedImageUrl := option_map source_url uploadResult in
       (* Step 2: resolve author, category, tags *)
       authorId <- getUserIdByName (detectedAuthorId b) ;;
       categoryId <-
         (if some_str (category b)
          then c <- getCategoryIdByName (or_empty (category b)) ;; ret (Some c)
          else ret None) ;;
       tagIds <-
         (if some_list (tags b)
          then getTagIdsByNames (match tags b with Some l => l | None => [] end)
          else ret []) ;;
       success <- updateWordPressPost
                    (postId b) (optimizedTitle b) (optimizedContent b)
                    featuredMediaId
                    (if some_num authorId then authorId else None)
                    (match categoryId with Some c => c | None => None end)
                    (match tagIds with [] => None | _ => Some tagIds end)
                    (if publish b then js "publish" else js "draft")
                    (seoTitle b) (seoDescription b) (keywords b) (seoScore b) ;;
       if negb success then throw (Err "Failed to update post")
       else
         ret (NextResponse_json
                (JObj
                   [ (js "success", JBool true);
                     (js "data",
                      JObj
                        [ (js "postId", JInt (postId b));
                          (js "imageUrl",
                           if some_str uploadedImageUrl
                           then of_opt JStr uploadedImageUrl
                           else of_opt JStr (suggestedImage b));
                          (js "featured_media_id", of_opt JInt featuredMediaId);
                          (js "author_id", or_null authorId);
                          (js "category_id", of_opt or_null categoryId);
                          (js "tag_ids", JArr (map JInt tagIds));
                          (js "seo_title", of_opt JStr (seoTitle b));
                          (js "seo_description", of_opt JStr (seoDescription b));
                          (js "detected_author", JStr (detectedAuthorId b)) ]) ])
                200))
    (fun _ =>
       ret (NextResponse_json
              (JObj [ (js "success", JBool false);
                      (js "error", JStr (js "Failed to publish post")) ])
              500)).

End Handler.
End PublishPost.

(* ================================================================= *)
(** ** The route that optimises a post ([/api/optimize-content]) *)

Module Optimize.

(** What [searchPixabay] resolves to; [url] is [undefined] when the chosen
    hit has neither address. *)
Record image : Type := mkImage {
  url : option jsstring;
  source : jsstring }.

(** The object [optimizeWithAI] resolves to.  With a generation key the
    properties are whatever the parsed answer holds, hence [jsval]. *)
Record optimized : Type := mkOptimized {
  optimizedTitle : jsval;
  optimizedContent : jsval;
  suggestedImage : jsval;
  imageSource : jsval;
  keywords : jsval;
  seoScore : jsval;
  seoTitle : jsval;
  seoDescription : jsval;
  category : jsval;
  tags : jsval;
  detectedAuthor : jsval }.

Record body : Type := mkBody {
  title : jsstring;
  content : jsstring;
  excerpt : jsstring }.

Section Handler.
Variable E : Env.
(** The fixed instructions of the prompt, up to [Original Title:]. *)
Variable INSTRUCTIONS : jsstring.

Definition OPENAI_MODEL : jsstring :=
  if some_str (OPENAI_MODEL_env E) then or_empty (OPENAI_MODEL_env E)
  else js "gpt-4o".

(** The clean-up of [searchQuery] between the length test and the
    request. *)
Definition clean_query (searchQuery : jsstring) : jsstring :=
  trim (collapse_spaces (strip_special searchQuery)).

Definition limit_query (searchQuery : jsstring) : jsstring :=
  if (100 <? length searchQuery)%nat
  then drop_last_word (substring0 100 searchQuery)
  else searchQuery.

Definition normalize_query (searchQuery : jsstring) : jsstring :=
  limit_query (clean_query searchQuery).

(** [data.hits.find(hit => hit.largeImageURL) || data.hits[0]] *)
Definition bestImage (hits : list hit) : option hit :=
  match find (fun h => some_str (largeImageURL h)) hits with
  | Some h => Some h
  | None => hd_error hits
  end.

Definition pixabay_request (key q : jsstring) : request :=
  mkRequest (PixabayApi key q) GET_ None [] NoBody.

(** [query] is typed [string], yet the caller may pass whatever the
    parsed answer held: [query.trim()] is a [TypeError] on anything else. *)
Definition searchPixabay (query : jsval) : M (option image) :=
  if negb (some_str (PIXABAY_API_KEY E)) then ret None
  else
    match query with
    | JStr q =>
        let searchQuery := trim q in
        if (length searchQuery <? 3)%nat then ret None
        else
          let searchQuery := normalize_query searchQuery in
          try_catch
            (response <- fetch E KPixabay
                           (pixabay_request (or_empty (PIXABAY_API_KEY E))
                                            searchQuery) ;;
             if negb (ok response) then ret None
             else
               data <- decode response ;;
               match data with
               | Some (h :: hs) =>
                   match bestImage (h :: hs) with
                   | Some best =>
                       ret (Some (mkImage
                                    (if some_str (largeImageURL best)
                                     then largeImageURL best
                                     else webformatURL best)
                                    (js "Pixabay")))
                   | None => ret None
                   end
               | _ => ret None
               end)
            (fun _ => ret None)
    | _ => throw TypeErr
    end.

(** [parsed.name]: a [TypeError] on [null], the own property of an
    object, [undefined] on the other values (none of the names read here
    is a property of a string, an array, a number or a boolean). *)
Definition prop (parsed : jsval) (name : string) : M jsval :=
  match parsed with
  | JNull | JUndefined => throw TypeErr
  | JObj o => ret (match lookup (js name) o with
                   | Some v => v
                   | None => JUndefined
                   end)
  | _ => ret JUndefined
  end.

(** [imageResult?.url || ''] and [imageResult?.source || 'No image found'] *)
Definition image_url (r : option image) : jsval :=
  match r with
  | Some i => if some_str (url i) then JStr (or_empty (url i)) else JStr []
  | None => JStr []
  end.
Definition image_source (r : option image) : jsval :=
  match r with
  | Some i => match source i with
              | [] => JStr (js "No image found")
              | s => JStr s
              end
  | None => JStr (js "No image found")
  end.

Definition prompt (title content excerpt : jsstring) : jsstring :=
  INSTRUCTIONS ++ js "Original Title: " ++ title ++ [10%N]
    ++ js "Original Content: " ++ content ++ [10%N]
    ++ js "Original Excerpt: " ++ excerpt.

Definition chat_request (title content excerpt : jsstring) : request :=
  mkRequest OpenAIChat POST_ None
    [("Content-Type"%string, js "application/json");
     ("Authorization"%string, js "Bearer " ++ or_empty (OPENAI_API_KEY E))]
    (JsonBody
       (stringify
          (JObj
             [ (js "model", JStr OPENAI_MODEL);
               (js "messages",
                JArr
                  [ JObj [ (js "role", JStr (js "system"));
                           (js "content",
                            JStr (js "You are an expert content optimizer. Always respond with valid JSON only.")) ];
                    JObj [ (js "role", JStr (js "user"));
                           (js "content", JStr (prompt title content excerpt)) ] ]);
               (js "temperature", JNum 7 (-1));
               (js "max_tokens", JInt 5000) ]))).

Definition optimizeWithAI (title content excerpt : jsstring) : M optimized :=
  let query := trim (strip_tags title) in
  if negb (some_str (OPENAI_API_KEY E)) then
    (* no generation key: the stub, with an image search *)
    imageResult <- searchPixabay (JStr query) ;;
    ret {| optimizedTitle := JStr (trim (strip_tags title) ++ js " - Enhanced");
           optimizedContent := JStr content;
           suggestedImage := image_url imageResult;
           imageSource := image_source imageResult;
           keywords := JArr [JStr query];
           seoScore := JInt 65;
           seoTitle := JStr (substring0 60 query);
           seoDescription := JStr (substring0 160 (trim (strip_tags excerpt)));
           category := JStr (js "ai-technology");
           tags := JArr [JStr (js "news"); JStr (js "update"); JStr (js "trending")];
           detectedAuthor := JStr (js "jmason") |}
  else
    try_catch
      (response <- fetch E KChat (chat_request title content excerpt) ;;
       if negb (ok response) then throw (Err "OpenAI API error")
       else
         data <- decode response ;;
         let aiContent := data in
         if negb (some_str aiContent)
         then throw (Err "No content in OpenAI response")
         else
           parsed <-
             (match JSON_parse (cleanedContent (or_empty aiContent)) with
              | Some v => ret v
              | None => throw (Err "Failed to parse AI response")
              end) ;;
           imageDescription <- prop parsed "imageDescription" ;;
           let imageQuery := or_else imageDescription (JStr query) in
           p_keywords <- prop parsed "keywords" ;;
           p_category <- prop parsed "category" ;;
           p_tags <- prop parsed "tags" ;;
           p_recommendedAuthor <- prop parsed "recommendedAuthor" ;;
           p_seoScore <- prop parsed "seoScore" ;;
           p_seoTitle <- prop parsed "seoTitle" ;;
           p_seoDescription <- prop parsed "seoDescription" ;;
           imageResult <- searchPixabay imageQuery ;;
           p_optimizedTitle <- prop parsed "optimizedTitle" ;;
           p_optimizedContent <- prop parsed "optimizedContent" ;;
           ret {| optimizedTitle := or_else p_optimizedTitle (JStr title);
                  optimizedContent := or_else p_optimizedContent (JStr content);
                  suggestedImage := image_url imageResult;
                  imageSource := image_source imageResult;
                  keywords := or_else p_keywords (JArr [JStr query]);
                  seoScore := or_else p_seoScore (JInt 70);
                  seoTitle := or_else p_seoTitle (JStr (substring0 60 query));
                  seoDescription :=
                    or_else p_seoDescription
                            (JStr (substring0 160 (trim (strip_tags excerpt))));
                  category := or_else p_category (JStr (js "ai-technology"));
                  tags := or_else p_tags (JArr [JStr (js "content")]);
                  detectedAuthor :=
                    or_else p_recommendedAuthor (JStr (js "john-mason")) |})
      (fun error => throw error).

Definition POST (b : body) : M reply :=
  try_catch
    (if negb (some_str (OPENAI_API_KEY E))
     then ret (NextResponse_json
                 (JObj [ (js "success", JBool false);
                         (js "error", JStr (js "Missing OpenAI API key")) ])
                 400)
     else
       o <- optimizeWithAI (title b) (content b) (excerpt b) ;;
       ret (NextResponse_json
              (JObj
                 [ (js "success", JBool true);
                   (js "optimizedTitle", optimizedTitle o);
                   (js "seoTitle", seoTitle o);
                   (js "seoDescription", seoDescription o);
                   (js "optimizedContent", optimizedContent o);
                   (js "suggestedImage", suggestedImage o);
                   (js "imageSource", imageSource o);
                   (js "keywords", keywords o);
                   (js "seoScore", seoScore o);
                   (js "category", category o);
                   (js "tags", tags o);
                   (js "detectedAuthor", detectedAuthor o) ])
              200))
    (fun _ =>
       ret (NextResponse_json
              (JObj [ (js "success", JBool false);
                      (js "error", JStr (js "Failed to optimize content")) ])
              500)).

End Handler.
End Optimize.

(* ================================================================= *)
(** ** The route that saves SEO data to the post meta *)

Module SaveSeo.

Record body : Type := mkBody {
  postId : option Z;
  seoTitle : option jsstring;
  seoDescription : option jsstring;
  keyword : option jsstring;
  seoScore : option Z }.

Section Handler.
Variable E : Env.

Definition WP_USERNAME : jsstring := or_empty (WORDPRESS_USERNAME E).
Definition WP_PASSWORD : jsstring := or_empty (WORDPRESS_PASSWORD E).

Definition post_request (auth : credentials) (postId : Z) (payload : jsval)
  : request :=
  mkRequest (WpPost postId) POST_ (Some auth)
    [("Content-Type"%string, js "application/json")]
    (JsonBody (stringify payload)).

(** The object [metaFields], in insertion order. *)
Definition metaFields (b : body) : list (jsstring * jsval) :=
  (if some_str (seoTitle b)
   then [ (js "_yoast_wpseo_title", of_opt JStr (seoTitle b)) ] else [])
  ++ (if some_str (seoDescription b)
      then [ (js "_yoast_wpseo_metadesc", of_opt JStr (seoDescription b)) ] else [])
  ++ (if some_str (keyword b)
      then [ (js "_yoast_wpseo_focuskw", of_opt JStr (keyword b)) ] else []).

(** The loop over [Object.entries(metaFields)]: one write per field, each
    in its own [try]. *)
Fixpoint field_loop (auth : credentials) (postId : Z)
         (entries : list (jsstring * jsval)) : M unit :=
  match entries with
  | [] => ret tt
  | (key, value) :: rest =>
      try_catch
        (fetch E KWrite
               (post_request auth postId (JObj [ (js "meta", JObj [ (key, value) ]) ]))
         ;;; ret tt)
        (fun _ => ret tt) ;;;
      field_loop auth postId rest
  end.

Definition POST (b : body) : M reply :=
  try_catch
    (if match WP_USERNAME with [] => true | _ => false end
        || match WP_PASSWORD with [] => true | _ => false end
     then ret (NextResponse_json
                 (JObj [ (js "success", JBool false);
                         (js "error", JStr (js "Missing WordPress credentials")) ])
                 400)
     else if negb (some_num (postId b))
     then ret (NextResponse_json
                 (JObj [ (js "success", JBool false);
                         (js "error", JStr (js "Missing postId")) ])
                 400)
     else
       let id := match postId b with Some z => z | None => 0%Z end in
       let auth := createAuthHeader WP_USERNAME WP_PASSWORD in
       (* Save SEO title *)
       (if some_str (seoTitle b)
        then fetch E KWrite
               (post_request auth id
                  (JObj [ (js "yoast_head",
                           JStr (js "<title>" ++ or_empty (seoTitle b)
                                    ++ js "</title>")) ]))
             ;;; ret tt
        else ret tt) ;;;
       (* Save meta fields *)
       updateResponse <- fetch E KWrite
                           (post_request auth id
                              (JObj [ (js "meta", JObj (metaFields b)) ])) ;;
       decode updateResponse ;;;
       (if negb (ok updateResponse)
        then field_loop auth id (metaFields b)
        else ret tt) ;;;
       ret (NextResponse_json
              (JObj
                 [ (js "success", JBool true);
                   (js "data",
                    JObj [ (js "postId", of_opt JInt (postId b));
                           (js "seoTitle", of_opt JStr (seoTitle b));
                           (js "seoDescription", of_opt JStr (seoDescription b));
                           (js "keyword", of_opt JStr (keyword b)) ]) ])
              200))
    (fun _ =>
       ret (NextResponse_json
              (JObj [ (js "success", JBool false);
                      (js "error", JStr (js "Failed to save SEO data")) ])
              500)).

End Handler.
End SaveSeo.

(* ================================================================= *)
(** ** The route that lists the posts ([/api/wp-posts]) *)

Module Posts.

(** The query string of the request, [searchParams.get(..)]. *)
Record params : Type := mkParams {
  p_status : option jsstring;
  p_per_page : option jsstring;
  p_page : option jsstring }.

(** [seenTitles.has(title)] on the set kept as the list of added titles. *)
Definition has (seenTitles : list jsstring) (title : jsstring) : bool :=
  existsb (str_eqb title) seenTitles.

(** [post.title?.rendered || ''] *)
Definition title_of (p : post) : jsstring := or_empty (title_rendered p).

(** [posts.filter(post => ...)] with the set [seenTitles] its callback
    updates, threaded through. *)
Fixpoint filter_seen (seenTitles : list jsstring) (posts : list post)
  : list post :=
  match posts with
  | [] => []
  | p :: rest =>
      let title := title_of p in
      if has seenTitles title then filter_seen seenTitles rest
      else p :: filter_seen (title :: seenTitles) rest
  end.

Definition uniquePosts (posts : list post) : list post := filter_seen [] posts.

(** [parseInt(s)]: leading white space, a sign, then decimal digits (or
    hexadecimal ones after [0x]); [None] is [NaN]. *)
Definition hex_digits_val (ds : jsstring) : Z :=
  fold_left (fun acc d => match hex_val d with
                          | Some h => (acc * 16 + Z.of_N h)%Z
                          | None => acc
                          end) ds 0%Z.

Definition is_hex (c : N) : bool :=
  match hex_val c with Some _ => true | None => false end.

Definition parseInt (s : jsstring) : option Z :=
  let t := trimStart s in
  let '(neg, t) :=
    match t with
    | 45%N :: r => (true, r)
    | 43%N :: r => (false, r)
    | _ => (false, t)
    end in
  let sign (z : Z) := if neg then (- z)%Z else z in
  match t with
  | 48%N :: x :: r =>
      if ((x =? 120) || (x =? 88))%N then
        match takeWhile is_hex r with
        | [] => None
        | ds => Some (sign (hex_digits_val ds))
        end
      else Some (sign (digits_val (takeWhile is_digit t)))
  | _ =>
      match takeWhile is_digit t with
      | [] => None
      | ds => Some (sign (digits_val ds))
      end
  end.

Definition num_or_nan (o : option Z) : jsval :=
  match o with Some z => JInt z | None => JNull end.

(** A post as it is handed back: the object is passed through as it came;
    of its properties the identifier and the title are kept here. *)
Definition post_json (p : post) : jsval :=
  JObj [ (js "id", JInt (post_id p));
         (js "title",
          JObj [ (js "rendered", of_opt JStr (title_rendered p)) ]) ].

Section Handler.
Variable E : Env.

Definition or_default (o : option jsstring) (d : jsstring) : jsstring :=
  if some_str o then or_empty o else d.

Definition list_request (status perPage : jsstring) : request :=
  mkRequest
    (WpPostList (or_empty (WORDPRESS_URL E)) status perPage) GET_
    (Some (mkCredentials (or_empty (WORDPRESS_USERNAME E))
                         (or_empty (WORDPRESS_PASSWORD E))))
    [] NoBody.

Definition GET (q : params) : M reply :=
  try_catch
    (let status := or_default (p_status q) (js "draft") in
     let perPage := or_default (p_per_page q) (js "100") in
     if negb (some_str (WORDPRESS_URL E))
        || negb (some_str (WORDPRESS_USERNAME E))
        || negb (some_str (WORDPRESS_PASSWORD E))
     then ret (NextResponse_json
                 (JObj [ (js "success", JBool false);
                         (js "error", JStr (js "Missing WordPress credentials")) ])
                 400)
     else
       response <- fetch E KPosts (list_request status perPage) ;;
       if negb (ok response) then throw (Err "WordPress API error")
       else
         posts <- decode response ;;
         let unique := uniquePosts posts in
         let total := or_default (header response "x-wp-total") (js "0") in
         let totalPages := or_default (header response "x-wp-totalpages") (js "0") in
         let currentPage := or_default (p_page q) (js "1") in
         ret (NextResponse_json
                (JObj
                   [ (js "success", JBool true);
                     (js "data", JArr (map post_json unique));
                     (js "pagination",
                      JObj [ (js "total", num_or_nan (parseInt total));
                             (js "totalPages", num_or_nan (parseInt totalPages));
                             (js "currentPage", num_or_nan (parseInt currentPage));
                             (js "perPage", num_or_nan (parseInt perPage)) ]);
                     (js "timestamp", JStr (toISOString_now E)) ])
                200))
    (fun _ =>
       ret (NextResponse_json
              (JObj [ (js "success", JBool false);
                      (js "error", JStr (js "Failed to fetch posts")) ])
              500)).

End Handler.
End Posts.

(* ================================================================= *)
(** ** Sample environments *)

Definition no_header : string -> option jsstring := fun _ => None.

(** Every remote service unreachable. *)
Definition remote_down : forall k : kind, log -> request -> option (response (payload k)) :=
  fun _ _ _ => None.

(** The generation service answers [content]; nothing else is reachable. *)
Definition remote_chat (content : jsstring)
  : forall k : kind, log -> request -> option (response (payload k)) :=
  fun k =>
    match k return log -> request -> option (response (payload k)) with
    | KChat => fun _ _ => Some (mkResponse true 200 no_header (Some (Some content)))
    | _ => fun _ _ => None
    end.

(** Every write is answered with a gateway error page (not JSON). *)
Definition remote_bad_gateway
  : forall k : kind, log -> request -> option (response (payload k)) :=
  fun k =>
    match k return log -> request -> option (response (payload k)) with
    | KWrite => fun _ _ => Some (mkResponse false 502 no_header None)
    | _ => fun _ _ => None
    end.

(** Every write is refused with a JSON error body. *)
Definition remote_forbidden
  : forall k : kind, log -> request -> option (response (payload k)) :=
  fun k =>
    match k return log -> request -> option (response (payload k)) with
    | KWrite => fun _ _ => Some (mkResponse false 403 no_header (Some tt))
    | _ => fun _ _ => None
    end.

(** The content system answers every lookup with no match and accepts every
    write; images cannot be downloaded. *)
Definition remote_wordpress
  : forall k : kind, log -> request -> option (response (payload k)) :=
  fun k =>
    match k return log -> request -> option (response (payload k)) with
    | KLookup => fun _ _ => Some (mkResponse true 200 no_header (Some []))
    | KWrite => fun _ _ => Some (mkResponse true 200 no_header (Some tt))
    | KImage => fun _ _ => Some (mkResponse false 404 no_header None)
    | _ => fun _ _ => None
    end.

Definition sample_env (wp openai pixabay : option jsstring)
           (r : forall k : kind, log -> request -> option (response (payload k)))
  : Env :=
  mkEnv (Some (js "https://example.org")) wp wp openai None pixabay
        1700000000000 (js "2023-11-14T22:13:20.000Z") r.

(* ================================================================= *)
(** ** Notions used to state the properties *)

(** A code unit a slug is made of: [[a-z0-9-]]. *)
Definition slug_char (c : N) : bool :=
  is_lower c || is_digit c || (c =? HYPHEN)%N.










(** The media step of the pipeline fails: the download or the upload cannot
    be reached (a transport error), is answered with a non-success status, or
    its body cannot be read. *)
Inductive upload_fails (E : Env) (imageUrl filename : jsstring) : Prop :=
| download_unreachable :
    remote E KImage [] (PublishPost.image_request imageUrl) = None ->
    upload_fails E imageUrl filename
| download_refused : forall r,
    remote E KImage [] (PublishPost.image_request imageUrl) = Some r ->
    ok r = false ->
    upload_fails E imageUrl filename
| download_unreadable : forall r,
    remote E KImage [] (PublishPost.image_request imageUrl) = Some r ->
    ok r = true -> decoded r = None ->
    upload_fails E imageUrl filename
| upload_unreachable : forall r b,
    remote E KImage [] (PublishPost.image_request imageUrl) = Some r ->
    ok r = true -> decoded r = Some b ->
    remote E KMedia [PublishPost.image_request imageUrl]
           (PublishPost.upload_request E filename b) = None ->
    upload_fails E imageUrl filename
| upload_refused : forall r b r',
    remote E KImage [] (PublishPost.image_request imageUrl) = Some r ->
    ok r = true -> decoded r = Some b ->
    remote E KMedia [PublishPost.image_request imageUrl]
           (PublishPost.upload_request E filename b) = Some r' ->
    ok r' = false ->
    upload_fails E imageUrl filename
| upload_unreadable : forall r b r',
    remote E KImage [] (PublishPost.image_request imageUrl) = Some r ->
    ok r = true -> decoded r = Some b ->
    remote E KMedia [PublishPost.image_request imageUrl]
           (PublishPost.upload_request E filename b) = Some r' ->
    ok r' = true -> decoded r' = None ->
    upload_fails E imageUrl filename.

(** ** Tactics for the effect monad *)

Ltac unfold_M :=
  unfold calls_of, result_of, run, try_catch, bind, fetch, decode, ret, throw in *.

Ltac step_remote :=
  match goal with
  | |- context [remote ?E ?k ?l ?rq] =>
      let r := fresh "r" in
      let Hr := fresh "Hr" in
      destruct (remote E k l rq) as [r|] eqn:Hr; cbn [fst snd]
  end.

Ltac step_response :=
  match goal with
  | |- context [ok ?r] =>
      let Hok := fresh "Hok" in
      destruct (ok r) eqn:Hok; cbn [negb fst snd]
  | |- context [decoded ?r] =>
      let Hd := fresh "Hd" in
      destruct (decoded r) eqn:Hd; cbn [fst snd]
  end.

(* ================================================================= *)
(** ** The status check of the image search ([GET] of the optimisation route) *)

Module PixabayStatus.

Section Handler.
Variable E : Env.

Definition testQuery : jsstring := js "nature landscape".

(** [!!testResult] *)
Definition working (testResult : option Optimize.image) : bool :=
  match testResult with Some _ => true | None => false end.

(** The handler has no [try]: what [searchPixabay] throws, it throws. *)
Definition GET : M reply :=
  if some_str (PIXABAY_API_KEY E) then
    testResult <- Optimize.searchPixabay E (JStr testQuery) ;;
    ret (NextResponse_json
           (JObj [ (js "success", JBool true);
                   (js "pixabayConfigured", JBool true);
                   (js "pixabayWorking", JBool (working testResult));
                   (js "testQuery", JStr testQuery) ])
           200)
  else
    ret (NextResponse_json
           (JObj [ (js "success", JBool true);
                   (js "pixabayConfigured", JBool false);
                   (js "pixabayWorking", JBool false) ])
           200).

End Handler.
End PixabayStatus.

(* ================================================================= *)
(** ** [wp-authors/route.ts] *)

Module Authors.

(** [WPAuthor]; the optional [avatar_urls] is carried along and not
    looked at. *)
Record WPAuthor : Type := mkAuthor {
  id : Z;
  name : jsstring;
  slug : jsstring }.

Definition author_json (a : WPAuthor) : jsval :=
  JObj [ (js "id", JInt (id a));
         (js "name", JStr (name a));
         (js "slug", JStr (slug a)) ].

Section Handler.
Variable E : Env.
(** What the user list of the content system answers, after the requests
    made so far; [None] when the promise rejects. *)
Variable users_remote : log -> request -> option (response (list WPAuthor)).

Definition WP_USERNAME : jsstring := or_empty (WORDPRESS_USERNAME E).
Definition WP_PASSWORD : jsstring := or_empty (WORDPRESS_PASSWORD E).

Definition users_request : request :=
  mkRequest
    (External (js "https://digitalchew.com/wp-json/wp/v2/users?per_page=100&_fields=id,name,slug,avatar_urls"))
    GET_
    (Some (createAuthHeader WP_USERNAME WP_PASSWORD))
    [("Content-Type"%string, js "application/json")]
    NoBody.

Definition fetch_users (rq : request) : M (response (list WPAuthor)) :=
  fun l =>
    match users_remote l rq with
    | Some r => (Ok r, l ++ [rq])
    | None => (Throw NetErr, l ++ [rq])
    end.

Definition GET : M reply :=
  try_catch
    (if match WP_USERNAME with [] => true | _ => false end
        || match WP_PASSWORD with [] => true | _ => false end
     then ret (NextResponse_json
                 (JObj [ (js "success", JBool false);
                         (js "error", JStr (js "Missing WordPress credentials")) ])
                 400)
     else
       response <- fetch_users users_request ;;
       if negb (ok response) then throw (Err "Failed to fetch authors")
       else
         authors <- decode response ;;
         ret (NextResponse_json
                (JObj [ (js "success", JBool true);
                        (js "data", JArr (map author_json authors)) ])
                200))
    (fun _ =>
       ret (NextResponse_json
              (JObj [ (js "success", JBool false);
                      (js "error", JStr (js "Failed to fetch authors")) ])
              500)).

End Handler.
End Authors.

(* ================================================================= *)
(** ** [page.tsx]: the selection and the optimisation of the selected posts *)

Module Page.

(** [WPPost], by the properties the page reads. *)
Record WPPost : Type := mkWPPost {
  id : Z;
  title : jsstring;      (* [post.title.rendered] *)
  content : jsstring;    (* [post.content.rendered] *)
  excerpt : jsstring }.  (* [post.excerpt.rendered] *)

(** [OptimizationResult]; what comes from the answer of the route is kept
    as the JSON value it is. *)
Record OptimizationResult : Type := mkResult {
  postId : Z;
  optimizedTitle : jsval;
  optimizedContent : jsval;
  suggestedImage : jsval;
  imageSource : jsval;
  selectedAuthorId : option Z;
  keywords : jsval;
  seoScore : jsval;
  seoTitle : jsval;
  seoDescription : jsval;
  category : jsval;
  tags : jsval;
  detectedAuthor : jsval }.

(** [prev.includes(postId)] *)
Definition includes (prev : list Z) (postId : Z) : bool :=
  existsb (fun x => (x =? postId)%Z) prev.

(** The updater [togglePostSelection] hands to [setSelectedPosts]. *)
Definition togglePostSelection (prev : list Z) (postId : Z) : list Z :=
  if includes prev postId
  then filter (fun x => negb (x =? postId)%Z) prev
  else prev ++ [postId].

(** The updater [toggleExpanded] hands to [setExpandedPosts]. *)
Definition toggleExpanded (prev : list Z) (postId : Z) : list Z :=
  if includes prev postId
  then filter (fun x => negb (x =? postId)%Z) prev
  else prev ++ [postId].

Definition selectAll (posts : list WPPost) : list Z := map id posts.
Definition deselectAll : list Z := [].

(** [data.name] on the decoded answer: a [TypeError] ([None]) on [null]. *)
Definition get (data : jsval) (name : string) : option jsval :=
  match data with
  | JNull | JUndefined => None
  | JObj o => Some (match lookup (js name) o with
                    | Some v => v
                    | None => JUndefined
                    end)
  | _ => Some JUndefined
  end.

(** [data.name] where [data] is known not to be [null]. *)
Definition raw (data : jsval) (name : string) : jsval :=
  match get data name with
  | Some v => v
  | None => JUndefined
  end.

(** [data.name || d] *)
Definition dflt (data : jsval) (name : string) (d : jsval) : jsval :=
  or_else (raw data name) d.

Section Optimise.
(** What [POST /api/optimize-content] answers to a body, decoded, after
    the bodies sent so far; [None] when [fetch] or [json()] rejects. *)
Variable api : list Optimize.body -> Optimize.body -> option jsval.
Variable posts : list WPPost.
Variable selectedAuthor : option Z.

(** [selectedAuthorId || undefined] *)
Definition author_or_undefined : option Z :=
  if some_num selectedAuthor then selectedAuthor else None.

(** The result pushed when the route answers [success]. *)
Definition optimized_result (post : WPPost) (data : jsval) : OptimizationResult :=
  {| postId := id post;
     optimizedTitle := raw data "optimizedTitle";
     optimizedContent := raw data "optimizedContent";
     suggestedImage := raw data "suggestedImage";
     imageSource := raw data "imageSource";
     selectedAuthorId := author_or_undefined;
     keywords := dflt data "keywords" (JArr []);
     seoScore := dflt data "seoScore" (JInt 0);
     seoTitle := dflt data "seoTitle" (raw data "optimizedTitle");
     seoDescription := dflt data "seoDescription" (JStr []);
     category := dflt data "category" (JStr (js "ai-technology"));
     tags := dflt data "tags" (JArr []);
     detectedAuthor := dflt data "detectedAuthor" (JStr (js "john-mason")) |}.

(** The result pushed otherwise; [why] is the [imageSource] text. *)
Definition untouched_result (post : WPPost) (why : string) : OptimizationResult :=
  {| postId := id post;
     optimizedTitle := JStr (title post);
     optimizedContent := JStr (content post);
     suggestedImage := JStr [];
     imageSource := JStr (js why);
     selectedAuthorId := author_or_undefined;
     keywords := JArr [];
     seoScore := JInt 0;
     seoTitle := JStr [];
     seoDescription := JStr [];
     category := JStr (js "ai-technology");
     tags := JArr [];
     detectedAuthor := JStr (js "john-mason") |}.

(** One turn of the loop body after [post] was found: the answer of the
    route becomes a result. *)
Definition result_for (post : WPPost) (answer : option jsval) : OptimizationResult :=
  match answer with
  | None => untouched_result post "Error during optimization"
  | Some data =>
      match get data "success" with
      | None => untouched_result post "Error during optimization"
      | Some s =>
          if truthy s then optimized_result post data
          else untouched_result post "Failed to generate suggestion"
      end
  end.

Definition body_of (post : WPPost) : Optimize.body :=
  Optimize.mkBody (title post) (content post) (excerpt post).

(** The [for] loop of [optimizeWithAI]: the bodies sent and [newResults],
    threaded through. *)
Fixpoint optimize_loop (selected : list Z) (sent : list Optimize.body)
         (newResults : list OptimizationResult)
  : list Optimize.body * list OptimizationResult :=
  match selected with
  | [] => (sent, newResults)
  | postId :: rest =>
      match find (fun p => (id p =? postId)%Z) posts with
      | None => optimize_loop rest sent newResults
      | Some post =>
          let b := body_of post in
          optimize_loop rest (sent ++ [b])
                        (newResults ++ [result_for post (api sent b)])
      end
  end.

(** [optimizeWithAI] of the page: [None] when nothing is selected (an
    error is shown and [results] stay), else the new [results]. *)
Definition optimizeWithAI (selectedPosts : list Z)
  : option (list OptimizationResult) :=
  match selectedPosts with
  | [] => None
  | _ => Some (snd (optimize_loop selectedPosts [] []))
  end.


End Optimise.

(** The route handler behind [/api/optimize-content] as the page sees it:
    each request is handled on its own. *)
Definition served_by (E : Env) (INSTRUCTIONS : jsstring)
  : list Optimize.body -> Optimize.body -> option jsval :=
  fun _ b =>
    match result_of (Optimize.POST E INSTRUCTIONS b) with
    | Ok r => Some (reply_body r)
    | Throw _ => None
    end.

End Page.

(* ================================================================= *)
(** ** A further sample environment *)

(** Every service answers: images are served, uploads give the media 55,
    every look-up finds the identifier 3, every write is accepted, the image
    search has one hit, the generation service answers an empty object. *)
Definition remote_serving
  : forall k : kind, log -> request -> option (response (payload k)) :=
  fun k =>
    match k return log -> request -> option (response (payload k)) with
    | KLookup => fun _ _ => Some (mkResponse true 200 no_header (Some [3%Z]))
    | KMedia =>
        fun _ _ =>
          Some (mkResponse true 201 no_header
                  (Some (mkMedia 55 (js "https://cdn.example.org/a.jpg"))))
    | KImage =>
        fun _ _ =>
          Some (mkResponse true 200 no_header (Some (mkBlob [] [255%N; 216%N])))
    | KWrite => fun _ _ => Some (mkResponse true 200 no_header (Some tt))
    | KPixabay =>
        fun _ _ =>
          Some (mkResponse true 200 no_header
                  (Some (Some [mkHit None (Some (js "https://pixabay.example/w.jpg"))])))
    | KChat =>
        fun _ _ => Some (mkResponse true 200 no_header (Some (Some (js "{}"))))
    | KPosts => fun _ _ => Some (mkResponse true 200 no_header (Some []))
    end.

(* ================================================================= *)
(** ** Further notions used to state properties *)

(** A request the publishing handler may make for the post [postId]: a
    read of users, categories, tags or of an image, the upload of a media
    file, or the update of that very post. *)
Definition publish_request_ok (postId : Z) (rq : request) : Prop :=
  match target rq with
  | WpUsers _ | WpCategories _ | WpTags _ | External _ =>
      method rq = GET_ /\ body rq = NoBody
  | WpMedia => method rq = POST_
  | WpPost id => method rq = PUT_ /\ id = postId
  | _ => False
  end.

Definition is_update (rq : request) : bool :=
  match method rq with PUT_ => true | _ => false end.

(** The look-up request of a tag name. *)
Definition tag_request (E : Env) (tagName : jsstring) : request :=
  PublishPost.lookup_request E (WpTags (slugify tagName)).

(** What one tag contributes when the look-ups do not depend on what was
    requested before: [None] when the look-up breaks the loop (unreachable,
    or accepted with a body that cannot be read), else the identifier found,
    if any. *)
Definition tag_contribution (E : Env) (tagName : jsstring) : option (list Z) :=
  match remote E KLookup [] (tag_request E tagName) with
  | None => None
  | Some r =>
      if ok r then
        match decoded r with
        | None => None
        | Some (id :: _) => Some [id]
        | Some [] => Some []
        end
      else Some []
  end.

Fixpoint tag_contributions (E : Env) (tagNames : list jsstring) : option (list Z) :=
  match tagNames with
  | [] => Some []
  | n :: rest =>
      match tag_contribution E n, tag_contributions E rest with
      | Some a, Some b => Some (a ++ b)
      | _, _ => None
      end
  end.

(** The update the publishing handler sends once the image, the author, the
    category and the tags are settled, and its two answers. *)
Definition publish_data (b : PublishPost.body) (uploadResult : option media)
           (authorId : option Z) (categoryId : option (option Z))
           (tagIds : list Z) : jsval :=
  PublishPost.updateData
    (PublishPost.optimizedTitle b) (PublishPost.optimizedContent b)
    (option_map media_id uploadResult)
    (if some_num authorId then authorId else None)
    (match categoryId with Some c => c | None => None end)
    (match tagIds with [] => None | _ => Some tagIds end)
    (if PublishPost.publish b then js "publish" else js "draft")
    (PublishPost.seoTitle b) (PublishPost.seoDescription b)
    (PublishPost.keywords b) (PublishPost.seoScore b).

Definition publish_success (b : PublishPost.body) (uploadResult : option media)
           (authorId : option Z) (categoryId : option (option Z))
           (tagIds : list Z) : reply :=
  NextResponse_json
    (JObj
       [ (js "success", JBool true);
         (js "data",
          JObj
            [ (js "postId", JInt (PublishPost.postId b));
              (js "imageUrl",
               if some_str (option_map source_url uploadResult)
               then of_opt JStr (option_map source_url uploadResult)
               else of_opt JStr (PublishPost.suggestedImage b));
              (js "featured_media_id",
               of_opt JInt (option_map media_id uploadResult));
              (js "author_id", PublishPost.or_null authorId);
              (js "category_id", of_opt PublishPost.or_null categoryId);
              (js "tag_ids", JArr (map JInt tagIds));
              (js "seo_title", of_opt JStr (PublishPost.seoTitle b));
              (js "seo_description", of_opt JStr (PublishPost.seoDescription b));
              (js "detected_author", JStr (PublishPost.detectedAuthorId b)) ]) ])
    200.

Definition publish_failure : reply :=
  NextResponse_json
    (JObj [ (js "success", JBool false);
            (js "error", JStr (js "Failed to publish post")) ])
    500.

(** The answer to a write is accepted by [updateWordPressPost]: a success
    status and a body that can be read. *)
Definition accepted (a : option (response unit)) : bool :=
  match a with
  | Some r => ok r && match decoded r with Some _ => true | None => false end
  | None => false
  end.

(** The steps of one run of the publishing handler, with credentials. *)
Record publish_run (E : Env) (b : PublishPost.body) : Type := mkPublishRun {
  run_upload : option media;       (* what the media step gave *)
  run_up : log;                    (* the requests of the media step *)
  run_author : option Z;
  run_category : option (option Z);
  run_cat : log;                   (* the category look-up, if any *)
  run_tags : list Z;
  run_tag : log;                   (* the tag look-ups *)
  run_done : bool }.               (* what [updateWordPressPost] returned *)

Definition run_before {E b} (r : publish_run E b) : log :=
  run_up r
    ++ [PublishPost.lookup_request E (WpUsers (PublishPost.detectedAuthorId b))]
    ++ run_cat r ++ run_tag r.

Definition run_update {E b} (r : publish_run E b) : request :=
  PublishPost.update_request E (PublishPost.postId b)
    (publish_data b (run_upload r) (run_author r) (run_category r) (run_tags r)).

(* ================================================================= *)
(** ** Notions about the image query *)

(** The alphabet of a query as it is sent: [\w], the hyphen and the space. *)
Definition query_char (c : N) : bool :=
  is_word c || (c =? HYPHEN)%N || (c =? SPACE)%N.

(** No two units of white space in a row. *)
Fixpoint no_double_space (s : jsstring) : bool :=
  match s with
  | [] => true
  | c :: s' =>
      negb (is_space c && is_space (hd 0%N s')) && no_double_space s'
  end.

(** What [/[^\w\s-]/] matches. *)
Definition special (c : N) : bool :=
  negb (is_word c || is_space c || (c =? HYPHEN)%N).

(* ================================================================= *)
(** ** Notions about the generation answer *)

(** A value with no [undefined] inside. *)
Fixpoint defined (v : jsval) : bool :=
  match v with
  | JUndefined => false
  | JArr l => forallb defined l
  | JObj o => forallb (fun e => let '(_, x) := e in defined x) o
  | _ => true
  end.






(** The address taken from the hits of an image search: the large one of the
    first hit that has one, else the medium-sized one of the first hit. *)
Definition chosen_url (hits : list hit) : option jsstring :=
  match find (fun h => some_str (largeImageURL h)) hits with
  | Some best => largeImageURL best
  | None => match hits with h :: _ => webformatURL h | [] => None end
  end.

Definition failed_reply : reply :=
  NextResponse_json
    (JObj [ (js "success", JBool false);
            (js "error", JStr (js "Failed to optimize content")) ])
    500.

(* ================================================================= *)
(** ** Notions about saving SEO data and listing posts *)

(** The write of a single meta field, as the fall-back loop sends it. *)
Definition field_request (auth : credentials) (postId : Z)
           (e : jsstring * jsval) : request :=
  SaveSeo.post_request auth postId (JObj [ (js "meta", JObj [e]) ]).

Definition title_request (auth : credentials) (postId : Z) (b : SaveSeo.body)
  : request :=
  SaveSeo.post_request auth postId
    (JObj [ (js "yoast_head",
             JStr (js "<title>" ++ or_empty (SaveSeo.seoTitle b) ++ js "</title>")) ]).

Definition meta_request (auth : credentials) (postId : Z) (b : SaveSeo.body)
  : request :=
  SaveSeo.post_request auth postId (JObj [ (js "meta", JObj (SaveSeo.metaFields b)) ]).

(** A request that writes to the post [postId] with the configured
    credentials. *)
Definition seo_write (E : Env) (postId : Z) (rq : request) : Prop :=
  target rq = WpPost postId
  /\ method rq = POST_
  /\ authorization rq
     = Some (createAuthHeader (SaveSeo.WP_USERNAME E) (SaveSeo.WP_PASSWORD E)).



(* ================================================================= *)
(** ** Notions about tags in a text *)

(** [/<[^>]*>/] matches nowhere in [s]. *)
Fixpoint tag_free (s : jsstring) : bool :=
  match s with
  | [] => true
  | _ :: s' => match match_tag s with Some _ => false | None => tag_free s' end
  end.

(* ================================================================= *)
(** ** Notions about the page *)

(** The posts a selection names, in the order of the selection; an
    identifier that names no post is skipped, and of two posts with one
    identifier the first is meant. *)
Definition found_posts (posts : list Page.WPPost) (selected : list Z)
  : list Page.WPPost :=
  flat_map (fun i => match find (fun p => (Page.id p =? i)%Z) posts with
                     | Some p => [p]
                     | None => []
                     end) selected.

(** What the page shows for a post after a run: the post as it was, with
    the reason, or what the route proposed. *)
Definition result_of_post (selectedAuthor : option Z) (post : Page.WPPost)
           (r : Page.OptimizationResult) : Prop :=
  r = Page.untouched_result selectedAuthor post "Failed to generate suggestion"
  \/ r = Page.untouched_result selectedAuthor post "Error during optimization"
  \/ exists data s,
      Page.get data "success" = Some s /\ truthy s = true
      /\ r = Page.optimized_result selectedAuthor post data.

(* ================================================================= *)
(** ** Notions about the look-ups of the publishing handler *)



(* ================================================================= *)
(** * Properties *)

Unset Implicit Arguments.

(** ** Worked examples of the string operations *)

Example slug_demo : slugify (js "AI & Robotics") = js "ai---robotics".
Proof. reflexivity. Qed.

Example strip_tags_demo : strip_tags (js "<b>Hi</b> a < b") = js "Hi a < b".
Proof. reflexivity. Qed.

Example collapse_demo : collapse_spaces (js "a   b  c") = js "a b c".
Proof. reflexivity. Qed.

Example drop_last_word_demo :
  drop_last_word (js "one two thr") = js "one two"
  /\ drop_last_word (js "onetwothr") = js "onetwothr"
  /\ drop_last_word (js "one two ") = js "one two".
Proof. repeat split; reflexivity. Qed.

Example parse_demo :
  JSON_parse (js "{ }") = Some (JObj [])
  /\ JSON_parse (js "[1, -2.5e1, true, null]")
     = Some (JArr [JNum 1 0; JNum (-25) 0; JBool true; JNull])
  /\ JSON_parse (js "[1,]") = None
  /\ JSON_parse (js "") = None.
Proof. repeat split; reflexivity. Qed.

(** ** Image search: when nothing is sent *)

Lemma searchPixabay_no_call :
  forall (E : Env) (q : jsstring) (l : log),
    (length (trim q) < 3)%nat \/ some_str (PIXABAY_API_KEY E) = false ->
    Optimize.searchPixabay E (JStr q) l = (Ok None, l).
Proof.
  intros E q l H. unfold Optimize.searchPixabay.
  destruct (some_str (PIXABAY_API_KEY E)) eqn:Hk; cbn [negb]; [|reflexivity].
  destruct H as [H|H]; [|discriminate].
  apply Nat.ltb_lt in H. rewrite H. reflexivity.
Qed.

(** C9.  A query whose trimmed form has fewer than 3 code units, and any
    query when no image-search key is configured, makes [searchPixabay]
    resolve to [null]: from whatever log it starts, the log is unchanged (no
    request is made) and nothing is thrown. *)
Theorem searchPixabay_rejects_without_call :
  forall (E : Env) (q : jsstring) (l : log),
    (length (trim q) < 3)%nat \/ some_str (PIXABAY_API_KEY E) = false ->
    Optimize.searchPixabay E (JStr q) l = (Ok None, l).
Proof.
  exact searchPixabay_no_call.
Qed.

Lemma searchPixabay_rejects_without_call_witness :
  Optimize.searchPixabay
    (sample_env None None (Some (js "key")) remote_down) (JStr (js "  ab  ")) []
  = (Ok None, []).
Proof.
  apply searchPixabay_rejects_without_call. left. vm_compute. lia.
Defined.

(** ** Slugs and taxonomy look-ups *)

Lemma hyphenate_slug_chars :
  forall s, forallb slug_char (hyphenate s) = true.
Proof.
  induction s as [|c s IH]; [reflexivity|].
  cbn [hyphenate map forallb]. fold (hyphenate s). rewrite IH, andb_true_r.
  fold (slug_char c). destruct (slug_char c) eqn:Hc; [exact Hc | reflexivity].
Qed.




(** ** The post list: duplicates by title *)

Lemma str_eqb_eq : forall a b, str_eqb a b = true <-> a = b.
Proof.
  induction a as [|x a IH]; destruct b as [|y b]; cbn; split; intros H;
    try reflexivity; try discriminate.
  - apply andb_true_iff in H as [H1 H2].
    apply N.eqb_eq in H1. apply IH in H2. congruence.
  - injection H as -> ->. rewrite N.eqb_refl. apply IH. reflexivity.
Qed.

Lemma str_eqb_refl : forall a, str_eqb a a = true.
Proof. intros a. apply str_eqb_eq. reflexivity. Qed.

Lemma str_eqb_sym : forall a b, str_eqb a b = str_eqb b a.
Proof.
  intros a b. destruct (str_eqb a b) eqn:H1, (str_eqb b a) eqn:H2; try reflexivity.
  - apply str_eqb_eq in H1. subst. rewrite str_eqb_refl in H2. discriminate.
  - apply str_eqb_eq in H2. subst. rewrite str_eqb_refl in H1. discriminate.
Qed.

Module PostsFacts.
Import Posts.












End PostsFacts.



(** ** The update request *)

Lemma lookup_app :
  forall k a b,
    lookup k (a ++ b)
    = match lookup k b with
      | Some w => Some w
      | None => lookup k a
      end.
Proof.
  intros k a b. induction a as [|[k' v] a IH]; cbn [app lookup].
  - destruct (lookup k b); reflexivity.
  - rewrite IH. destruct (lookup k b); reflexivity.
Qed.

(** A key that no property holding a value bears is not in the text. *)
Lemma stringify_absent :
  forall (k : string) (o : list (jsstring * jsval)),
    forallb (fun e => negb (str_eqb (js k) (fst e))
                      || match snd e with JUndefined => true | _ => false end) o
    = true ->
    has_key k (stringify (JObj o)) = false.
Proof.
  intros k o H. cbn [stringify has_key].
  assert (Hl : lookup (js k) (flat_map (kept stringify) o) = None).
  { induction o as [|[k' v] o IH]; [reflexivity|].
    cbn [forallb fst snd] in H. apply andb_true_iff in H as [He Ho].
    cbn [flat_map]. rewrite lookup_app, (IH Ho).
    destruct v; cbn [kept lookup]; try reflexivity;
      cbn [orb] in He; rewrite orb_false_r in He;
      apply negb_true_iff in He; rewrite He; reflexivity. }
  rewrite Hl. reflexivity.
Qed.


Lemma updateWordPressPost_runs :
  forall E postId title content fm au cat tg st sT sD kw sc l,
    exists done : bool,
      PublishPost.updateWordPressPost E postId title content fm au cat tg st
        sT sD kw sc l
      = (Ok done,
         l ++ [PublishPost.update_request E postId
                 (PublishPost.updateData title content fm au cat tg st
                    sT sD kw sc)]).
Proof.
  intros. unfold PublishPost.updateWordPressPost. unfold_M.
  step_remote; [|eauto]. repeat step_response; eauto.
Qed.

Lemma updatePost_omitted_featured_media :
  forall title content au cat tg st sT sD kw sc,
    has_key "featured_media"
      (stringify (PublishPost.updateData title content None au cat tg st
                    sT sD kw sc)) = false.
Proof.
  intros. apply stringify_absent. unfold PublishPost.updateData.
  destruct (some_num au), (some_num cat), (some_list tg),
    (some_str sT || some_str sD || some_list kw
     || match sc with Some _ => true | None => false end); reflexivity.
Qed.




(** ** The pipeline after a failed media step *)

Lemma getUserIdByName_runs :
  forall E username l,
    exists id,
      PublishPost.getUserIdByName E username l
      = (Ok id, l ++ [PublishPost.lookup_request E (WpUsers username)]).
Proof.
  intros. unfold PublishPost.getUserIdByName. unfold_M.
  step_remote; [|eauto]. repeat step_response; eauto.
Qed.

Lemma getCategoryIdByName_runs :
  forall E name l,
    exists id,
      PublishPost.getCategoryIdByName E name l
      = (Ok id, l ++ [PublishPost.lookup_request E (WpCategories (slugify name))]).
Proof.
  intros. unfold PublishPost.getCategoryIdByName. unfold_M.
  step_remote; [|eauto]. repeat step_response; eauto.
Qed.

Lemma tag_loop_runs :
  forall E names ids l,
    exists o extra,
      PublishPost.tag_loop E names ids l = (o, l ++ extra)
      /\ match names with
         | [] => extra = []
         | n :: _ =>
             exists rest,
               extra = PublishPost.lookup_request E (WpTags (slugify n)) :: rest
         end.
Proof.
  intros E names. induction names as [|n names IH]; intros ids l.
  - exists (Ok ids), []. cbn. unfold ret. rewrite app_nil_r. auto.
  - cbn [PublishPost.tag_loop]. unfold bind at 1. unfold fetch.
    set (rq := PublishPost.lookup_request E (WpTags (slugify n))).
    destruct (remote E KLookup l rq) as [r|].
    + destruct (ok r).
      * unfold bind, decode. destruct (decoded r) as [[|id tl]|]; cbn.
        -- destruct (IH ids (l ++ [rq])) as (o & extra & H & _).
           rewrite H. exists o, (rq :: extra). rewrite <- app_assoc. eauto.
        -- destruct (IH (ids ++ [id]) (l ++ [rq])) as (o & extra & H & _).
           rewrite H. exists o, (rq :: extra). rewrite <- app_assoc. eauto.
        -- unfold throw. exists (Throw SyntaxErr), [rq]. eauto.
      * destruct (IH ids (l ++ [rq])) as (o & extra & H & _).
        rewrite H. exists o, (rq :: extra). rewrite <- app_assoc. eauto.
    + exists (Throw NetErr), [rq]. eauto.
Qed.

Lemma getTagIdsByNames_runs :
  forall E names l,
    exists ids extra,
      PublishPost.getTagIdsByNames E names l = (Ok ids, l ++ extra)
      /\ match names with
         | [] => extra = []
         | n :: _ =>
             exists rest,
               extra = PublishPost.lookup_request E (WpTags (slugify n)) :: rest
         end.
Proof.
  intros E names l. unfold PublishPost.getTagIdsByNames, try_catch.
  destruct (tag_loop_runs E names [] l) as (o & extra & H & Hx).
  rewrite H. destruct o; unfold ret; eauto.
Qed.

Lemma uploadImageToWordPress_runs :
  forall E imageUrl filename l,
    exists res extra,
      PublishPost.uploadImageToWordPress E imageUrl filename l
      = (Ok res, l ++ extra).
Proof.
  intros. unfold PublishPost.uploadImageToWordPress. unfold_M.
  step_remote; [|eauto]. step_response; [|eauto].
  step_response; [|eauto]. rewrite <- app_assoc.
  step_remote; [|eauto]. repeat step_response; eauto.
Qed.

Lemma upload_fails_null :
  forall E imageUrl filename,
    upload_fails E imageUrl filename ->
    exists up,
      PublishPost.uploadImageToWordPress E imageUrl filename [] = (Ok None, up).
Proof.
  intros E imageUrl filename H.
  unfold PublishPost.uploadImageToWordPress. unfold_M.
  destruct H as [H | r H Hok | r H Hok Hd | r b H Hok Hd H2
                 | r b r' H Hok Hd H2 Hok' | r b r' H Hok Hd H2 Hok' Hd'];
    rewrite H; cbn in *; try (eexists; reflexivity);
    rewrite Hok; cbn; try (eexists; reflexivity);
    rewrite Hd; cbn; try (eexists; reflexivity);
    rewrite H2; cbn in *; try (eexists; reflexivity);
    rewrite Hok'; cbn; try (eexists; reflexivity);
    rewrite Hd'; cbn; eexists; reflexivity.
Qed.

(** C3.  With credentials configured and a suggested image that is not
    blank, a failure of the media step (the download or the upload
    unreachable, answered with a non-success status, or unreadable) does not
    stop the handler: the author is looked up next, the category and the
    first tag are looked up when given, and the last request made is the
    update of the post, whose text has no [featured_media]. *)
Theorem failed_upload_does_not_abort :
  forall (E : Env) (b : PublishPost.body),
    PublishPost.WP_USERNAME E <> [] ->
    PublishPost.WP_PASSWORD E <> [] ->
    PublishPost.image_given (PublishPost.suggestedImage b) = true ->
    upload_fails E (or_empty (PublishPost.suggestedImage b))
                 (PublishPost.filename_for E (PublishPost.postId b)) ->
    exists up mid authorId categoryId tagIds rep,
      calls_of (PublishPost.uploadImageToWordPress E
                  (or_empty (PublishPost.suggestedImage b))
                  (PublishPost.filename_for E (PublishPost.postId b))) = up
      /\ let data :=
           PublishPost.updateData
             (PublishPost.optimizedTitle b) (PublishPost.optimizedContent b)
             None authorId categoryId tagIds
             (if PublishPost.publish b then js "publish" else js "draft")
             (PublishPost.seoTitle b) (PublishPost.seoDescription b)
             (PublishPost.keywords b) (PublishPost.seoScore b) in
         calls_of (PublishPost.POST E b)
         = up ++ [PublishPost.lookup_request E
                    (WpUsers (PublishPost.detectedAuthorId b))]
              ++ mid ++ [PublishPost.update_request E (PublishPost.postId b) data]
         /\ has_key "featured_media" (stringify data) = false
         /\ (some_str (PublishPost.category b) = true ->
             In (PublishPost.lookup_request E
                   (WpCategories (slugify (or_empty (PublishPost.category b)))))
                mid)
         /\ (forall n ns, PublishPost.tags b = Some (n :: ns) ->
             In (PublishPost.lookup_request E (WpTags (slugify n))) mid)
         /\ result_of (PublishPost.POST E b) = Ok rep
         /\ (reply_status rep = 200%Z \/ reply_status rep = 500%Z)
         /\ (reply_status rep = 200%Z ->
             field "success" (reply_body rep) = Some (JBool true)
             /\ exists d, field "data" (reply_body rep) = Some d
                          /\ has_key "featured_media_id" d = false).
Proof.
  intros E b Hu Hp Himg Hfail.
  destruct (upload_fails_null _ _ _ Hfail) as [up Hup].
  unfold calls_of, result_of, run.
  remember (PublishPost.POST E b []) as res eqn:Hres.
  unfold PublishPost.POST, try_catch in Hres.
  destruct (PublishPost.WP_USERNAME E) as [|u0 u] eqn:Eu; [congruence|].
  destruct (PublishPost.WP_PASSWORD E) as [|p0 p] eqn:Ep; [congruence|].
  cbn [orb] in Hres. rewrite Himg in Hres.
  unfold bind at 1 in Hres. rewrite Hup in Hres. cbn [option_map] in Hres.
  unfold bind at 1 in Hres.
  destruct (getUserIdByName_runs E (PublishPost.detectedAuthorId b) up)
    as [authorId Ha]. rewrite Ha in Hres.
  set (l1 := up ++ [PublishPost.lookup_request E
                      (WpUsers (PublishPost.detectedAuthorId b))]) in *.
  (* category *)
  assert (Hc : exists categoryId midc,
             (if some_str (PublishPost.category b)
              then bind (PublishPost.getCategoryIdByName E
                           (or_empty (PublishPost.category b)))
                        (fun c => ret (Some c))
              else ret None) l1 = (Ok categoryId, l1 ++ midc)
             /\ (some_str (PublishPost.category b) = true ->
                 In (PublishPost.lookup_request E
                       (WpCategories (slugify (or_empty (PublishPost.category b)))))
                    midc)).
  { destruct (some_str (PublishPost.category b)).
    - destruct (getCategoryIdByName_runs E (or_empty (PublishPost.category b)) l1)
        as [id Hid].
      unfold bind. rewrite Hid. unfold ret. do 2 eexists.
      split; [reflexivity|]. intros _. left. reflexivity.
    - exists None, []. unfold ret. rewrite app_nil_r.
      split; [reflexivity | discriminate]. }
  destruct Hc as (categoryId & midc & Hc & Hcin).
  unfold bind at 1 in Hres. rewrite Hc in Hres.
  (* tags *)
  assert (Ht : exists tagIds midt,
             (if some_list (PublishPost.tags b)
              then PublishPost.getTagIdsByNames E
                     (match PublishPost.tags b with Some l => l | None => [] end)
              else ret []) (l1 ++ midc) = (Ok tagIds, (l1 ++ midc) ++ midt)
             /\ (forall n ns, PublishPost.tags b = Some (n :: ns) ->
                 In (PublishPost.lookup_request E (WpTags (slugify n))) midt)).
  { destruct (PublishPost.tags b) as [[|n ns]|]; cbn [some_list].
    - exists [], []. unfold ret. rewrite app_nil_r.
      split; [reflexivity | discriminate].
    - destruct (getTagIdsByNames_runs E (n :: ns) (l1 ++ midc))
        as (ids & extra & Hrun & rest & Hx).
      exists ids, extra. split; [exact Hrun|].
      intros n' ns' Heq. injection Heq as <- <-. rewrite Hx. left. reflexivity.
    - exists [], []. unfold ret. rewrite app_nil_r.
      split; [reflexivity | discriminate]. }
  destruct Ht as (tagIds & midt & Ht & Htin).
  unfold bind at 1 in Hres. rewrite Ht in Hres.
  (* update *)
  unfold bind at 1 in Hres.
  assert (Hcalls : forall x : request,
             ((l1 ++ midc) ++ midt) ++ [x]
             = up ++ [PublishPost.lookup_request E
                        (WpUsers (PublishPost.detectedAuthorId b))]
                  ++ (midc ++ midt) ++ [x]).
  { intros x. unfold l1. rewrite <- !app_assoc. reflexivity. }
  match type of Hres with
  | context [PublishPost.updateWordPressPost E ?i ?t ?c ?fm ?au ?cat ?tg ?st
               ?sT ?sD ?kw ?sc ?l] =>
      destruct (updateWordPressPost_runs E i t c fm au cat tg st sT sD kw sc l)
        as [done Hdone]; rewrite Hdone in Hres;
      exists up, (midc ++ midt), au, cat, tg
  end.
  destruct done; cbn [negb] in Hres; unfold ret, throw in Hres; subst res;
    cbn [fst snd];
    eexists; (split; [rewrite Hup; reflexivity|]); cbv zeta;
    (split; [apply Hcalls|]);
    (split; [apply updatePost_omitted_featured_media|]);
    (split; [intros H; apply in_or_app; left; apply Hcin; exact H|]);
    (split; [intros n ns H; apply in_or_app; right; apply (Htin n ns H)|]);
    (split; [reflexivity|]).
  - split; [left; reflexivity|]. intros _. split; [reflexivity|].
    eexists. split; [reflexivity|].
    apply stringify_absent.
    destruct authorId, categoryId as [[?|]|]; reflexivity.
  - split; [right; reflexivity|]. cbn. discriminate.
Qed.

Lemma failed_upload_does_not_abort_witness :
  let E := sample_env (Some (js "editor")) None None remote_wordpress in
  let b := PublishPost.mkBody 7 (js "Title") (js "<p>Body</p>")
             (Some (js "https://example.org/a.jpg")) (js "jmason")
             (Some (js "SEO title")) None None (Some 80%Z)
             (Some (js "AI & Robotics")) (Some [js "Deep Learning"]) true in
  exists rep,
    result_of (PublishPost.POST E b) = Ok rep
    /\ In (PublishPost.lookup_request E (WpUsers (js "jmason")))
          (calls_of (PublishPost.POST E b))
    /\ In (PublishPost.lookup_request E (WpCategories (js "ai---robotics")))
          (calls_of (PublishPost.POST E b))
    /\ In (PublishPost.lookup_request E (WpTags (js "deep-learning")))
          (calls_of (PublishPost.POST E b)).
Proof.
  intros E b.
  destruct (failed_upload_does_not_abort E b)
    as (up & mid & a & c & t & rep & _ & Hcalls & _ & Hc & Ht & Hrep & _).
  - vm_compute. discriminate.
  - vm_compute. discriminate.
  - reflexivity.
  - eapply download_refused; reflexivity.
  - exists rep. rewrite Hcalls. split; [exact Hrep|].
    split; [|split].
    + apply in_or_app. right. left. reflexivity.
    + apply in_or_app. right. cbn [app]. right. apply in_or_app. left.
      apply Hc. reflexivity.
    + apply in_or_app. right. cbn [app]. right. apply in_or_app. left.
      apply (Ht (js "Deep Learning") []). reflexivity.
Defined.

(** ** Image search: the query that is sent *)

Lemma drop_last_word_length :
  forall s, (length (drop_last_word s) <= length s)%nat.
Proof.
  induction s as [|c s IH]; [apply Nat.le_refl|].
  cbn [drop_last_word]. destruct (match_last_word (c :: s)); cbn [length]; lia.
Qed.



Lemma limit_query_length :
  forall s, (length (Optimize.limit_query s) <= 100)%nat.
Proof.
  intros s. unfold Optimize.limit_query.
  destruct (100 <? length s)%nat eqn:H.
  - etransitivity; [apply drop_last_word_length|].
    unfold substring0. apply firstn_le_length.
  - apply Nat.ltb_ge in H. exact H.
Qed.

Lemma searchPixabay_calls :
  forall E q l,
    some_str (PIXABAY_API_KEY E) = true ->
    (3 <= length (trim q))%nat ->
    exists res,
      Optimize.searchPixabay E (JStr q) l
      = (Ok res,
         l ++ [Optimize.pixabay_request (or_empty (PIXABAY_API_KEY E))
                 (Optimize.normalize_query (trim q))]).
Proof.
  intros E q l Hk Hlen. unfold Optimize.searchPixabay. rewrite Hk. cbn [negb].
  apply Nat.ltb_ge in Hlen. rewrite Hlen.
  unfold_M. step_remote; [|eauto]. step_response; [|eauto].
  step_response; [|eauto].
  match goal with
  | |- context [match ?d with Some _ => _ | None => _ end] => destruct d as [[|h hs]|]
  end; eauto.
  destruct (Optimize.bestImage (h :: hs)); eauto.
Qed.




(** ** Optimisation without a generation key *)

Lemma searchPixabay_runs :
  forall E q l,
    exists res extra,
      Optimize.searchPixabay E (JStr q) l = (Ok res, l ++ extra)
      /\ (extra = []
          \/ extra = [Optimize.pixabay_request (or_empty (PIXABAY_API_KEY E))
                        (Optimize.normalize_query (trim q))]).
Proof.
  intros E q l.
  destruct (some_str (PIXABAY_API_KEY E)) eqn:Hk.
  - destruct (Nat.lt_ge_cases (length (trim q)) 3) as [Hlt|Hge].
    + rewrite searchPixabay_no_call by (left; exact Hlt).
      exists None, []. rewrite app_nil_r. auto.
    + destruct (searchPixabay_calls E q l Hk Hge) as [res H].
      rewrite H. eauto.
  - rewrite searchPixabay_no_call by (right; exact Hk).
    exists None, []. rewrite app_nil_r. auto.
Qed.

(** C2, as the code has it.  Without a generation key [optimizeWithAI]
    does not fail: it resolves to the stub, whose SEO title is at most 60 and
    whose SEO description at most 160 code units long, after one call of
    [searchPixabay] with the bare title (which sends one request when an
    image-search key is configured and the bare title has 3 code units or
    more, none otherwise).  The route handler, however, answers 400 before
    calling it: no stub is returned and no image is searched. *)
Theorem optimize_without_generation_key :
  forall (E : Env) (INSTRUCTIONS title content excerpt : jsstring),
    some_str (OPENAI_API_KEY E) = false ->
    let query := trim (strip_tags title) in
    let bare_excerpt := trim (strip_tags excerpt) in
    (exists o,
        result_of (Optimize.optimizeWithAI E INSTRUCTIONS title content excerpt)
        = Ok o
        /\ Optimize.seoTitle o = JStr (substring0 60 query)
        /\ (length (substring0 60 query) <= 60)%nat
        /\ Optimize.seoDescription o = JStr (substring0 160 bare_excerpt)
        /\ (length (substring0 160 bare_excerpt) <= 160)%nat
        /\ Optimize.optimizedTitle o = JStr (query ++ js " - Enhanced")
        /\ Optimize.optimizedContent o = JStr content
        /\ Optimize.keywords o = JArr [JStr query]
        /\ Optimize.seoScore o = JInt 65
        /\ Optimize.category o = JStr (js "ai-technology")
        /\ Optimize.tags o
           = JArr [JStr (js "news"); JStr (js "update"); JStr (js "trending")]
        /\ Optimize.detectedAuthor o = JStr (js "jmason"))
    /\ calls_of (Optimize.optimizeWithAI E INSTRUCTIONS title content excerpt)
       = calls_of (Optimize.searchPixabay E (JStr query))
    /\ (some_str (PIXABAY_API_KEY E) = true -> (3 <= length (trim query))%nat ->
        calls_of (Optimize.optimizeWithAI E INSTRUCTIONS title content excerpt)
        = [Optimize.pixabay_request (or_empty (PIXABAY_API_KEY E))
             (Optimize.normalize_query (trim query))])
    /\ (some_str (PIXABAY_API_KEY E) = false \/ (length (trim query) < 3)%nat ->
        calls_of (Optimize.optimizeWithAI E INSTRUCTIONS title content excerpt)
        = [])
    /\ result_of (Optimize.POST E INSTRUCTIONS
                    (Optimize.mkBody title content excerpt))
       = Ok (NextResponse_json
               (JObj [ (js "success", JBool false);
                       (js "error", JStr (js "Missing OpenAI API key")) ])
               400)
    /\ calls_of (Optimize.POST E INSTRUCTIONS
                   (Optimize.mkBody title content excerpt)) = [].
Proof.
  intros E I title content excerpt Hk query bare_excerpt.
  assert (Hrun : forall l,
             Optimize.optimizeWithAI E I title content excerpt l
             = bind (Optimize.searchPixabay E (JStr query))
                 (fun imageResult =>
                    ret (Optimize.mkOptimized
                           (JStr (query ++ js " - Enhanced")) (JStr content)
                           (Optimize.image_url imageResult)
                           (Optimize.image_source imageResult)
                           (JArr [JStr query]) (JInt 65)
                           (JStr (substring0 60 query))
                           (JStr (substring0 160 bare_excerpt))
                           (JStr (js "ai-technology"))
                           (JArr [JStr (js "news"); JStr (js "update");
                                  JStr (js "trending")])
                           (JStr (js "jmason")))) l).
  { intros l. unfold Optimize.optimizeWithAI. rewrite Hk. reflexivity. }
  destruct (searchPixabay_runs E query []) as (res & extra & Hs & Hextra).
  repeat apply conj.
  - unfold result_of, run. rewrite Hrun. unfold bind. rewrite Hs.
    eexists. split; [reflexivity|].
    cbn [Optimize.seoTitle Optimize.seoDescription Optimize.optimizedTitle
         Optimize.optimizedContent Optimize.keywords Optimize.seoScore
         Optimize.category Optimize.tags Optimize.detectedAuthor].
    repeat split; try reflexivity; unfold substring0; apply firstn_le_length.
  - unfold calls_of, run. rewrite Hrun. unfold bind. rewrite Hs. reflexivity.
  - intros Hp Hlen. unfold calls_of, run. rewrite Hrun. unfold bind.
    destruct (searchPixabay_calls E query [] Hp Hlen) as [r H]. rewrite H.
    reflexivity.
  - intros Hcase. unfold calls_of, run. rewrite Hrun. unfold bind.
    rewrite searchPixabay_no_call; [reflexivity|].
    destruct Hcase; auto.
  - unfold result_of, run, Optimize.POST, try_catch. rewrite Hk. reflexivity.
  - unfold calls_of, run, Optimize.POST, try_catch. rewrite Hk. reflexivity.
Qed.

Lemma optimize_without_generation_key_witness :
  let E := sample_env None None (Some (js "key")) remote_down in
  calls_of (Optimize.optimizeWithAI E [] (js "<h1>Robots at work</h1>")
              (js "<p>Body</p>") (js "<p>Short</p>"))
  = [Optimize.pixabay_request (js "key") (js "Robots at work")]
  /\ calls_of (Optimize.POST E []
                 (Optimize.mkBody (js "<h1>Robots at work</h1>")
                    (js "<p>Body</p>") (js "<p>Short</p>"))) = [].
Proof.
  intros E.
  destruct (optimize_without_generation_key E [] (js "<h1>Robots at work</h1>")
              (js "<p>Body</p>") (js "<p>Short</p>"))
    as (_ & _ & Hcalls & _ & _ & Hpost).
  - reflexivity.
  - split; [|exact Hpost]. apply Hcalls.
    + reflexivity.
    + vm_compute. lia.
Defined.

(** C2 as stated fails: asked to optimise with no generation key, the
    handler answers 400 "Missing OpenAI API key"; no stub, no image search. *)
Lemma optimize_endpoint_rejects_without_key :
  let E := sample_env None None (Some (js "key")) remote_down in
  let b := Optimize.mkBody (js "<h1>Robots at work</h1>") (js "<p>Body</p>")
             (js "<p>Short</p>") in
  exists rep,
    result_of (Optimize.POST E [] b) = Ok rep
    /\ reply_status rep = 400%Z
    /\ field "success" (reply_body rep) = Some (JBool false)
    /\ field "error" (reply_body rep) = Some (JStr (js "Missing OpenAI API key"))
    /\ has_key "seoTitle" (reply_body rep) = false
    /\ calls_of (Optimize.POST E [] b) = [].
Proof.
  intros E b. eexists. repeat split; reflexivity.
Qed.

(** ** The answer of the generation service *)

(** C6, as the code has it.  When the text of the answer, fences removed,
    is rejected by [JSON.parse] or is the JSON [null], the handler answers
    500 with [success: false]; the generation request is the only one made
    (no image is searched, nothing is published). *)
Theorem unparsable_answer_is_an_error :
  forall (E : Env) (INSTRUCTIONS : jsstring) (b : Optimize.body) r aiContent,
    some_str (OPENAI_API_KEY E) = true ->
    let rq := Optimize.chat_request E INSTRUCTIONS (Optimize.title b)
                (Optimize.content b) (Optimize.excerpt b) in
    remote E KChat [] rq = Some r ->
    ok r = true ->
    decoded r = Some (Some aiContent) ->
    JSON_parse (cleanedContent aiContent) = None
    \/ JSON_parse (cleanedContent aiContent) = Some JNull ->
    result_of (Optimize.POST E INSTRUCTIONS b)
    = Ok (NextResponse_json
            (JObj [ (js "success", JBool false);
                    (js "error", JStr (js "Failed to optimize content")) ])
            500)
    /\ calls_of (Optimize.POST E INSTRUCTIONS b) = [rq].
Proof.
  intros E I b r aiContent Hk rq Hr Hok Hd Hparse.
  unfold result_of, calls_of, run, Optimize.POST, Optimize.optimizeWithAI.
  rewrite Hk. cbn [negb]. unfold try_catch, bind, fetch, decode.
  fold rq. rewrite Hr. cbn [payload] in *. rewrite Hok. cbn [negb].
  rewrite Hd. unfold ret, throw.
  destruct aiContent as [|c0 cs]; cbn [some_str negb or_empty];
    [split; reflexivity|].
  destruct Hparse as [Hp|Hp]; rewrite Hp; split; reflexivity.
Qed.

Lemma unparsable_answer_is_an_error_witness :
  let E := sample_env None (Some (js "sk")) (Some (js "key"))
             (remote_chat (js "Sure! Here is your article.")) in
  let b := Optimize.mkBody (js "Title") (js "Body") (js "Excerpt") in
  result_of (Optimize.POST E [] b)
  = Ok (NextResponse_json
          (JObj [ (js "success", JBool false);
                  (js "error", JStr (js "Failed to optimize content")) ])
          500)
  /\ calls_of (Optimize.POST E [] b)
     = [Optimize.chat_request E [] (js "Title") (js "Body") (js "Excerpt")].
Proof.
  intros E b.
  apply (unparsable_answer_is_an_error E [] b
           (mkResponse true 200 no_header (Some (Some (js "Sure! Here is your article."))))
           (js "Sure! Here is your article.")).
  - reflexivity.
  - reflexivity.
  - reflexivity.
  - reflexivity.
  - left. reflexivity.
Defined.

(** C6 as stated fails: the answer [42] is valid JSON and not an object;
    it is accepted, every field falls back to its default, and the post is
    reported as optimised with its original content. *)
Lemma non_object_answer_is_accepted :
  let E := sample_env None (Some (js "sk")) None (remote_chat (js "42")) in
  let b := Optimize.mkBody (js "Title") (js "Body") (js "Excerpt") in
  JSON_parse (cleanedContent (js "42")) = Some (JInt 42)
  /\ exists rep,
      result_of (Optimize.POST E [] b) = Ok rep
      /\ reply_status rep = 200%Z
      /\ field "success" (reply_body rep) = Some (JBool true)
      /\ field "optimizedTitle" (reply_body rep) = Some (JStr (js "Title"))
      /\ field "optimizedContent" (reply_body rep) = Some (JStr (js "Body"))
      /\ field "seoScore" (reply_body rep) = Some (JInt 70)
      /\ field "tags" (reply_body rep) = Some (JArr [JStr (js "content")])
      /\ field "detectedAuthor" (reply_body rep) = Some (JStr (js "john-mason")).
Proof.
  intros E b. split; [reflexivity|].
  eexists. repeat split; reflexivity.
Qed.

(** ** Saving SEO data *)

Lemma field_loop_runs :
  forall E auth postId entries l,
    exists l', SaveSeo.field_loop E auth postId entries l = (Ok tt, l').
Proof.
  intros E auth postId entries.
  induction entries as [|[key value] rest IH]; intros l.
  - eexists. reflexivity.
  - cbn [SaveSeo.field_loop]. unfold bind at 1. unfold try_catch, bind, fetch, ret.
    match goal with
    | |- context [remote E KWrite l ?rq] => destruct (remote E KWrite l rq)
    end; apply IH.
Qed.

(** C10, as the code has it.  With credentials and a [postId], when the
    title write (made only if an SEO title is given) and the combined meta
    write are answered and the answer to the combined write is JSON, the
    handler answers 200 with [success: true] and the data echoed, whatever
    the status of these answers and whatever happens to the per-field
    writes. *)
Theorem save_seo_reports_success :
  forall (E : Env) (b : SaveSeo.body) (id : Z) r,
    SaveSeo.WP_USERNAME E <> [] ->
    SaveSeo.WP_PASSWORD E <> [] ->
    SaveSeo.postId b = Some id -> id <> 0%Z ->
    let auth := createAuthHeader (SaveSeo.WP_USERNAME E) (SaveSeo.WP_PASSWORD E) in
    let title_rq :=
      SaveSeo.post_request auth id
        (JObj [ (js "yoast_head",
                 JStr (js "<title>" ++ or_empty (SaveSeo.seoTitle b)
                          ++ js "</title>")) ]) in
    let meta_rq :=
      SaveSeo.post_request auth id
        (JObj [ (js "meta", JObj (SaveSeo.metaFields b)) ]) in
    let before := if some_str (SaveSeo.seoTitle b) then [title_rq] else [] in
    (some_str (SaveSeo.seoTitle b) = true -> remote E KWrite [] title_rq <> None) ->
    remote E KWrite before meta_rq = Some r ->
    decoded r = Some tt ->
    result_of (SaveSeo.POST E b)
    = Ok (NextResponse_json
            (JObj
               [ (js "success", JBool true);
                 (js "data",
                  JObj [ (js "postId", JInt id);
                         (js "seoTitle", of_opt JStr (SaveSeo.seoTitle b));
                         (js "seoDescription", of_opt JStr (SaveSeo.seoDescription b));
                         (js "keyword", of_opt JStr (SaveSeo.keyword b)) ]) ])
            200).
Proof.
  intros E b id r Hu Hp Hid Hnz auth title_rq meta_rq before Htitle Hmeta Hd.
  unfold result_of, run, SaveSeo.POST, try_catch.
  destruct (SaveSeo.WP_USERNAME E) as [|u0 u] eqn:Eu; [congruence|].
  destruct (SaveSeo.WP_PASSWORD E) as [|p0 p] eqn:Ep; [congruence|].
  cbn [orb]. rewrite Hid. cbn [some_num of_opt].
  apply Z.eqb_neq in Hnz. rewrite Hnz. cbn [negb].
  fold auth. fold title_rq. fold meta_rq.
  assert (Hfirst :
            (if some_str (SaveSeo.seoTitle b)
             then bind (fetch E KWrite title_rq) (fun _ => ret tt)
             else ret tt) [] = (Ok tt, before)).
  { subst before. destruct (some_str (SaveSeo.seoTitle b)); [|reflexivity].
    unfold bind, fetch, ret.
    destruct (remote E KWrite [] title_rq) eqn:Ht; [reflexivity|].
    exfalso. apply Htitle; reflexivity. }
  unfold bind at 1. rewrite Hfirst.
  unfold bind at 1. unfold fetch at 1. rewrite Hmeta.
  unfold bind at 1. unfold decode at 1. cbn in *. rewrite Hd. unfold ret at 1.
  unfold bind at 1.
  assert (Hloop : exists l',
             (if negb (ok r)
              then SaveSeo.field_loop E auth id (SaveSeo.metaFields b)
              else ret tt) (before ++ [meta_rq]) = (Ok tt, l')).
  { destruct (ok r); cbn [negb].
    - eexists. reflexivity.
    - apply field_loop_runs. }
  destruct Hloop as [l' Hloop]. rewrite Hloop. reflexivity.
Qed.

Lemma save_seo_reports_success_witness :
  let E := sample_env (Some (js "editor")) None None remote_forbidden in
  let b := SaveSeo.mkBody (Some 7%Z) (Some (js "SEO title")) (Some (js "About"))
             (Some (js "robots")) None in
  exists rep,
    result_of (SaveSeo.POST E b) = Ok rep
    /\ reply_status rep = 200%Z
    /\ field "success" (reply_body rep) = Some (JBool true)
    /\ Forall (fun rq => remote E KWrite [] rq
                         = Some (mkResponse false 403 no_header (Some tt)))
              (calls_of (SaveSeo.POST E b))
    /\ length (calls_of (SaveSeo.POST E b)) = 5%nat.
Proof.
  intros E b. eexists. split.
  - apply (save_seo_reports_success E b 7
             (mkResponse false 403 no_header (Some tt))).
    + vm_compute. discriminate.
    + vm_compute. discriminate.
    + reflexivity.
    + discriminate.
    + intros _. vm_compute. discriminate.
    + reflexivity.
    + reflexivity.
  - split; [reflexivity|]. split; [reflexivity|]. split; [|reflexivity].
    vm_compute. repeat constructor.
Defined.

(** C10 as stated fails: when the combined write is answered by a gateway
    error page, which is not JSON, the handler answers 500 with
    [success: false]. *)
Lemma save_seo_fails_on_unreadable_answer :
  let E := sample_env (Some (js "editor")) None None remote_bad_gateway in
  let b := SaveSeo.mkBody (Some 7%Z) (Some (js "SEO title")) (Some (js "About"))
             (Some (js "robots")) None in
  exists rep,
    result_of (SaveSeo.POST E b) = Ok rep
    /\ reply_status rep = 500%Z
    /\ field "success" (reply_body rep) = Some (JBool false)
    /\ field "error" (reply_body rep) = Some (JStr (js "Failed to save SEO data")).
Proof.
  intros E b. eexists. repeat split; reflexivity.
Qed.

(** ** Code fences around the answer *)

Module FenceFacts.

Lemma takeWhile_dropWhile :
  forall p s, takeWhile p s ++ dropWhile p s = s.
Proof.
  induction s as [|c s IH]; [reflexivity|].
  cbn. destruct (p c); cbn; [f_equal; exact IH | reflexivity].
Qed.


Lemma dropWhile_all :
  forall p s, forallb p s = true -> dropWhile p s = [].
Proof.
  induction s as [|c s IH]; [reflexivity|]. cbn. intros H.
  apply andb_true_iff in H as [Hc Hs]. rewrite Hc. exact (IH Hs).
Qed.


Lemma dropWhile_app :
  forall p x y,
    dropWhile p (x ++ y)
    = if forallb p x then dropWhile p y else dropWhile p x ++ y.
Proof.
  induction x as [|c x IH]; intros y; [reflexivity|].
  cbn. destruct (p c); cbn; [|reflexivity]. apply IH.
Qed.

Lemma dropWhile_head :
  forall p s c t, dropWhile p s = c :: t -> p c = false.
Proof.
  induction s as [|d s IH]; intros c t H; [discriminate|].
  cbn in H. destruct (p d) eqn:Hd; [eauto|].
  injection H as <- _. exact Hd.
Qed.

Lemma dropWhile_not_all :
  forall p s, forallb p s = false -> dropWhile p s <> [].
Proof.
  induction s as [|c s IH]; [discriminate|]. cbn. intros H.
  destruct (p c); [apply IH; exact H | discriminate].
Qed.


Lemma forallb_rev :
  forall (p : N -> bool) l, forallb p (rev l) = forallb p l.
Proof.
  induction l as [|c l IH]; [reflexivity|].
  cbn [rev forallb]. rewrite forallb_app, IH. cbn [forallb].
  rewrite andb_true_r. apply andb_comm.
Qed.




Lemma trim_space :
  forall w, forallb is_space w = true -> trim w = [].
Proof.
  intros w H. unfold trim, trimStart. rewrite (dropWhile_all _ _ H).
  reflexivity.
Qed.






















(** *** A payload that opens with white space and the fence is not parsed *)




Lemma trimEnd_head :
  forall c x, is_space c = false -> exists y, trimEnd (c :: x) = c :: y.
Proof.
  intros c x Hc. unfold trimEnd. cbn [rev]. rewrite dropWhile_app.
  destruct (forallb is_space (rev x)).
  - cbn [dropWhile]. rewrite Hc. exists []. reflexivity.
  - rewrite rev_app_distr. cbn [rev app]. eexists. reflexivity.
Qed.



End FenceFacts.




(* ================================================================= *)
(** * Further properties *)

(** ** Publishing: credentials, requests, outcome *)



Lemma tag_loop_prefix :
  forall E names ids l,
    exists o n,
      PublishPost.tag_loop E names ids l
      = (o, l ++ firstn n (map (tag_request E) names)).
Proof.
  intros E names. induction names as [|t names IH]; intros ids l.
  - exists (Ok ids), 0%nat. cbn. unfold ret. rewrite app_nil_r. reflexivity.
  - cbn [PublishPost.tag_loop map]. unfold bind at 1. unfold fetch.
    fold (tag_request E t).
    assert (Hnext : forall ids',
               exists o n,
                 PublishPost.tag_loop E names ids' (l ++ [tag_request E t])
                 = (o, l ++ firstn n (tag_request E t :: map (tag_request E) names))).
    { intros ids'. destruct (IH ids' (l ++ [tag_request E t])) as (o & n & H).
      exists o, (S n). rewrite H, <- app_assoc. reflexivity. }
    destruct (remote E KLookup l (tag_request E t)) as [r|].
    + destruct (ok r).
      * unfold bind, decode. destruct (decoded r) as [[|id tl]|]; cbn.
        -- apply Hnext.
        -- apply Hnext.
        -- exists (Throw SyntaxErr), 1%nat. reflexivity.
      * apply Hnext.
    + exists (Throw NetErr), 1%nat. reflexivity.
Qed.

Lemma getTagIdsByNames_prefix :
  forall E names l,
    exists ids n,
      PublishPost.getTagIdsByNames E names l
      = (Ok ids, l ++ firstn n (map (tag_request E) names)).
Proof.
  intros E names l. unfold PublishPost.getTagIdsByNames, try_catch.
  destruct (tag_loop_prefix E names [] l) as (o & n & H). rewrite H.
  destruct o; unfold ret; eauto.
Qed.

Lemma tag_loop_stateless :
  forall E,
    (forall l rq, remote E KLookup l rq = remote E KLookup [] rq) ->
    forall names ids l,
      match tag_contributions E names with
      | Some found =>
          PublishPost.tag_loop E names ids l
          = (Ok (ids ++ found), l ++ map (tag_request E) names)
      | None =>
          match fst (PublishPost.tag_loop E names ids l) with
          | Throw _ => True
          | Ok _ => False
          end
      end.
Proof.
  intros E Hst names. induction names as [|t names IH]; intros ids l.
  - cbn. unfold ret. rewrite !app_nil_r. reflexivity.
  - assert (Hstep :
              PublishPost.tag_loop E (t :: names) ids l
              = match remote E KLookup [] (tag_request E t) with
                | None => (Throw NetErr, l ++ [tag_request E t])
                | Some r =>
                    if ok r then
                      match decoded r with
                      | None => (Throw SyntaxErr, l ++ [tag_request E t])
                      | Some [] =>
                          PublishPost.tag_loop E names ids (l ++ [tag_request E t])
                      | Some (id :: _) =>
                          PublishPost.tag_loop E names (ids ++ [id])
                                               (l ++ [tag_request E t])
                      end
                    else PublishPost.tag_loop E names ids (l ++ [tag_request E t])
                end).
    { cbn [PublishPost.tag_loop]. unfold bind, fetch, decode, throw, ret.
      fold (tag_request E t). rewrite (Hst l).
      destruct (remote E KLookup [] (tag_request E t)) as [r|]; [|reflexivity].
      destruct (ok r); [|reflexivity].
      destruct (decoded r) as [[|id tl]|]; reflexivity. }
    rewrite Hstep. clear Hstep.
    cbn [tag_contributions map]. unfold tag_contribution.
    destruct (remote E KLookup [] (tag_request E t)) as [r|]; [|exact I].
    destruct (ok r).
    + destruct (decoded r) as [[|id tl]|]; [| |exact I].
      * specialize (IH ids (l ++ [tag_request E t])).
        destruct (tag_contributions E names); [|exact IH].
        rewrite IH, <- app_assoc. reflexivity.
      * specialize (IH (ids ++ [id]) (l ++ [tag_request E t])).
        destruct (tag_contributions E names); [|exact IH].
        rewrite IH, <- !app_assoc. reflexivity.
    + specialize (IH ids (l ++ [tag_request E t])).
      destruct (tag_contributions E names); [|exact IH].
      rewrite IH, <- app_assoc. reflexivity.
Qed.

(** X2.  When the tag look-ups do not depend on the requests made before,
    [getTagIdsByNames] is all or nothing.  If every look-up is answered
    readably, it makes one request per tag, in order, and returns, in order,
    the first identifier of each tag that matched; a tag that is refused or
    matches nothing is left out.  If one look-up cannot be reached, or is
    accepted with a body that cannot be read, the result is empty, whatever
    the tags before it had matched. *)
Theorem getTagIdsByNames_all_or_nothing :
  forall (E : Env) (tagNames : list jsstring) (l : log),
    (forall l rq, remote E KLookup l rq = remote E KLookup [] rq) ->
    (forall found,
        tag_contributions E tagNames = Some found ->
        PublishPost.getTagIdsByNames E tagNames l
        = (Ok found, l ++ map (tag_request E) tagNames)
        /\ (length found <= length tagNames)%nat)
    /\ (tag_contributions E tagNames = None ->
        fst (PublishPost.getTagIdsByNames E tagNames l) = Ok []).
Proof.
  intros E names l Hst.
  pose proof (tag_loop_stateless E Hst names [] l) as H.
  unfold PublishPost.getTagIdsByNames, try_catch. split.
  - intros found Hf. rewrite Hf in H. rewrite H. split; [reflexivity|].
    clear H. revert found Hf. induction names as [|t names IH]; intros found Hf.
    + injection Hf as <-. apply Nat.le_refl.
    + cbn [tag_contributions] in Hf.
      destruct (tag_contribution E t) as [a|] eqn:Ha; [|discriminate].
      destruct (tag_contributions E names) as [rest|]; [|discriminate].
      injection Hf as <-. rewrite length_app. specialize (IH rest eq_refl).
      assert (length a <= 1)%nat.
      { unfold tag_contribution in Ha.
        destruct (remote E KLookup [] (tag_request E t)) as [r|]; [|discriminate].
        destruct (ok r); [|injection Ha as <-; cbn; lia].
        destruct (decoded r) as [[|id tl]|]; try discriminate;
          injection Ha as <-; cbn; lia. }
      cbn [length]. lia.
  - intros Hn. rewrite Hn in H.
    destruct (PublishPost.tag_loop E names [] l) as [[ids|e] l'];
      [contradiction | reflexivity].
Qed.

Lemma getTagIdsByNames_all_or_nothing_witness :
  let E := sample_env (Some (js "u")) None None remote_wordpress in
  PublishPost.getTagIdsByNames E [js "Deep Learning"; js "AI"] []
  = (Ok [], [tag_request E (js "Deep Learning"); tag_request E (js "AI")]).
Proof.
  intros E.
  destruct (getTagIdsByNames_all_or_nothing E [js "Deep Learning"; js "AI"] [])
    as [H _].
  - intros l rq. reflexivity.
  - apply (H []). reflexivity.
Defined.

Lemma updateWordPressPost_accepted :
  forall E postId title content fm au cat tg st sT sD kw sc l,
    let rq := PublishPost.update_request E postId
                (PublishPost.updateData title content fm au cat tg st sT sD kw sc) in
    PublishPost.updateWordPressPost E postId title content fm au cat tg st
      sT sD kw sc l
    = (Ok (accepted (remote E KWrite l rq)), l ++ [rq]).
Proof.
  intros. unfold PublishPost.updateWordPressPost, accepted. unfold_M. fold rq.
  destruct (remote E KWrite l rq) as [r|]; [|reflexivity].
  cbn [payload] in *. destruct (ok r); cbn [negb andb]; [|reflexivity].
  destruct (decoded r); reflexivity.
Qed.

(** What the media step requests. *)
Lemma uploadImageToWordPress_calls :
  forall E imageUrl filename l,
    exists res extra,
      PublishPost.uploadImageToWordPress E imageUrl filename l
      = (Ok res, l ++ extra)
      /\ (extra = [PublishPost.image_request imageUrl]
          \/ exists blob,
              extra = [PublishPost.image_request imageUrl;
                       PublishPost.upload_request E filename blob]).
Proof.
  intros. unfold PublishPost.uploadImageToWordPress. unfold_M.
  destruct (remote E KImage l (PublishPost.image_request imageUrl)) as [ri|];
    [|eauto].
  cbn [payload] in *.
  destruct (ok ri); cbn [negb]; [|eauto].
  destruct (decoded ri) as [blob|]; [|eauto].
  rewrite <- app_assoc. cbn [app].
  destruct (remote E KMedia (l ++ [PublishPost.image_request imageUrl])
              (PublishPost.upload_request E filename blob)) as [ru|];
    [|eauto 6].
  cbn [payload] in *.
  destruct (ok ru); cbn [negb]; [|eauto 6].
  destruct (decoded ru); eauto 6.
Qed.

(** When the media step gives a media file. *)
Lemma uploadImageToWordPress_some :
  forall E imageUrl filename l l' m,
    PublishPost.uploadImageToWordPress E imageUrl filename l = (Ok (Some m), l') ->
    exists ri blob ru,
      remote E KImage l (PublishPost.image_request imageUrl) = Some ri
      /\ ok ri = true /\ decoded ri = Some blob
      /\ remote E KMedia (l ++ [PublishPost.image_request imageUrl])
                (PublishPost.upload_request E filename blob) = Some ru
      /\ ok ru = true /\ decoded ru = Some m
      /\ l' = l ++ [PublishPost.image_request imageUrl;
                    PublishPost.upload_request E filename blob].
Proof.
  intros E imageUrl filename l l' m. unfold PublishPost.uploadImageToWordPress.
  unfold_M.
  destruct (remote E KImage l (PublishPost.image_request imageUrl)) as [ri|] eqn:Hi;
    [|discriminate].
  cbn [payload] in *.
  destruct (ok ri) eqn:Hoki; cbn [negb]; [|discriminate].
  destruct (decoded ri) as [blob|] eqn:Hdi; [|discriminate].
  destruct (remote E KMedia (l ++ [PublishPost.image_request imageUrl])
              (PublishPost.upload_request E filename blob)) as [ru|] eqn:Hu;
    [|discriminate].
  cbn [payload] in *.
  destruct (ok ru) eqn:Hoku; cbn [negb]; [|discriminate].
  destruct (decoded ru) as [m'|] eqn:Hdu; [|discriminate].
  intros H. injection H as <- <-.
  exists ri, blob, ru. rewrite <- app_assoc. auto 10.
Qed.

(** One run of the publishing handler, step by step. *)
Lemma publish_runs_full :
  forall (E : Env) (b : PublishPost.body),
    PublishPost.WP_USERNAME E <> [] ->
    PublishPost.WP_PASSWORD E <> [] ->
    exists r : publish_run E b,
      PublishPost.POST E b []
      = (Ok (if run_done r
             then publish_success b (run_upload r) (run_author r)
                    (run_category r) (run_tags r)
             else publish_failure),
         run_before r ++ [run_update r])
      /\ (if PublishPost.image_given (PublishPost.suggestedImage b)
          then PublishPost.uploadImageToWordPress E
                 (or_empty (PublishPost.suggestedImage b))
                 (PublishPost.filename_for E (PublishPost.postId b))
          else ret None) [] = (Ok (run_upload r), run_up r)
      /\ run_cat r
         = (if some_str (PublishPost.category b)
            then [PublishPost.lookup_request E
                    (WpCategories (slugify (or_empty (PublishPost.category b))))]
            else [])
      /\ (exists n,
             run_tag r
             = firstn n (map (tag_request E)
                           (match PublishPost.tags b with
                            | Some l => l
                            | None => []
                            end)))
      /\ run_done r = accepted (remote E KWrite (run_before r) (run_update r))
      /\ PublishPost.getUserIdByName E (PublishPost.detectedAuthorId b) (run_up r)
         = (Ok (run_author r),
            run_up r ++ [PublishPost.lookup_request E
                           (WpUsers (PublishPost.detectedAuthorId b))])
      /\ (if some_str (PublishPost.category b)
          then bind (PublishPost.getCategoryIdByName E
                       (or_empty (PublishPost.category b)))
                    (fun c => ret (Some c))
          else ret None)
           (run_up r ++ [PublishPost.lookup_request E
                           (WpUsers (PublishPost.detectedAuthorId b))])
         = (Ok (run_category r),
            (run_up r ++ [PublishPost.lookup_request E
                            (WpUsers (PublishPost.detectedAuthorId b))])
              ++ run_cat r)
      /\ (if some_list (PublishPost.tags b)
          then PublishPost.getTagIdsByNames E
                 (match PublishPost.tags b with Some l => l | None => [] end)
          else ret [])
           ((run_up r ++ [PublishPost.lookup_request E
                            (WpUsers (PublishPost.detectedAuthorId b))])
              ++ run_cat r)
         = (Ok (run_tags r),
            ((run_up r ++ [PublishPost.lookup_request E
                             (WpUsers (PublishPost.detectedAuthorId b))])
               ++ run_cat r) ++ run_tag r).
Proof.
  intros E b Hu Hp.
  remember (PublishPost.POST E b []) as res eqn:Hres.
  unfold PublishPost.POST, try_catch in Hres.
  destruct (PublishPost.WP_USERNAME E) as [|u0 u] eqn:Eu; [congruence|].
  destruct (PublishPost.WP_PASSWORD E) as [|p0 p] eqn:Ep; [congruence|].
  cbn [orb] in Hres.
  (* media *)
  assert (Hup : exists uploadResult up,
             (if PublishPost.image_given (PublishPost.suggestedImage b)
              then PublishPost.uploadImageToWordPress E
                     (or_empty (PublishPost.suggestedImage b))
                     (PublishPost.filename_for E (PublishPost.postId b))
              else ret None) [] = (Ok uploadResult, up)).
  { destruct (PublishPost.image_given (PublishPost.suggestedImage b)).
    - destruct (uploadImageToWordPress_calls E
                  (or_empty (PublishPost.suggestedImage b))
                  (PublishPost.filename_for E (PublishPost.postId b)) [])
        as (res0 & extra & H & _). eauto.
    - exists None, []. reflexivity. }
  destruct Hup as (uploadResult & up & Hup).
  unfold bind at 1 in Hres. rewrite Hup in Hres.
  (* author *)
  unfold bind at 1 in Hres.
  destruct (getUserIdByName_runs E (PublishPost.detectedAuthorId b) up)
    as [authorId Ha]. rewrite Ha in Hres.
  set (l1 := up ++ [PublishPost.lookup_request E
                      (WpUsers (PublishPost.detectedAuthorId b))]) in *.
  (* category *)
  assert (Hc : exists categoryId,
             (if some_str (PublishPost.category b)
              then bind (PublishPost.getCategoryIdByName E
                           (or_empty (PublishPost.category b)))
                        (fun c => ret (Some c))
              else ret None) l1
             = (Ok categoryId,
                l1 ++ (if some_str (PublishPost.category b)
                       then [PublishPost.lookup_request E
                               (WpCategories
                                  (slugify (or_empty (PublishPost.category b))))]
                       else []))).
  { destruct (some_str (PublishPost.category b)).
    - destruct (getCategoryIdByName_runs E (or_empty (PublishPost.category b)) l1)
        as [id Hid].
      unfold bind. rewrite Hid. unfold ret. eauto.
    - exists None. unfold ret. rewrite app_nil_r. reflexivity. }
  destruct Hc as (categoryId & Hc).
  unfold bind at 1 in Hres. rewrite Hc in Hres.
  set (midc := if some_str (PublishPost.category b)
               then [PublishPost.lookup_request E
                       (WpCategories (slugify (or_empty (PublishPost.category b))))]
               else []) in *.
  (* tags *)
  assert (Ht : exists tagIds n,
             (if some_list (PublishPost.tags b)
              then PublishPost.getTagIdsByNames E
                     (match PublishPost.tags b with Some l => l | None => [] end)
              else ret []) (l1 ++ midc)
             = (Ok tagIds,
                (l1 ++ midc)
                  ++ firstn n (map (tag_request E)
                                 (match PublishPost.tags b with
                                  | Some l => l
                                  | None => []
                                  end)))).
  { destruct (some_list (PublishPost.tags b)).
    - apply getTagIdsByNames_prefix.
    - exists [], 0%nat. unfold ret. cbn [firstn]. rewrite app_nil_r. reflexivity. }
  destruct Ht as (tagIds & n & Ht).
  unfold bind at 1 in Hres. rewrite Ht in Hres.
  (* update *)
  unfold bind at 1 in Hres.
  rewrite updateWordPressPost_accepted in Hres.
  exists (mkPublishRun E b uploadResult up authorId categoryId midc tagIds
            (firstn n (map (tag_request E)
                         (match PublishPost.tags b with
                          | Some l => l
                          | None => []
                          end)))
            (accepted
               (remote E KWrite
                  ((l1 ++ midc)
                     ++ firstn n (map (tag_request E)
                                    (match PublishPost.tags b with
                                     | Some l => l
                                     | None => []
                                     end)))
                  (PublishPost.update_request E (PublishPost.postId b)
                     (publish_data b uploadResult authorId categoryId tagIds))))).
  unfold run_before, run_update. cbn [run_upload run_up run_author run_category
                                        run_cat run_tags run_tag run_done].
  assert (Hlog : (l1 ++ midc)
                   ++ firstn n (map (tag_request E)
                                  (match PublishPost.tags b with
                                   | Some l => l
                                   | None => []
                                   end))
                 = up ++ [PublishPost.lookup_request E
                            (WpUsers (PublishPost.detectedAuthorId b))]
                      ++ midc
                      ++ firstn n (map (tag_request E)
                                     (match PublishPost.tags b with
                                      | Some l => l
                                      | None => []
                                      end))).
  { unfold l1. rewrite <- !app_assoc. reflexivity. }
  rewrite <- Hlog.
  split; [|split; [exact Hup | split; [reflexivity | split; [eauto |
    split; [reflexivity | split; [exact Ha | split; [exact Hc | exact Ht]]]]]]].
  subst res. unfold publish_data.
  destruct (accepted _); reflexivity.
Qed.

Lemma publish_runs :
  forall (E : Env) (b : PublishPost.body),
    PublishPost.WP_USERNAME E <> [] ->
    PublishPost.WP_PASSWORD E <> [] ->
    exists r : publish_run E b,
      PublishPost.POST E b []
      = (Ok (if run_done r
             then publish_success b (run_upload r) (run_author r)
                    (run_category r) (run_tags r)
             else publish_failure),
         run_before r ++ [run_update r])
      /\ (if PublishPost.image_given (PublishPost.suggestedImage b)
          then PublishPost.uploadImageToWordPress E
                 (or_empty (PublishPost.suggestedImage b))
                 (PublishPost.filename_for E (PublishPost.postId b))
          else ret None) [] = (Ok (run_upload r), run_up r)
      /\ run_cat r
         = (if some_str (PublishPost.category b)
            then [PublishPost.lookup_request E
                    (WpCategories (slugify (or_empty (PublishPost.category b))))]
            else [])
      /\ (exists n,
             run_tag r
             = firstn n (map (tag_request E)
                           (match PublishPost.tags b with
                            | Some l => l
                            | None => []
                            end)))
      /\ run_done r = accepted (remote E KWrite (run_before r) (run_update r)).
Proof.
  intros E b Hu Hp.
  destruct (publish_runs_full E b Hu Hp) as (r & H1 & H2 & H3 & H4 & H5 & _).
  exists r. auto.
Qed.

Lemma lookup_kept_absent :
  forall (k : jsstring) (o : list (jsstring * jsval)),
    forallb (fun e => negb (str_eqb k (fst e))
                      || match snd e with JUndefined => true | _ => false end) o
    = true ->
    lookup k (flat_map (kept stringify) o) = None.
Proof.
  intros k o H. induction o as [|[k' v] o IH]; [reflexivity|].
  cbn [forallb fst snd] in H. apply andb_true_iff in H as [He Ho].
  cbn [flat_map]. rewrite lookup_app, (IH Ho).
  destruct v; cbn [kept lookup]; try reflexivity;
    cbn [orb] in He; rewrite orb_false_r in He;
    apply negb_true_iff in He; rewrite He; reflexivity.
Qed.

(** The property [k] of an object literal, when it holds a value and no
    later property of that name does. *)
Lemma stringify_field :
  forall (k : string) (pre post : list (jsstring * jsval)) (v : jsval),
    v <> JUndefined ->
    forallb (fun e => negb (str_eqb (js k) (fst e))
                      || match snd e with JUndefined => true | _ => false end) post
    = true ->
    field k (stringify (JObj (pre ++ (js k, v) :: post))) = Some (stringify v).
Proof.
  intros k pre post v Hv Hpost. cbn [stringify field].
  rewrite flat_map_app, lookup_app. cbn [flat_map].
  rewrite lookup_app, (lookup_kept_absent _ _ Hpost).
  destruct v; try congruence; cbn [kept lookup]; rewrite str_eqb_refl; reflexivity.
Qed.

Lemma Forall_firstn :
  forall (A : Type) (P : A -> Prop) n (l : list A),
    Forall P l -> Forall P (firstn n l).
Proof.
  intros A P n. induction n as [|n IH]; intros l H; [constructor|].
  destruct H; cbn; constructor; auto.
Qed.

Lemma filter_firstn_none :
  forall (A : Type) (f : A -> bool) n (l : list A),
    filter f l = [] -> filter f (firstn n l) = [].
Proof.
  intros A f n. induction n as [|n IH]; intros l H; [reflexivity|].
  destruct l as [|x l]; [reflexivity|]. cbn in *.
  destruct (f x); [discriminate | auto].
Qed.

(** X3.  With credentials, every request the publishing handler makes is
    either a read (GET without body) of users, categories, tags or of the
    image, the upload of a media file, or the PUT of the post it was asked to
    publish; there is exactly one PUT and it is the last request.  No user,
    category or tag is ever created, no other post is written. *)
Theorem publish_requests_are_reads_and_one_update :
  forall (E : Env) (b : PublishPost.body),
    PublishPost.WP_USERNAME E <> [] ->
    PublishPost.WP_PASSWORD E <> [] ->
    Forall (publish_request_ok (PublishPost.postId b))
           (calls_of (PublishPost.POST E b))
    /\ exists before update,
        calls_of (PublishPost.POST E b) = before ++ [update]
        /\ target update = WpPost (PublishPost.postId b)
        /\ method update = PUT_
        /\ filter is_update before = [].
Proof.
  intros E b Hu Hp.
  destruct (publish_runs E b Hu Hp) as (r & Hrun & Hup & Hcat & (n & Htag) & _).
  unfold calls_of, run. rewrite Hrun. cbn [snd].
  assert (Hshape : run_up r = []
                   \/ run_up r = [PublishPost.image_request
                                    (or_empty (PublishPost.suggestedImage b))]
                   \/ exists blob,
                       run_up r
                       = [PublishPost.image_request
                            (or_empty (PublishPost.suggestedImage b));
                          PublishPost.upload_request E
                            (PublishPost.filename_for E (PublishPost.postId b))
                            blob]).
  { destruct (PublishPost.image_given (PublishPost.suggestedImage b)).
    - destruct (uploadImageToWordPress_calls E
                  (or_empty (PublishPost.suggestedImage b))
                  (PublishPost.filename_for E (PublishPost.postId b)) [])
        as (res & extra & H & Hx).
      rewrite H in Hup. injection Hup as _ <-. cbn [app]. right. exact Hx.
    - injection Hup as _ <-. left. reflexivity. }
  assert (Htags_ok : Forall (publish_request_ok (PublishPost.postId b)) (run_tag r)
                     /\ filter is_update (run_tag r) = []).
  { rewrite Htag. split.
    - apply Forall_firstn. apply Forall_forall. intros rq Hin.
      apply in_map_iff in Hin as (t & <- & _). split; reflexivity.
    - apply filter_firstn_none. clear.
      generalize (match PublishPost.tags b with Some l => l | None => [] end).
      intros names. induction names as [|t names IH]; [reflexivity | exact IH]. }
  destruct Htags_ok as [Htok Htnone].
  assert (Hcat_ok : Forall (publish_request_ok (PublishPost.postId b)) (run_cat r)
                    /\ filter is_update (run_cat r) = []).
  { rewrite Hcat. destruct (some_str (PublishPost.category b)).
    - split; [repeat constructor | reflexivity].
    - split; [constructor | reflexivity]. }
  destruct Hcat_ok as [Hcok Hcnone].
  assert (Hup_ok : Forall (publish_request_ok (PublishPost.postId b)) (run_up r)
                   /\ filter is_update (run_up r) = []).
  { destruct Hshape as [H|[H|[blob H]]]; rewrite H.
    - split; [constructor | reflexivity].
    - split; [repeat constructor | reflexivity].
    - split; [repeat constructor | reflexivity]. }
  destruct Hup_ok as [Huok Hunone].
  split.
  - unfold run_before. rewrite !Forall_app. repeat split; try assumption.
    + repeat constructor.
    + repeat constructor.
  - exists (run_before r), (run_update r). split; [reflexivity|].
    split; [reflexivity|]. split; [reflexivity|].
    unfold run_before. rewrite !filter_app, Hunone, Hcnone, Htnone. reflexivity.
Qed.

Lemma publish_requests_are_reads_and_one_update_witness :
  let E := sample_env (Some (js "editor")) None None remote_wordpress in
  let b := PublishPost.mkBody 7 (js "Title") (js "<p>Body</p>")
             (Some (js "https://example.org/a.jpg")) (js "jmason")
             None None None None (Some (js "News")) (Some [js "a"; js "b"]) false in
  Forall (publish_request_ok 7) (calls_of (PublishPost.POST E b))
  /\ length (calls_of (PublishPost.POST E b)) = 6%nat.
Proof.
  intros E b. split; [|reflexivity].
  apply (publish_requests_are_reads_and_one_update E b).
  - vm_compute. discriminate.
  - vm_compute. discriminate.
Defined.

(** X4.  With credentials, the answer of the publishing handler is decided
    by the answer to its last request, the PUT of the post, and by nothing
    else: 200 with [success: true] and the identifier of the post when that
    answer is a success whose body can be read, 500 "Failed to publish post"
    otherwise - whatever the media step and the look-ups did before. *)
Theorem publish_outcome_is_update_outcome :
  forall (E : Env) (b : PublishPost.body),
    PublishPost.WP_USERNAME E <> [] ->
    PublishPost.WP_PASSWORD E <> [] ->
    exists before update rep,
      PublishPost.POST E b [] = (Ok rep, before ++ [update])
      /\ target update = WpPost (PublishPost.postId b)
      /\ (accepted (remote E KWrite before update) = true ->
          reply_status rep = 200%Z
          /\ field "success" (reply_body rep) = Some (JBool true)
          /\ exists d, field "data" (reply_body rep) = Some d
                       /\ field "postId" d = Some (JInt (PublishPost.postId b)))
      /\ (accepted (remote E KWrite before update) = false ->
          rep = publish_failure
          /\ reply_status rep = 500%Z
          /\ field "success" (reply_body rep) = Some (JBool false)).
Proof.
  intros E b Hu Hp.
  destruct (publish_runs E b Hu Hp) as (r & Hrun & _ & _ & _ & Hdone).
  exists (run_before r), (run_update r). eexists.
  split; [exact Hrun|]. split; [reflexivity|].
  rewrite <- Hdone. split; intros Hd; rewrite Hd.
  - split; [reflexivity|]. split; [reflexivity|].
    eexists. split; [reflexivity|].
    apply (stringify_field "postId" []); [discriminate | reflexivity].
  - repeat split.
Qed.

Lemma publish_outcome_is_update_outcome_witness :
  let E := sample_env (Some (js "editor")) None None remote_wordpress in
  let b := PublishPost.mkBody 7 (js "Title") (js "<p>Body</p>")
             (Some (js "https://example.org/a.jpg")) (js "jmason")
             None None None None (Some (js "News")) (Some [js "a"; js "b"]) false in
  exists rep,
    result_of (PublishPost.POST E b) = Ok rep /\ reply_status rep = 200%Z.
Proof.
  intros E b.
  destruct (publish_outcome_is_update_outcome E b)
    as (before & update & rep & Hrun & _ & Hok & _).
  - vm_compute. discriminate.
  - vm_compute. discriminate.
  - exists rep. unfold result_of, run. rewrite Hrun. split; [reflexivity|].
    apply Hok. reflexivity.
Defined.

Lemma updateData_fields :
  forall title content fm au cat tg st sT sD kw sc,
    let sent := stringify (PublishPost.updateData title content fm au cat tg st
                             sT sD kw sc) in
    field "title" sent = Some (JStr title)
    /\ field "content" sent = Some (JStr content)
    /\ field "status" sent = Some (JStr st)
    /\ (forall m, fm = Some m -> field "featured_media" sent = Some (JInt m)).
Proof.
  intros. subst sent. unfold PublishPost.updateData.
  destruct (some_num au), (some_num cat), (some_list tg),
    (some_str sT || some_str sD || some_list kw
     || match sc with Some _ => true | None => false end);
    cbn [app];
    (split; [apply (stringify_field "title" []); [discriminate | reflexivity]|]);
    (split; [apply (stringify_field "content" [(_, _)]);
             [discriminate | reflexivity]|]);
    (split; [apply (stringify_field "status" [(_, _); (_, _)]);
             [discriminate | reflexivity]|]);
    (intros m ->;
     apply (stringify_field "featured_media" [(_, _); (_, _); (_, _)]);
     [discriminate | reflexivity]).
Qed.

(** X5.  With credentials, the PUT that ends the publishing run carries the
    optimised title and content, and the status [publish] when the caller
    asked to publish, [draft] otherwise. *)
Theorem publish_update_carries_status :
  forall (E : Env) (b : PublishPost.body),
    PublishPost.WP_USERNAME E <> [] ->
    PublishPost.WP_PASSWORD E <> [] ->
    exists before data,
      calls_of (PublishPost.POST E b)
      = before ++ [PublishPost.update_request E (PublishPost.postId b) data]
      /\ field "status" (stringify data)
         = Some (JStr (if PublishPost.publish b then js "publish" else js "draft"))
      /\ field "title" (stringify data) = Some (JStr (PublishPost.optimizedTitle b))
      /\ field "content" (stringify data)
         = Some (JStr (PublishPost.optimizedContent b)).
Proof.
  intros E b Hu Hp.
  destruct (publish_runs E b Hu Hp) as (r & Hrun & _).
  exists (run_before r).
  exists (publish_data b (run_upload r) (run_author r) (run_category r) (run_tags r)).
  unfold calls_of, run. rewrite Hrun. split; [reflexivity|].
  unfold publish_data.
  match goal with
  | |- context [PublishPost.updateData ?t ?c ?fm ?au ?cat ?tg ?st ?sT ?sD ?kw ?sc] =>
      destruct (updateData_fields t c fm au cat tg st sT sD kw sc)
        as (Ht & Hc & Hs & _)
  end.
  auto.
Qed.

Lemma publish_update_carries_status_witness :
  let E := sample_env (Some (js "editor")) None None remote_wordpress in
  let b := PublishPost.mkBody 7 (js "Title") (js "<p>Body</p>") None (js "jmason")
             None None None None None None true in
  exists before data,
    calls_of (PublishPost.POST E b)
    = before ++ [PublishPost.update_request E 7 data]
    /\ field "status" (stringify data) = Some (JStr (js "publish")).
Proof.
  intros E b.
  destruct (publish_update_carries_status E b)
    as (before & data & Hcalls & Hstatus & _).
  - vm_compute. discriminate.
  - vm_compute. discriminate.
  - exists before, data. split; [exact Hcalls | exact Hstatus].
Defined.

(** X6.  With credentials, when no image is suggested (none, empty or
    blank) the publishing handler neither downloads nor uploads anything and
    the update carries no [featured_media].  When the suggested image is
    downloaded and its upload accepted, these two requests come first, the
    upload carries the bytes it downloaded, and the update carries the
    identifier of the uploaded media as [featured_media]. *)
Theorem publish_featured_media :
  forall (E : Env) (b : PublishPost.body),
    PublishPost.WP_USERNAME E <> [] ->
    PublishPost.WP_PASSWORD E <> [] ->
    let url := or_empty (PublishPost.suggestedImage b) in
    let filename := PublishPost.filename_for E (PublishPost.postId b) in
    (PublishPost.image_given (PublishPost.suggestedImage b) = false ->
     exists before data,
       calls_of (PublishPost.POST E b)
       = before ++ [PublishPost.update_request E (PublishPost.postId b) data]
       /\ Forall (fun rq => match target rq with
                            | External _ | WpMedia => False
                            | _ => True
                            end)
                 (calls_of (PublishPost.POST E b))
       /\ has_key "featured_media" (stringify data) = false)
    /\ (forall ri blob ru m,
           PublishPost.image_given (PublishPost.suggestedImage b) = true ->
           remote E KImage [] (PublishPost.image_request url) = Some ri ->
           ok ri = true -> decoded ri = Some blob ->
           remote E KMedia [PublishPost.image_request url]
                  (PublishPost.upload_request E filename blob) = Some ru ->
           ok ru = true -> decoded ru = Some m ->
           exists rest data,
             calls_of (PublishPost.POST E b)
             = PublishPost.image_request url
                 :: PublishPost.upload_request E filename blob
                 :: rest ++ [PublishPost.update_request E (PublishPost.postId b) data]
             /\ body (PublishPost.upload_request E filename blob)
                = BinaryBody (blob_bytes blob)
             /\ field "featured_media" (stringify data) = Some (JInt (media_id m))).
Proof.
  intros E b Hu Hp url filename.
  destruct (publish_runs E b Hu Hp) as (r & Hrun & Hup & Hcat & (n & Htag) & _).
  unfold calls_of, run. rewrite Hrun. cbn [snd]. split.
  - intros Hno. rewrite Hno in Hup. injection Hup as Hnone Hnil.
    exists (run_before r).
    exists (publish_data b (run_upload r) (run_author r) (run_category r)
                         (run_tags r)).
    split; [reflexivity|]. split.
    + unfold run_before. rewrite <- Hnil. cbn [app].
      constructor; [exact I|]. rewrite !Forall_app. repeat split.
      * rewrite Hcat. destruct (some_str (PublishPost.category b));
          repeat constructor.
      * rewrite Htag. apply Forall_firstn. apply Forall_forall.
        intros rq Hin. apply in_map_iff in Hin as (t & <- & _). exact I.
      * repeat constructor.
    + rewrite <- Hnone. apply updatePost_omitted_featured_media.
  - intros ri blob ru m Hyes Hi Hoki Hdi Hu' Hoku Hdu. rewrite Hyes in Hup.
    assert (Hgo : PublishPost.uploadImageToWordPress E url filename []
                  = (Ok (Some m),
                     [PublishPost.image_request url;
                      PublishPost.upload_request E filename blob])).
    { unfold PublishPost.uploadImageToWordPress. unfold_M.
      rewrite Hi. cbn [payload] in *. rewrite Hoki. cbn [negb].
      rewrite Hdi. cbn [app]. rewrite Hu'. cbn [payload] in *.
      rewrite Hoku. cbn [negb]. rewrite Hdu. reflexivity. }
    fold url filename in Hup. rewrite Hgo in Hup. injection Hup as Hsome Hreq.
    exists ([PublishPost.lookup_request E (WpUsers (PublishPost.detectedAuthorId b))]
              ++ run_cat r ++ run_tag r).
    exists (publish_data b (run_upload r) (run_author r) (run_category r)
                         (run_tags r)).
    split; [|split; [reflexivity|]].
    + unfold run_before. rewrite <- Hreq. cbn [app].
      rewrite <- !app_assoc. reflexivity.
    + rewrite <- Hsome. unfold publish_data. cbn [option_map].
      match goal with
      | |- context [PublishPost.updateData ?t ?c ?fm ?au ?cat ?tg ?st ?sT ?sD ?kw ?sc] =>
          destruct (updateData_fields t c fm au cat tg st sT sD kw sc)
            as (_ & _ & _ & Hfm)
      end.
      apply Hfm. reflexivity.
Qed.

Lemma publish_featured_media_witness :
  let E := sample_env (Some (js "editor")) None None remote_serving in
  let blank := PublishPost.mkBody 7 (js "Title") (js "<p>Body</p>")
                 (Some (js "   ")) (js "jmason") None None None None None None true in
  let b := PublishPost.mkBody 7 (js "Title") (js "<p>Body</p>")
             (Some (js "https://example.org/a.jpg")) (js "jmason")
             None None None None None None true in
  (exists before data,
      calls_of (PublishPost.POST E blank)
      = before ++ [PublishPost.update_request E 7 data]
      /\ has_key "featured_media" (stringify data) = false)
  /\ (exists rest data,
        calls_of (PublishPost.POST E b)
        = PublishPost.image_request (js "https://example.org/a.jpg")
            :: PublishPost.upload_request E (PublishPost.filename_for E 7)
                 (mkBlob [] [255%N; 216%N])
            :: rest ++ [PublishPost.update_request E 7 data]
        /\ field "featured_media" (stringify data) = Some (JInt 55)).
Proof.
  intros E blank b. split.
  - destruct (publish_featured_media E blank) as [Hno _].
    + vm_compute. discriminate.
    + vm_compute. discriminate.
    + destruct Hno as (before & data & Hcalls & _ & Hfm); [reflexivity|].
      exists before, data. split; [exact Hcalls | exact Hfm].
  - destruct (publish_featured_media E b) as [_ Hyes].
    + vm_compute. discriminate.
    + vm_compute. discriminate.
    + destruct (Hyes (mkResponse true 200 no_header (Some (mkBlob [] [255%N; 216%N])))
                     (mkBlob [] [255%N; 216%N])
                     (mkResponse true 201 no_header
                        (Some (mkMedia 55 (js "https://cdn.example.org/a.jpg"))))
                     (mkMedia 55 (js "https://cdn.example.org/a.jpg")))
        as (rest & data & Hcalls & _ & Hfm); try reflexivity.
      exists rest, data. split; [exact Hcalls | exact Hfm].
Defined.

(* ================================================================= *)
(** ** The image query *)

Module QueryFacts.

Lemma replace_g_skip :
  forall m r s k, replace_g m r k s = replace_g m r 0 (skipn k s).
Proof.
  intros m r. induction s as [|c s IH]; intros [|k]; try reflexivity.
  cbn [replace_g skipn]. apply IH.
Qed.

Lemma skipn_takeWhile :
  forall p s, skipn (length (takeWhile p s)) s = dropWhile p s.
Proof.
  intros p. induction s as [|c s IH]; [reflexivity|].
  cbn [takeWhile dropWhile]. destruct (p c); [exact IH | reflexivity].
Qed.

Lemma collapse_space :
  forall c s,
    is_space c = true ->
    collapse_spaces (c :: s) = SPACE :: collapse_spaces (dropWhile is_space s).
Proof.
  intros c s Hc. unfold collapse_spaces, replaceAll. cbn [replace_g].
  unfold match_spaces. cbn [takeWhile]. rewrite Hc. cbn [length app].
  rewrite replace_g_skip, skipn_takeWhile. reflexivity.
Qed.

Lemma collapse_other :
  forall c s,
    is_space c = false ->
    collapse_spaces (c :: s) = c :: collapse_spaces s.
Proof.
  intros c s Hc. unfold collapse_spaces, replaceAll. cbn [replace_g].
  unfold match_spaces. cbn [takeWhile]. rewrite Hc. reflexivity.
Qed.

Lemma dropWhile_length :
  forall p s, (length (dropWhile p s) <= length s)%nat.
Proof.
  intros p. induction s as [|c s IH]; [apply Nat.le_refl|].
  cbn [dropWhile]. destruct (p c); cbn [length]; lia.
Qed.

Lemma forallb_dropWhile :
  forall (f p : N -> bool) s,
    forallb f s = true -> forallb f (dropWhile p s) = true.
Proof.
  intros f p. induction s as [|c s IH]; [reflexivity|].
  intros H. cbn [dropWhile]. destruct (p c); [|exact H].
  cbn [forallb] in H. apply andb_prop in H. apply IH, H.
Qed.

(** After [/\s+/g] has been replaced by a space: only query characters,
    and no white space next to white space. *)
Lemma collapse_spaces_shape :
  forall n s,
    (length s <= n)%nat ->
    forallb (fun c => is_word c || is_space c || (c =? HYPHEN)%N) s = true ->
    forallb query_char (collapse_spaces s) = true
    /\ no_double_space (collapse_spaces s) = true.
Proof.
  induction n as [|n IH]; intros [|c s] Hlen Hall; try (split; reflexivity).
  - cbn [length] in Hlen. lia.
  - cbn [length] in Hlen. cbn [forallb] in Hall.
    apply andb_prop in Hall. destruct Hall as [Hc Hall].
    destruct (is_space c) eqn:Hsp.
    + rewrite collapse_space by exact Hsp.
      destruct (IH (dropWhile is_space s)) as [Hq Hd].
      * pose proof (dropWhile_length is_space s). lia.
      * apply forallb_dropWhile, Hall.
      * split.
        -- cbn [forallb]. rewrite Hq. reflexivity.
        -- cbn [no_double_space]. rewrite Hd, andb_true_r.
           destruct (dropWhile is_space s) as [|d t] eqn:Hdrop;
             [reflexivity|].
           apply FenceFacts.dropWhile_head in Hdrop.
           rewrite collapse_other by exact Hdrop. cbn [hd].
           rewrite Hdrop. reflexivity.
    + rewrite collapse_other by exact Hsp.
      destruct (IH s) as [Hq Hd]; [lia | exact Hall |].
      split.
      * cbn [forallb]. rewrite Hq, andb_true_r.
        unfold query_char. rewrite orb_false_r in Hc.
        apply orb_prop in Hc. destruct Hc as [Hc|Hc]; rewrite Hc;
          [reflexivity | rewrite orb_true_r; reflexivity].
      * cbn [no_double_space]. rewrite Hsp, Hd. reflexivity.
Qed.

Lemma strip_special_keeps :
  forall s,
    forallb (fun c => is_word c || is_space c || (c =? HYPHEN)%N)
            (strip_special s) = true.
Proof.
  intros s. unfold strip_special. apply forallb_forall.
  intros c Hin. apply filter_In in Hin. apply Hin.
Qed.

Lemma no_double_space_app :
  forall x y,
    no_double_space (x ++ y) = true ->
    no_double_space x = true /\ no_double_space y = true.
Proof.
  induction x as [|c x IH]; intros y H; [split; [reflexivity | exact H]|].
  cbn [app no_double_space] in *. apply andb_prop in H. destruct H as [Hc H].
  destruct (IH y H) as [Hx Hy]. split; [|exact Hy].
  rewrite Hx, andb_true_r.
  destruct x as [|d x]; [|exact Hc].
  cbn [hd]. rewrite andb_false_r. reflexivity.
Qed.

Lemma trimEnd_split :
  forall s, s = trimEnd s ++ rev (takeWhile is_space (rev s)).
Proof.
  intros s. unfold trimEnd. rewrite <- rev_app_distr.
  rewrite FenceFacts.takeWhile_dropWhile. symmetry. apply rev_involutive.
Qed.

Lemma trim_split :
  forall s, exists a b, s = a ++ trim s ++ b.
Proof.
  intros s. exists (takeWhile is_space s).
  exists (rev (takeWhile is_space (rev (trimStart s)))).
  unfold trim. rewrite <- trimEnd_split. unfold trimStart.
  symmetry. apply FenceFacts.takeWhile_dropWhile.
Qed.

Lemma last_rev :
  forall (l : jsstring) d, last (rev l) d = hd d l.
Proof.
  intros [|a l] d; [reflexivity|]. cbn [rev hd]. apply last_last.
Qed.

Lemma trim_ends :
  forall s,
    is_space (hd 0%N (trim s)) = false
    /\ is_space (last (trim s) 0%N) = false.
Proof.
  intros s. split.
  - unfold trim. destruct (trimStart s) as [|c x] eqn:Hs; [reflexivity|].
    apply FenceFacts.dropWhile_head in Hs.
    destruct (FenceFacts.trimEnd_head c x Hs) as [y ->]. exact Hs.
  - unfold trim, trimEnd. rewrite last_rev.
    destruct (dropWhile is_space (rev (trimStart s))) as [|c x] eqn:Hs;
      [reflexivity|].
    apply FenceFacts.dropWhile_head in Hs. exact Hs.
Qed.

Lemma drop_last_word_split :
  forall s, exists t, s = drop_last_word s ++ t.
Proof.
  induction s as [|c s [t IH]]; [exists []; reflexivity|].
  cbn [drop_last_word]. destruct (match_last_word (c :: s)).
  - exists (c :: s). reflexivity.
  - exists t. cbn [app]. rewrite <- IH. reflexivity.
Qed.

Lemma drop_last_word_end :
  forall s, is_space (last (drop_last_word s) 0%N) = false.
Proof.
  induction s as [|c s IH]; [reflexivity|].
  cbn [drop_last_word].
  destruct (match_last_word (c :: s)) eqn:Hm; [reflexivity|].
  destruct (drop_last_word s) as [|d x] eqn:Hd.
  - cbn [last]. destruct (is_space c) eqn:Hc; [|reflexivity].
    unfold match_last_word in Hm. rewrite Hc in Hm. cbn [andb dropWhile] in Hm.
    rewrite Hc in Hm.
    destruct s as [|e s']; [discriminate Hm|].
    cbn [drop_last_word] in Hd.
    destruct (match_last_word (e :: s')) eqn:He; [|discriminate Hd].
    unfold match_last_word in He. apply andb_prop in He.
    destruct He as [_ He]. rewrite He in Hm. discriminate Hm.
  - exact IH.
Qed.

Lemma hd_app :
  forall (x y : jsstring) d, x <> [] -> hd d (x ++ y) = hd d x.
Proof. intros [|a x] y d H; [contradiction | reflexivity]. Qed.

Lemma limit_query_split :
  forall s, exists t, s = Optimize.limit_query s ++ t.
Proof.
  intros s. unfold Optimize.limit_query, substring0.
  destruct (100 <? length s)%nat.
  - destruct (drop_last_word_split (firstn 100 s)) as [t Ht].
    exists (t ++ skipn 100 s).
    rewrite app_assoc, <- Ht. symmetry. apply firstn_skipn.
  - exists []. symmetry. apply app_nil_r.
Qed.

Lemma limit_query_end :
  forall s,
    is_space (last s 0%N) = false ->
    is_space (last (Optimize.limit_query s) 0%N) = false.
Proof.
  intros s H. unfold Optimize.limit_query.
  destruct (100 <? length s)%nat; [apply drop_last_word_end | exact H].
Qed.

Lemma no_space_trim :
  forall s, forallb (fun c => negb (is_space c)) s = true -> trim s = s.
Proof.
  intros s H.
  assert (Hd : forall t, forallb (fun c => negb (is_space c)) t = true ->
                         dropWhile is_space t = t).
  { intros [|c t] Ht; [reflexivity|]. cbn [forallb] in Ht.
    apply andb_prop in Ht. destruct Ht as [Hc _].
    cbn [dropWhile]. apply negb_true_iff in Hc. rewrite Hc. reflexivity. }
  unfold trim, trimStart, trimEnd. rewrite (Hd s H).
  rewrite Hd by (rewrite FenceFacts.forallb_rev; exact H).
  apply rev_involutive.
Qed.

End QueryFacts.

Lemma normalize_query_tidy :
  forall q : jsstring,
    let sent := Optimize.normalize_query q in
    forallb query_char sent = true
    /\ no_double_space sent = true
    /\ is_space (hd 0%N sent) = false
    /\ is_space (last sent 0%N) = false
    /\ (length sent <= 100)%nat
    /\ exists rest, Optimize.clean_query q = sent ++ rest.
Proof.
  intros q sent.
  destruct (QueryFacts.limit_query_split (Optimize.clean_query q)) as [rest Hrest].
  fold (Optimize.normalize_query q) in Hrest. fold sent in Hrest.
  destruct (QueryFacts.collapse_spaces_shape
              (length (strip_special q)) (strip_special q) (Nat.le_refl _)
              (QueryFacts.strip_special_keeps q)) as [Hq Hd].
  destruct (QueryFacts.trim_split (collapse_spaces (strip_special q)))
    as (a & b & Hab).
  fold (Optimize.clean_query q) in Hab.
  rewrite Hab in Hq, Hd.
  rewrite forallb_app in Hq. apply andb_prop in Hq. destruct Hq as [_ Hq].
  rewrite forallb_app in Hq. apply andb_prop in Hq. destruct Hq as [Hq _].
  apply QueryFacts.no_double_space_app in Hd. destruct Hd as [_ Hd].
  apply QueryFacts.no_double_space_app in Hd. destruct Hd as [Hd _].
  rewrite Hrest in Hq, Hd.
  rewrite forallb_app in Hq. apply andb_prop in Hq. destruct Hq as [Hq _].
  apply QueryFacts.no_double_space_app in Hd. destruct Hd as [Hd _].
  destruct (QueryFacts.trim_ends (collapse_spaces (strip_special q)))
    as [Hhd Hlast].
  fold (Optimize.clean_query q) in Hhd, Hlast.
  repeat split; try assumption.
  - destruct sent as [|c x] eqn:Hs; [reflexivity|].
    rewrite Hrest in Hhd. exact Hhd.
  - apply QueryFacts.limit_query_end. exact Hlast.
  - apply limit_query_length.
  - exists rest. exact Hrest.
Qed.

(** X7.  The query [searchPixabay] sends.  Every request it adds to the log
    is a search of the image service with the configured key; whatever the
    text of the query, the [q] of the request is made of word characters,
    hyphens and spaces only, has no two units of white space in a row and
    none at either end, is at most 100 code units long, and is the beginning
    of the cleaned-up query. *)
Theorem searchPixabay_sends_clean_query :
  forall (E : Env) (q : jsstring) (rq : request),
    In rq (calls_of (Optimize.searchPixabay E (JStr q))) ->
    exists sent rest,
      rq = Optimize.pixabay_request (or_empty (PIXABAY_API_KEY E)) sent
      /\ forallb query_char sent = true
      /\ no_double_space sent = true
      /\ is_space (hd 0%N sent) = false
      /\ is_space (last sent 0%N) = false
      /\ (length sent <= 100)%nat
      /\ Optimize.clean_query (trim q) = sent ++ rest.
Proof.
  intros E q rq Hin. unfold calls_of, run in Hin.
  destruct (searchPixabay_runs E q []) as (res & extra & Hrun & Hextra).
  rewrite Hrun in Hin. cbn [snd app] in Hin.
  destruct Hextra as [->| ->]; [contradiction|].
  destruct Hin as [<-|[]].
  destruct (normalize_query_tidy (trim q))
    as (H1 & H2 & H3 & H4 & H5 & rest & H6).
  exists (Optimize.normalize_query (trim q)), rest. auto 10.
Qed.

Lemma searchPixabay_sends_clean_query_witness :
  let E := sample_env None None (Some (js "key")) remote_down in
  exists sent rest,
    Optimize.pixabay_request (js "key") (js "caf - au lait")
    = Optimize.pixabay_request (or_empty (PIXABAY_API_KEY E)) sent
    /\ forallb query_char sent = true
    /\ no_double_space sent = true
    /\ is_space (hd 0%N sent) = false
    /\ is_space (last sent 0%N) = false
    /\ (length sent <= 100)%nat
    /\ Optimize.clean_query (trim (js "  caf! -   au lait?  ")) = sent ++ rest.
Proof.
  intros E.
  apply (searchPixabay_sends_clean_query E (js "  caf! -   au lait?  ")).
  vm_compute. left. reflexivity.
Defined.

(** X8.  A query made only of characters outside [[A-Za-z0-9_]], white
    space and the hyphen (a title in a non-Latin script, say) is still
    searched for when it has three code units or more, with an empty [q]. *)
Theorem searchPixabay_special_query_sent_empty :
  forall (E : Env) (q : jsstring),
    some_str (PIXABAY_API_KEY E) = true ->
    forallb special q = true ->
    (3 <= length q)%nat ->
    calls_of (Optimize.searchPixabay E (JStr q))
    = [Optimize.pixabay_request (or_empty (PIXABAY_API_KEY E)) []].
Proof.
  intros E q Hk Hsp Hlen.
  assert (Hns : forallb (fun c => negb (is_space c)) q = true).
  { apply forallb_forall. intros c Hc.
    rewrite forallb_forall in Hsp. specialize (Hsp c Hc).
    unfold special in Hsp. apply negb_true_iff in Hsp.
    apply orb_false_iff in Hsp. destruct Hsp as [Hsp _].
    apply orb_false_iff in Hsp. destruct Hsp as [_ Hsp].
    rewrite Hsp. reflexivity. }
  assert (Htrim : trim q = q) by (apply QueryFacts.no_space_trim, Hns).
  unfold calls_of, run.
  destruct (searchPixabay_calls E q [] Hk) as [res Hrun];
    [rewrite Htrim; exact Hlen|].
  rewrite Hrun. cbn [snd app]. rewrite Htrim.
  assert (Hstrip : strip_special q = []).
  { unfold strip_special. clear - Hsp.
    induction q as [|c q IH]; [reflexivity|].
    cbn [forallb] in Hsp. apply andb_prop in Hsp. destruct Hsp as [Hc Hq].
    cbn [filter]. unfold special in Hc. apply negb_true_iff in Hc.
    rewrite Hc. apply IH, Hq. }
  unfold Optimize.normalize_query, Optimize.clean_query. rewrite Hstrip.
  reflexivity.
Qed.

Lemma searchPixabay_special_query_sent_empty_witness :
  let E := sample_env None None (Some (js "key")) remote_down in
  calls_of (Optimize.searchPixabay E (JStr [26032%N; 38395%N; 22577%N; 36947%N]))
  = [Optimize.pixabay_request (js "key") []].
Proof.
  intros E.
  apply (searchPixabay_special_query_sent_empty E
           [26032%N; 38395%N; 22577%N; 36947%N]);
    [reflexivity | reflexivity | cbn; lia].
Defined.

(* ================================================================= *)
(** ** The optimisation route with a generation key *)

Module ParseFacts.









(** [JSON.stringify] keeps such a value as it is. *)
Lemma stringify_defined :
  forall v, defined v = true -> stringify v = v.
Proof.
  fix IH 1. intros [| | | | |l|o] H; try reflexivity.
  - cbn [stringify]. f_equal. cbn [defined] in H.
    induction l as [|x l IHl]; [reflexivity|].
    cbn [forallb] in H. apply andb_prop in H. destruct H as [Hx Hl].
    cbn [map]. rewrite (IHl Hl). f_equal.
    unfold element. rewrite (IH x Hx).
    destruct x; try reflexivity. discriminate Hx.
  - cbn [stringify]. f_equal. cbn [defined] in H.
    induction o as [|[k x] o IHo]; [reflexivity|].
    cbn [forallb] in H. apply andb_prop in H. destruct H as [Hx Ho].
    cbn [flat_map]. rewrite (IHo Ho).
    unfold kept. rewrite (IH x Hx).
    destruct x; try reflexivity. discriminate Hx.
Qed.


End ParseFacts.

(** What [searchPixabay] resolves to once it searches. *)
Lemma searchPixabay_result :
  forall E q l,
    some_str (PIXABAY_API_KEY E) = true ->
    (3 <= length (trim q))%nat ->
    let rq := Optimize.pixabay_request (or_empty (PIXABAY_API_KEY E))
                (Optimize.normalize_query (trim q)) in
    Optimize.searchPixabay E (JStr q) l
    = (Ok match remote E KPixabay l rq with
          | Some r =>
              if ok r then
                match decoded r with
                | Some (Some (h :: hs)) =>
                    Some (Optimize.mkImage (chosen_url (h :: hs)) (js "Pixabay"))
                | _ => None
                end
              else None
          | None => None
          end,
       l ++ [rq]).
Proof.
  intros E q l Hk Hlen rq. unfold Optimize.searchPixabay. rewrite Hk. cbn [negb].
  apply Nat.ltb_ge in Hlen. rewrite Hlen. fold rq.
  unfold_M. destruct (remote E KPixabay l rq) as [r|]; [|reflexivity].
  cbn [payload] in *. destruct (ok r); cbn [negb]; [|reflexivity].
  destruct (decoded r) as [[[|h hs]|]|]; try reflexivity.
  unfold Optimize.bestImage, chosen_url.
  destruct (find (fun h0 => some_str (largeImageURL h0)) (h :: hs)) as [best|] eqn:Hf.
  - apply find_some in Hf. destruct Hf as [_ Hf]. rewrite Hf. reflexivity.
  - cbn [hd_error]. cbn [find] in Hf.
    destruct (some_str (largeImageURL h)); [discriminate Hf | reflexivity].
Qed.

(** X9.  The image [searchPixabay] picks.  When the image service answers
    with hits, the address returned is the large one of the first hit that
    has a large address; when no hit has one, it is the medium-sized address
    of the first hit.  With no hits the result is [null]. *)
Theorem searchPixabay_picks_first_large_image :
  forall (E : Env) (q : jsstring) (l : log) r (hits : list hit),
    some_str (PIXABAY_API_KEY E) = true ->
    (3 <= length (trim q))%nat ->
    remote E KPixabay l
           (Optimize.pixabay_request (or_empty (PIXABAY_API_KEY E))
              (Optimize.normalize_query (trim q))) = Some r ->
    ok r = true ->
    decoded r = Some (Some hits) ->
    fst (Optimize.searchPixabay E (JStr q) l)
    = Ok match hits with
         | [] => None
         | _ :: _ => Some (Optimize.mkImage (chosen_url hits) (js "Pixabay"))
         end.
Proof.
  intros E q l r hits Hk Hlen Hr Hok Hd.
  rewrite searchPixabay_result by assumption. cbn [fst].
  rewrite Hr. cbn [payload] in *. rewrite Hok, Hd.
  destruct hits; reflexivity.
Qed.

Lemma searchPixabay_picks_first_large_image_witness :
  let hits := [ mkHit None (Some (js "https://px.example/1_640.jpg"));
                mkHit (Some (js "https://px.example/2_1280.jpg"))
                      (Some (js "https://px.example/2_640.jpg"));
                mkHit (Some (js "https://px.example/3_1280.jpg")) None ] in
  let E := sample_env None None (Some (js "key"))
             (fun k =>
                match k return log -> request -> option (response (payload k)) with
                | KPixabay =>
                    fun _ _ => Some (mkResponse true 200 no_header (Some (Some hits)))
                | k' => remote_down k'
                end) in
  fst (Optimize.searchPixabay E (JStr (js "red fox")) [])
  = Ok (Some (Optimize.mkImage (Some (js "https://px.example/2_1280.jpg"))
                               (js "Pixabay"))).
Proof.
  intros hits E.
  apply (searchPixabay_picks_first_large_image E (js "red fox") []
           (mkResponse true 200 no_header (Some (Some hits))) hits);
    try reflexivity.
  vm_compute. lia.
Defined.

(** X10.  [searchPixabay] swallows every failure of the image service: when
    the request is rejected, answered with an error status, answered with a
    body that is not JSON, or answered without hits, the result is [null]
    and nothing is thrown. *)
Theorem searchPixabay_swallows_failures :
  forall (E : Env) (q : jsstring) (l : log),
    some_str (PIXABAY_API_KEY E) = true ->
    (3 <= length (trim q))%nat ->
    let rq := Optimize.pixabay_request (or_empty (PIXABAY_API_KEY E))
                (Optimize.normalize_query (trim q)) in
    match remote E KPixabay l rq with
    | None => True
    | Some r =>
        ok r = false \/ decoded r = None \/ decoded r = Some None
        \/ decoded r = Some (Some [])
    end ->
    Optimize.searchPixabay E (JStr q) l = (Ok None, l ++ [rq]).
Proof.
  intros E q l Hk Hlen rq H.
  rewrite searchPixabay_result by assumption. fold rq.
  destruct (remote E KPixabay l rq) as [r|]; [|reflexivity].
  cbn [payload] in *.
  destruct H as [H|[H|[H|H]]]; rewrite H; try reflexivity;
    destruct (ok r); reflexivity.
Qed.

Lemma searchPixabay_swallows_failures_witness :
  let down := sample_env None None (Some (js "key")) remote_down in
  let bad := sample_env None None (Some (js "key"))
               (fun k =>
                  match k return log -> request -> option (response (payload k)) with
                  | KPixabay =>
                      fun _ _ => Some (mkResponse false 429 no_header None)
                  | k' => remote_down k'
                  end) in
  Optimize.searchPixabay down (JStr (js "red fox")) []
  = (Ok None, [Optimize.pixabay_request (js "key") (js "red fox")])
  /\ Optimize.searchPixabay bad (JStr (js "red fox")) []
     = (Ok None, [Optimize.pixabay_request (js "key") (js "red fox")]).
Proof.
  intros down bad. split.
  - apply (searchPixabay_swallows_failures down (js "red fox") []);
      [reflexivity | vm_compute; lia | exact I].
  - apply (searchPixabay_swallows_failures bad (js "red fox") []);
      [reflexivity | vm_compute; lia | vm_compute; left; reflexivity].
Defined.

(** X11.  The status check of the image search always answers 200 with
    [success: true].  It makes no request without an image-search key, and
    exactly one, for [nature landscape], with one; [pixabayWorking] is true
    exactly when that request is answered with at least one hit. *)
Theorem pixabay_status_reply :
  forall E : Env,
    let rq := Optimize.pixabay_request (or_empty (PIXABAY_API_KEY E))
                (js "nature landscape") in
    exists rep,
      result_of (PixabayStatus.GET E) = Ok rep
      /\ reply_status rep = 200%Z
      /\ success_of rep = Some (JBool true)
      /\ field "pixabayConfigured" (reply_body rep)
         = Some (JBool (some_str (PIXABAY_API_KEY E)))
      /\ calls_of (PixabayStatus.GET E)
         = (if some_str (PIXABAY_API_KEY E) then [rq] else [])
      /\ (field "pixabayWorking" (reply_body rep) = Some (JBool true)
          <-> some_str (PIXABAY_API_KEY E) = true
              /\ exists r h hs,
                  remote E KPixabay [] rq = Some r
                  /\ ok r = true
                  /\ decoded r = Some (Some (h :: hs))).
Proof.
  intros E rq. unfold result_of, calls_of, run, PixabayStatus.GET.
  destruct (some_str (PIXABAY_API_KEY E)) eqn:Hk.
  - unfold bind.
    rewrite (searchPixabay_result E PixabayStatus.testQuery [] Hk)
      by (vm_compute; lia).
    replace (Optimize.normalize_query (trim PixabayStatus.testQuery))
      with (js "nature landscape") by (vm_compute; reflexivity).
    fold rq. unfold ret. cbn [fst snd app].
    eexists. split; [reflexivity|].
    split; [reflexivity|]. split; [reflexivity|]. split; [reflexivity|].
    split; [reflexivity|].
    cbn [reply_body NextResponse_json].
    destruct (remote E KPixabay [] rq) as [r|] eqn:Hr.
    + cbn [payload] in *. destruct (ok r) eqn:Hok.
      * destruct (decoded r) as [[[|h hs]|]|] eqn:Hd; split;
          try (intros H; discriminate H);
          try (intros (_ & r' & h' & hs' & Hr' & _ & Hd');
               injection Hr' as <-; cbn [payload] in *; congruence).
        -- intros _. split; [reflexivity|]. exists r, h, hs. auto.
        -- intros _. reflexivity.
      * split; [intros H; discriminate H|].
        intros (_ & r' & h' & hs' & Hr' & Hok' & _).
        injection Hr' as <-. cbn [payload] in *. congruence.
    + split; [intros H; discriminate H|].
      intros (_ & r' & h' & hs' & Hr' & _). discriminate Hr'.
  - unfold ret. cbn [fst snd]. eexists.
    split; [reflexivity|].
    split; [reflexivity|]. split; [reflexivity|]. split; [reflexivity|].
    split; [reflexivity|].
    split; [intros H; discriminate H | intros [H _]; discriminate H].
Qed.







(** X12.  With a generation key, a generation request that is rejected, is
    answered with an error status, with a body that is not JSON, or with no
    text makes the handler answer 500 with [success: false]; the generation
    request is the only one made. *)
Theorem optimize_generation_failure :
  forall (E : Env) (INSTRUCTIONS : jsstring) (b : Optimize.body),
    some_str (OPENAI_API_KEY E) = true ->
    let rq := Optimize.chat_request E INSTRUCTIONS (Optimize.title b)
                (Optimize.content b) (Optimize.excerpt b) in
    match remote E KChat [] rq with
    | None => True
    | Some r =>
        ok r = false \/ decoded r = None \/ decoded r = Some None
        \/ decoded r = Some (Some [])
    end ->
    Optimize.POST E INSTRUCTIONS b [] = (Ok failed_reply, [rq]).
Proof.
  intros E I b Hk rq H.
  unfold Optimize.POST, Optimize.optimizeWithAI.
  rewrite Hk. cbn [negb]. unfold try_catch, bind, fetch, decode.
  fold rq. destruct (remote E KChat [] rq) as [r|]; [|reflexivity].
  cbn [payload] in *.
  destruct (ok r) eqn:Hok; cbn [negb]; [|reflexivity].
  destruct H as [H|[H|[H|H]]]; [discriminate H| | |]; rewrite H; reflexivity.
Qed.

Lemma optimize_generation_failure_witness :
  let b := Optimize.mkBody (js "Title") (js "Body") (js "Excerpt") in
  let down := sample_env None (Some (js "sk")) (Some (js "key")) remote_down in
  let silent := sample_env None (Some (js "sk")) (Some (js "key")) (remote_chat []) in
  Optimize.POST down [] b []
  = (Ok failed_reply,
     [Optimize.chat_request down [] (js "Title") (js "Body") (js "Excerpt")])
  /\ Optimize.POST silent [] b []
     = (Ok failed_reply,
        [Optimize.chat_request silent [] (js "Title") (js "Body") (js "Excerpt")]).
Proof.
  intros b down silent. split.
  - apply (optimize_generation_failure down [] b); [reflexivity | exact I].
  - apply (optimize_generation_failure silent [] b); [reflexivity|].
    vm_compute. right. right. right. reflexivity.
Defined.





(* ================================================================= *)
(** ** Saving SEO data: what is written, and where *)

Lemma field_loop_calls :
  forall E auth postId entries l,
    SaveSeo.field_loop E auth postId entries l
    = (Ok tt, l ++ map (field_request auth postId) entries).
Proof.
  intros E auth postId entries.
  induction entries as [|[key value] rest IH]; intros l.
  - cbn [SaveSeo.field_loop map]. rewrite app_nil_r. reflexivity.
  - cbn [SaveSeo.field_loop map]. unfold bind at 1.
    unfold try_catch, bind, fetch, ret.
    match goal with
    | |- context [remote E KWrite l ?rq] => destruct (remote E KWrite l rq)
    end; rewrite IH, <- app_assoc; reflexivity.
Qed.

(** The requests of the handler once the input is accepted. *)
Lemma save_seo_calls :
  forall (E : Env) (b : SaveSeo.body) (id : Z),
    SaveSeo.WP_USERNAME E <> [] ->
    SaveSeo.WP_PASSWORD E <> [] ->
    SaveSeo.postId b = Some id -> id <> 0%Z ->
    let auth := createAuthHeader (SaveSeo.WP_USERNAME E) (SaveSeo.WP_PASSWORD E) in
    let before := if some_str (SaveSeo.seoTitle b)
                  then [title_request auth id b] else [] in
    calls_of (SaveSeo.POST E b)
    = if some_str (SaveSeo.seoTitle b)
         && match remote E KWrite [] (title_request auth id b) with
            | Some _ => false
            | None => true
            end
      then before
      else before ++ meta_request auth id b
             :: match remote E KWrite before (meta_request auth id b) with
                | Some r =>
                    match decoded r with
                    | Some _ =>
                        if ok r then []
                        else map (field_request auth id) (SaveSeo.metaFields b)
                    | None => []
                    end
                | None => []
                end.
Proof.
  intros E b id Hu Hp Hid Hnz auth before.
  unfold calls_of, run, SaveSeo.POST, try_catch.
  destruct (SaveSeo.WP_USERNAME E) as [|u0 u] eqn:Eu; [congruence|].
  destruct (SaveSeo.WP_PASSWORD E) as [|p0 p] eqn:Ep; [congruence|].
  cbn [orb]. rewrite Hid. cbn [some_num of_opt].
  apply Z.eqb_neq in Hnz. rewrite Hnz. cbn [negb].
  fold auth. fold (title_request auth id b). fold (meta_request auth id b).
  unfold bind at 1.
  assert (Hfirst :
            (if some_str (SaveSeo.seoTitle b)
             then bind (fetch E KWrite (title_request auth id b)) (fun _ => ret tt)
             else ret tt) []
            = if some_str (SaveSeo.seoTitle b)
              then match remote E KWrite [] (title_request auth id b) with
                   | Some _ => (Ok tt, before)
                   | None => (Throw NetErr, before)
                   end
              else (Ok tt, before)).
  { subst before. destruct (some_str (SaveSeo.seoTitle b)); [|reflexivity].
    unfold bind, fetch, ret.
    destruct (remote E KWrite [] (title_request auth id b)); reflexivity. }
  rewrite Hfirst. clear Hfirst.
  assert (Hrest :
            forall l,
              snd (let (o, l') :=
                     bind (fetch E KWrite (meta_request auth id b))
                          (fun updateResponse =>
                             bind (decode updateResponse)
                                  (fun _ =>
                                     bind (if negb (ok updateResponse)
                                           then SaveSeo.field_loop E auth id
                                                  (SaveSeo.metaFields b)
                                           else ret tt)
                                          (fun _ =>
                                             ret (NextResponse_json
                                                    (JObj
                                                       [ (js "success", JBool true);
                                                         (js "data",
                                                          JObj [ (js "postId", JInt id);
                                                                 (js "seoTitle", of_opt JStr (SaveSeo.seoTitle b));
                                                                 (js "seoDescription", of_opt JStr (SaveSeo.seoDescription b));
                                                                 (js "keyword", of_opt JStr (SaveSeo.keyword b)) ]) ])
                                                    200)))) l in
                   match o with
                   | Ok a => (Ok a, l')
                   | Throw _ =>
                       ret (NextResponse_json
                              (JObj [ (js "success", JBool false);
                                      (js "error", JStr (js "Failed to save SEO data")) ])
                              500) l'
                   end)
              = l ++ meta_request auth id b
                  :: match remote E KWrite l (meta_request auth id b) with
                     | Some r =>
                         match decoded r with
                         | Some _ =>
                             if ok r then []
                             else map (field_request auth id) (SaveSeo.metaFields b)
                         | None => []
                         end
                     | None => []
                     end).
  { intros l. unfold bind at 1. unfold fetch.
    destruct (remote E KWrite l (meta_request auth id b)) as [r|];
      [|reflexivity].
    unfold bind at 1. unfold decode. cbn [payload] in *.
    destruct (decoded r) as [[]|]; [|reflexivity].
    unfold ret at 1. unfold bind at 1.
    destruct (ok r); cbn [negb].
    - reflexivity.
    - rewrite field_loop_calls. unfold ret. cbn [snd].
      rewrite <- app_assoc. reflexivity. }
  destruct (some_str (SaveSeo.seoTitle b)); cbn [andb].
  - destruct (remote E KWrite [] (title_request auth id b)); [|reflexivity].
    apply Hrest.
  - apply Hrest.
Qed.

Lemma save_seo_no_call :
  forall (E : Env) (b : SaveSeo.body),
    SaveSeo.WP_USERNAME E = [] \/ SaveSeo.WP_PASSWORD E = []
    \/ SaveSeo.postId b = None \/ SaveSeo.postId b = Some 0%Z ->
    calls_of (SaveSeo.POST E b) = [].
Proof.
  intros E b H. unfold calls_of, run, SaveSeo.POST, try_catch.
  destruct (SaveSeo.WP_USERNAME E) as [|u0 u]; [reflexivity|].
  destruct (SaveSeo.WP_PASSWORD E) as [|p0 p]; [reflexivity|].
  cbn [orb].
  destruct H as [H|[H|[H|H]]]; try discriminate H; rewrite H; reflexivity.
Qed.

(** X15.  The handler that saves SEO data answers 400 with
    [success: false] and makes no request when the user name or the password
    is not configured, and when the body has no [postId] or the [postId] 0. *)
Theorem save_seo_rejects_bad_input :
  forall (E : Env) (b : SaveSeo.body),
    SaveSeo.WP_USERNAME E = [] \/ SaveSeo.WP_PASSWORD E = []
    \/ SaveSeo.postId b = None \/ SaveSeo.postId b = Some 0%Z ->
    exists rep,
      SaveSeo.POST E b [] = (Ok rep, [])
      /\ reply_status rep = 400%Z
      /\ success_of rep = Some (JBool false)
      /\ (SaveSeo.WP_USERNAME E <> [] -> SaveSeo.WP_PASSWORD E <> [] ->
          field "error" (reply_body rep) = Some (JStr (js "Missing postId"))).
Proof.
  intros E b H. unfold SaveSeo.POST, try_catch.
  destruct (SaveSeo.WP_USERNAME E) as [|u0 u] eqn:Eu.
  { eexists. split; [reflexivity|]. split; [reflexivity|].
    split; [reflexivity | congruence]. }
  destruct (SaveSeo.WP_PASSWORD E) as [|p0 p] eqn:Ep.
  { eexists. split; [reflexivity|]. split; [reflexivity|].
    split; [reflexivity | congruence]. }
  cbn [orb].
  destruct H as [H|[H|[H|H]]]; try discriminate H; rewrite H;
    cbn [some_num negb Z.eqb]; eexists; repeat split; reflexivity.
Qed.

Lemma save_seo_rejects_bad_input_witness :
  let E := sample_env (Some (js "editor")) None None remote_wordpress in
  let b := SaveSeo.mkBody (Some 0%Z) (Some (js "SEO title")) None None None in
  exists rep,
    SaveSeo.POST E b [] = (Ok rep, [])
    /\ reply_status rep = 400%Z
    /\ success_of rep = Some (JBool false)
    /\ field "error" (reply_body rep) = Some (JStr (js "Missing postId")).
Proof.
  intros E b.
  destruct (save_seo_rejects_bad_input E b) as (rep & H1 & H2 & H3 & H4).
  - right. right. right. reflexivity.
  - exists rep. repeat split; try assumption.
    apply H4; vm_compute; discriminate.
Defined.

(** X16.  Every request of the handler that saves SEO data is a POST to the
    post named in the body, with the configured credentials: no other post
    and no other service is touched, whatever the remote side answers. *)
Theorem save_seo_writes_only_that_post :
  forall (E : Env) (b : SaveSeo.body) (rq : request),
    In rq (calls_of (SaveSeo.POST E b)) ->
    exists id,
      SaveSeo.postId b = Some id /\ id <> 0%Z /\ seo_write E id rq.
Proof.
  intros E b rq Hin.
  destruct (SaveSeo.WP_USERNAME E) as [|u0 u] eqn:Eu.
  { rewrite (save_seo_no_call E b) in Hin by auto. contradiction. }
  destruct (SaveSeo.WP_PASSWORD E) as [|p0 p] eqn:Ep.
  { rewrite (save_seo_no_call E b) in Hin by auto. contradiction. }
  destruct (SaveSeo.postId b) as [id|] eqn:Hid.
  2:{ rewrite (save_seo_no_call E b) in Hin by auto. contradiction. }
  destruct (Z.eq_dec id 0) as [->|Hnz].
  { rewrite (save_seo_no_call E b) in Hin by auto. contradiction. }
  exists id. split; [reflexivity|]. split; [exact Hnz|].
  rewrite (save_seo_calls E b id) in Hin
    by (try rewrite Eu; try rewrite Ep; try discriminate; assumption).
  rewrite Eu, Ep in Hin.
  assert (Hw : forall v,
             seo_write E id
               (SaveSeo.post_request (createAuthHeader (u0 :: u) (p0 :: p)) id v)).
  { intros v. unfold seo_write. rewrite Eu, Ep. repeat split. }
  assert (Hbefore : forall x,
             In x (if some_str (SaveSeo.seoTitle b)
                   then [title_request (createAuthHeader (u0 :: u) (p0 :: p)) id b]
                   else []) ->
             seo_write E id x).
  { intros x Hx. destruct (some_str (SaveSeo.seoTitle b)); [|contradiction].
    destruct Hx as [<-|[]]. apply Hw. }
  match type of Hin with
  | In _ (if ?c then _ else _) => destruct c
  end; [apply Hbefore, Hin|].
  apply in_app_or in Hin. destruct Hin as [Hin|Hin]; [apply Hbefore, Hin|].
  destruct Hin as [<-|Hin]; [apply Hw|].
  match type of Hin with
  | In _ (match ?x with _ => _ end) => destruct x as [r|]
  end; [|contradiction].
  cbn [payload] in *.
  destruct (decoded r); [|contradiction].
  destruct (ok r); [contradiction|].
  apply in_map_iff in Hin. destruct Hin as (e & <- & _). apply Hw.
Qed.

Lemma save_seo_writes_only_that_post_witness :
  let E := sample_env (Some (js "editor")) None None remote_forbidden in
  let b := SaveSeo.mkBody (Some 7%Z) (Some (js "SEO title")) (Some (js "About"))
             (Some (js "robots")) None in
  exists id,
    SaveSeo.postId b = Some id /\ id <> 0%Z
    /\ seo_write E id
         (field_request (createAuthHeader (js "editor") (js "editor")) 7
            (js "_yoast_wpseo_focuskw", JStr (js "robots"))).
Proof.
  intros E b.
  apply (save_seo_writes_only_that_post E b).
  vm_compute. right. right. right. right. left. reflexivity.
Defined.

(** X17.  The fall-back of the handler that saves SEO data.  When the
    combined meta write is answered with JSON, nothing follows it if the
    status is ok; if it is not, one write per meta field follows, in the
    order title, description, keyword, and only for the fields the body
    holds.  The title write comes first, and only when a title is given. *)
Theorem save_seo_fallback_per_field :
  forall (E : Env) (b : SaveSeo.body) (id : Z) r,
    SaveSeo.WP_USERNAME E <> [] ->
    SaveSeo.WP_PASSWORD E <> [] ->
    SaveSeo.postId b = Some id -> id <> 0%Z ->
    let auth := createAuthHeader (SaveSeo.WP_USERNAME E) (SaveSeo.WP_PASSWORD E) in
    let before := if some_str (SaveSeo.seoTitle b)
                  then [title_request auth id b] else [] in
    (some_str (SaveSeo.seoTitle b) = true ->
     remote E KWrite [] (title_request auth id b) <> None) ->
    remote E KWrite before (meta_request auth id b) = Some r ->
    decoded r = Some tt ->
    calls_of (SaveSeo.POST E b)
    = before ++ meta_request auth id b
        :: (if ok r then []
            else map (field_request auth id)
                     ((if some_str (SaveSeo.seoTitle b)
                       then [(js "_yoast_wpseo_title",
                              JStr (or_empty (SaveSeo.seoTitle b)))] else [])
                      ++ (if some_str (SaveSeo.seoDescription b)
                          then [(js "_yoast_wpseo_metadesc",
                                 JStr (or_empty (SaveSeo.seoDescription b)))] else [])
                      ++ (if some_str (SaveSeo.keyword b)
                          then [(js "_yoast_wpseo_focuskw",
                                 JStr (or_empty (SaveSeo.keyword b)))] else []))).
Proof.
  intros E b id r Hu Hp Hid Hnz auth before Htitle Hmeta Hd.
  rewrite (save_seo_calls E b id Hu Hp Hid Hnz).
  fold auth. fold before.
  assert (Hc : some_str (SaveSeo.seoTitle b)
               && match remote E KWrite [] (title_request auth id b) with
                  | Some _ => false
                  | None => true
                  end = false).
  { destruct (some_str (SaveSeo.seoTitle b)); [|reflexivity].
    destruct (remote E KWrite [] (title_request auth id b)); [reflexivity|].
    exfalso. apply Htitle; reflexivity. }
  rewrite Hc, Hmeta. cbn [payload] in *. rewrite Hd.
  destruct (ok r); [reflexivity|].
  f_equal. f_equal. f_equal. unfold SaveSeo.metaFields.
  destruct (SaveSeo.seoTitle b) as [[|? ?]|],
           (SaveSeo.seoDescription b) as [[|? ?]|],
           (SaveSeo.keyword b) as [[|? ?]|]; reflexivity.
Qed.

Lemma save_seo_fallback_per_field_witness :
  let E := sample_env (Some (js "editor")) None None remote_forbidden in
  let b := SaveSeo.mkBody (Some 7%Z) None (Some (js "About")) (Some (js "robots"))
             None in
  let auth := createAuthHeader (js "editor") (js "editor") in
  calls_of (SaveSeo.POST E b)
  = [ meta_request auth 7 b;
      field_request auth 7 (js "_yoast_wpseo_metadesc", JStr (js "About"));
      field_request auth 7 (js "_yoast_wpseo_focuskw", JStr (js "robots")) ].
Proof.
  intros E b auth.
  apply (save_seo_fallback_per_field E b 7
           (mkResponse false 403 no_header (Some tt))).
  - vm_compute. discriminate.
  - vm_compute. discriminate.
  - reflexivity.
  - discriminate.
  - intros H. discriminate H.
  - reflexivity.
  - reflexivity.
Defined.

(* ================================================================= *)
(** ** Listing the posts: rejections, pagination, what deduplication drops *)







(** X18.  The handler that lists the posts.  Without the address, the user
    name or the password of the content system it answers 400 and makes no
    request.  With them it makes exactly one request, for the status and
    page size of the query string as they are (defaults [draft] and [100]);
    if that request is rejected, is answered with an error status, or with a
    body that is not JSON, the answer is 500 with [success: false]. *)
Theorem list_posts_outcomes :
  forall (E : Env) (q : Posts.params),
    let rq := Posts.list_request E
                (Posts.or_default (Posts.p_status q) (js "draft"))
                (Posts.or_default (Posts.p_per_page q) (js "100")) in
    (some_str (WORDPRESS_URL E) = false
     \/ some_str (WORDPRESS_USERNAME E) = false
     \/ some_str (WORDPRESS_PASSWORD E) = false ->
     exists rep,
       Posts.GET E q [] = (Ok rep, [])
       /\ reply_status rep = 400%Z
       /\ success_of rep = Some (JBool false))
    /\ (some_str (WORDPRESS_URL E) = true ->
        some_str (WORDPRESS_USERNAME E) = true ->
        some_str (WORDPRESS_PASSWORD E) = true ->
        calls_of (Posts.GET E q) = [rq]
        /\ (match remote E KPosts [] rq with
            | None => True
            | Some r => ok r = false \/ decoded r = None
            end ->
            exists rep,
              result_of (Posts.GET E q) = Ok rep
              /\ reply_status rep = 500%Z
              /\ success_of rep = Some (JBool false))).
Proof.
  intros E q rq. split.
  - intros H. unfold Posts.GET, try_catch.
    assert (Hc : negb (some_str (WORDPRESS_URL E))
                 || negb (some_str (WORDPRESS_USERNAME E))
                 || negb (some_str (WORDPRESS_PASSWORD E)) = true).
    { destruct H as [H|[H|H]]; rewrite H; cbn [negb orb];
        rewrite ?orb_true_r; reflexivity. }
    rewrite Hc. eexists. repeat split; reflexivity.
  - intros Hu Hn Hp. unfold calls_of, result_of, run, Posts.GET.
    rewrite Hu, Hn, Hp. cbn [negb orb]. fold rq.
    unfold try_catch, bind, fetch, decode.
    destruct (remote E KPosts [] rq) as [r|].
    + cbn [payload] in *. destruct (ok r); cbn [negb].
      * destruct (decoded r) as [posts|].
        -- split; [reflexivity|]. intros [H|H]; discriminate H.
        -- split; [reflexivity|]. intros _. eexists. repeat split; reflexivity.
      * split; [reflexivity|]. intros _. eexists. repeat split; reflexivity.
    + split; [reflexivity|]. intros _. eexists. repeat split; reflexivity.
Qed.

Lemma list_posts_outcomes_witness :
  let E := sample_env (Some (js "editor")) None None remote_down in
  let q := Posts.mkParams (Some (js "publish")) None None in
  calls_of (Posts.GET E q)
  = [Posts.list_request E (js "publish") (js "100")]
  /\ exists rep,
      result_of (Posts.GET E q) = Ok rep
      /\ reply_status rep = 500%Z
      /\ success_of rep = Some (JBool false).
Proof.
  intros E q.
  destruct (list_posts_outcomes E q) as [_ H].
  destruct H as [Hc Hf]; try reflexivity.
  split; [exact Hc|]. apply Hf. exact I.
Defined.




(* ================================================================= *)
(** ** Slugs and tag removal *)

Module TextFacts.

Lemma slug_char_lower_unit :
  forall c, slug_char c = true -> lower_unit c = [c].
Proof.
  intros c H. unfold lower_unit.
  assert (Hc : (c <= 122)%N /\ is_upper c = false).
  { unfold slug_char, is_lower, is_digit, is_upper, between, HYPHEN in *.
    repeat match goal with
           | H : context [(?a <=? ?b)%N] |- _ => destruct (N.leb_spec a b)
           | H : context [(?a =? ?b)%N] |- _ => destruct (N.eqb_spec a b)
           | |- context [(?a <=? ?b)%N] => destruct (N.leb_spec a b)
           end; try discriminate; split; try reflexivity; lia. }
  destruct Hc as [Hle Hu]. rewrite Hu.
  destruct (N.eqb_spec c 304); [lia|].
  destruct (N.eqb_spec c 8490); [lia|]. reflexivity.
Qed.

Lemma slugify_fixed :
  forall s, forallb slug_char s = true -> slugify s = s.
Proof.
  unfold slugify. induction s as [|c s IH]; intros H; [reflexivity|].
  cbn [forallb] in H. apply andb_prop in H. destruct H as [Hc Hs].
  cbn [toLowerCase flat_map]. fold (toLowerCase s).
  rewrite (slug_char_lower_unit c Hc). cbn [app hyphenate map].
  fold (hyphenate (toLowerCase s)). rewrite (IH Hs).
  fold (slug_char c). rewrite Hc. reflexivity.
Qed.

Lemma match_tag_cons :
  forall c s,
    match_tag (c :: s)
    = if (c =? 60)%N then option_map (fun i => S (S i)) (index_of 62%N s)
      else None.
Proof.
  intros c s. unfold match_tag.
  destruct c as [|p]; [reflexivity|].
  do 6 (destruct p as [p|p|]; try reflexivity).
Qed.

Lemma In_replace_g :
  forall m x s k, In x (replace_g m [] k s) -> In x s.
Proof.
  intros m x. induction s as [|c s IH]; intros k H; [exact H|].
  cbn [replace_g] in H. destruct k as [|k].
  - destruct (m (c :: s)) as [[|j]|].
    + destruct H as [H|H]; [left; exact H | right; eapply IH; exact H].
    + right. eapply IH. exact H.
    + destruct H as [H|H]; [left; exact H | right; eapply IH; exact H].
  - right. eapply IH. exact H.
Qed.

Lemma index_of_none :
  forall c s, index_of c s = None <-> ~ In c s.
Proof.
  intros c. induction s as [|d s IH]; [cbn; tauto|].
  cbn [index_of In]. destruct (N.eqb_spec d c) as [->|Hne].
  - split; [discriminate | intros H; exfalso; apply H; left; reflexivity].
  - destruct (index_of c s) as [i|]; cbn [option_map].
    + split; [discriminate|]. intros H. exfalso. apply H. right.
      destruct (in_dec N.eq_dec c s) as [Hin|Hout]; [exact Hin|].
      apply IH in Hout. discriminate Hout.
    + split; [|reflexivity]. intros _ [H|H]; [congruence|].
      apply (proj1 IH); [reflexivity | exact H].
Qed.

Lemma match_tag_kept :
  forall c s,
    match_tag (c :: s) = None ->
    match_tag (c :: replace_g match_tag [] 0 s) = None.
Proof.
  intros c s H. rewrite match_tag_cons in *.
  destruct (c =? 60)%N; [|reflexivity].
  destruct (index_of 62%N s) eqn:Hi; [discriminate H|].
  apply index_of_none in Hi.
  assert (Ho : index_of 62%N (replace_g match_tag [] 0 s) = None).
  { apply index_of_none. intros Hin. apply Hi.
    eapply In_replace_g. exact Hin. }
  rewrite Ho. reflexivity.
Qed.

Lemma strip_tags_tag_free_gen :
  forall n s,
    (length s <= n)%nat -> tag_free (replace_g match_tag [] 0 s) = true.
Proof.
  induction n as [|n IH]; intros [|c s] Hlen; try reflexivity.
  - cbn [length] in Hlen. lia.
  - cbn [length] in Hlen. cbn [replace_g].
    destruct (match_tag (c :: s)) as [[|k]|] eqn:Hm.
    + rewrite match_tag_cons in Hm. destruct (c =? 60)%N; [|discriminate Hm].
      destruct (index_of 62%N s); discriminate Hm.
    + cbn [app]. rewrite QueryFacts.replace_g_skip. apply IH.
      rewrite length_skipn. lia.
    + cbn [tag_free]. rewrite (match_tag_kept c s Hm). apply IH. lia.
Qed.

Lemma strip_tags_fixed :
  forall s, tag_free s = true -> strip_tags s = s.
Proof.
  unfold strip_tags, replaceAll. induction s as [|c s IH]; intros H;
    [reflexivity|].
  cbn [tag_free] in H. cbn [replace_g].
  destruct (match_tag (c :: s)); [discriminate H|].
  rewrite (IH H). reflexivity.
Qed.

End TextFacts.

(** X21.  Slugs.  The slug of a name holds only [a-z], [0-9] and the
    hyphen, and taking the slug of a slug changes nothing: a category or a
    list of tags given by their slugs is looked up exactly as when given by
    their names. *)
Theorem slugify_idempotent :
  forall name : jsstring,
    forallb slug_char (slugify name) = true
    /\ slugify (slugify name) = slugify name
    /\ (forall (E : Env) (l : log),
           PublishPost.getCategoryIdByName E (slugify name) l
           = PublishPost.getCategoryIdByName E name l)
    /\ (forall (E : Env) (names : list jsstring) (l : log),
           PublishPost.getTagIdsByNames E (map slugify names) l
           = PublishPost.getTagIdsByNames E names l).
Proof.
  intros name.
  assert (Hs : forall n, forallb slug_char (slugify n) = true)
    by (intros n; apply hyphenate_slug_chars).
  assert (Hi : forall n, slugify (slugify n) = slugify n)
    by (intros n; apply TextFacts.slugify_fixed, Hs).
  split; [apply Hs|]. split; [apply Hi|]. split.
  - intros E l. unfold PublishPost.getCategoryIdByName. rewrite Hi. reflexivity.
  - intros E names l. unfold PublishPost.getTagIdsByNames.
    assert (Hloop : forall ids l0,
               PublishPost.tag_loop E (map slugify names) ids l0
               = PublishPost.tag_loop E names ids l0).
    { induction names as [|n names IH]; intros ids l0; [reflexivity|].
      cbn [map PublishPost.tag_loop]. rewrite Hi.
      unfold bind, fetch, decode.
      destruct (remote E KLookup l0 _) as [r|]; [|reflexivity].
      cbn [payload] in *. destruct (ok r); [|apply IH].
      destruct (decoded r) as [[|i tl]|]; [apply IH | apply IH | reflexivity]. }
    unfold try_catch. rewrite Hloop. reflexivity.
Qed.

(** X22.  Tag removal.  After [replace(/<[^>]*>/g, '')] the pattern matches
    nowhere in the text, so the title the image is searched with holds no
    tag; removing tags twice is the same as once, and a text in which the
    pattern matches nowhere is left as it is. *)
Theorem strip_tags_leaves_no_tag :
  forall s : jsstring,
    tag_free (strip_tags s) = true
    /\ strip_tags (strip_tags s) = strip_tags s
    /\ (tag_free s = true -> strip_tags s = s).
Proof.
  intros s.
  assert (H : tag_free (strip_tags s) = true)
    by (apply (TextFacts.strip_tags_tag_free_gen (length s)), Nat.le_refl).
  split; [exact H|]. split; [apply TextFacts.strip_tags_fixed, H|].
  apply TextFacts.strip_tags_fixed.
Qed.

Lemma strip_tags_leaves_no_tag_witness :
  strip_tags (js "1 < 2, <b>bold</b> & <i") = js "1 bold & <i"
  /\ strip_tags (js "1 bold & <i") = js "1 bold & <i".
Proof.
  split; [reflexivity|].
  apply (proj2 (proj2 (strip_tags_leaves_no_tag (js "1 bold & <i")))).
  reflexivity.
Defined.

(* ================================================================= *)
(** ** The page: selection and optimisation of the selected posts *)

Module PageFacts.

Lemma includes_In :
  forall prev postId, Page.includes prev postId = true <-> In postId prev.
Proof.
  intros prev postId. unfold Page.includes. rewrite existsb_exists. split.
  - intros (x & Hin & Hx). apply Z.eqb_eq in Hx. subst. exact Hin.
  - intros Hin. exists postId. split; [exact Hin | apply Z.eqb_refl].
Qed.

Lemma NoDup_snoc :
  forall (l : list Z) x, NoDup l -> ~ In x l -> NoDup (l ++ [x]).
Proof.
  induction l as [|a l IH]; intros x Hnd Hx.
  - constructor; [intros [] | constructor].
  - inversion Hnd as [|a' l' Ha Hl]; subst. cbn [app]. constructor.
    + intros Hin. apply in_app_or in Hin. destruct Hin as [Hin|[<-|[]]].
      * exact (Ha Hin).
      * apply Hx. left. reflexivity.
    + apply IH; [exact Hl|]. intros Hin. apply Hx. right. exact Hin.
Qed.

Lemma filter_absent :
  forall (l : list Z) x,
    ~ In x l -> filter (fun y => negb (y =? x)%Z) l = l.
Proof.
  induction l as [|a l IH]; intros x Hx; [reflexivity|].
  cbn [filter]. destruct (Z.eqb_spec a x) as [->|Hne].
  - exfalso. apply Hx. left. reflexivity.
  - cbn [negb]. rewrite IH; [reflexivity|].
    intros Hin. apply Hx. right. exact Hin.
Qed.

(** The loop: one body sent and one result pushed for each selected post
    that is found, whatever the route answers. *)
Lemma optimize_loop_runs :
  forall api posts author selected sent results,
    exists rs,
      Page.optimize_loop api posts author selected sent results
      = (sent ++ map Page.body_of (found_posts posts selected), results ++ rs)
      /\ Forall2 (fun post r =>
                    Page.postId r = Page.id post
                    /\ result_of_post author post r)
                 (found_posts posts selected) rs.
Proof.
  intros api posts author.
  induction selected as [|i rest IH]; intros sent results.
  - exists []. cbn [Page.optimize_loop found_posts flat_map map].
    rewrite !app_nil_r. split; [reflexivity | constructor].
  - cbn [Page.optimize_loop found_posts flat_map].
    fold (found_posts posts rest).
    destruct (find (fun p => (Page.id p =? i)%Z) posts) as [post|] eqn:Hf.
    + destruct (IH (sent ++ [Page.body_of post])
                   (results
                    ++ [Page.result_for author post
                          (api sent (Page.body_of post))]))
        as (rs & Hrun & Hall).
      exists (Page.result_for author post (api sent (Page.body_of post)) :: rs).
      split.
      * rewrite Hrun. cbn [app map]. rewrite <- !app_assoc. reflexivity.
      * cbn [app]. constructor; [|exact Hall].
        unfold Page.result_for, result_of_post.
        destruct (api sent (Page.body_of post)) as [data|];
          [|split; [reflexivity | auto]].
        destruct (Page.get data "success") as [s|] eqn:Hs;
          [|split; [reflexivity | auto]].
        destruct (truthy s) eqn:Ht; split; try reflexivity; eauto 7.
    + cbn [app]. apply IH.
Qed.

Lemma author_json_defined :
  forall authors,
    forallb defined (map Authors.author_json authors) = true.
Proof.
  induction authors as [|a authors IH]; [reflexivity|].
  cbn [map forallb]. rewrite IH. reflexivity.
Qed.

End PageFacts.

(** X23.  Toggling a post in the selection.  Afterwards the post is selected
    exactly if it was not before, and every other post is as it was; a
    selection without repetitions stays without repetitions; toggling a post
    that was not selected twice gives the selection back, order included.
    The list of expanded posts is toggled the same way. *)
Theorem togglePostSelection_flips :
  forall (prev : list Z) (postId : Z),
    (forall x,
        In x (Page.togglePostSelection prev postId)
        <-> (x = postId /\ ~ In postId prev) \/ (x <> postId /\ In x prev))
    /\ (NoDup prev -> NoDup (Page.togglePostSelection prev postId))
    /\ (~ In postId prev ->
        Page.togglePostSelection (Page.togglePostSelection prev postId) postId
        = prev)
    /\ Page.toggleExpanded prev postId = Page.togglePostSelection prev postId.
Proof.
  intros prev postId. unfold Page.togglePostSelection.
  destruct (Page.includes prev postId) eqn:Hinc.
  - apply PageFacts.includes_In in Hinc.
    split; [|split; [|split]].
    + intros x. rewrite filter_In. split.
      * intros [Hin Hx]. right. split; [|exact Hin].
        apply negb_true_iff, Z.eqb_neq in Hx. exact Hx.
      * intros [[_ Hno]|[Hne Hin]]; [contradiction|].
        split; [exact Hin|]. apply negb_true_iff, Z.eqb_neq. exact Hne.
    + intros Hnd. apply NoDup_filter. exact Hnd.
    + intros Hno. contradiction.
    + unfold Page.toggleExpanded.
      rewrite (proj2 (PageFacts.includes_In prev postId) Hinc). reflexivity.
  - assert (Hno : ~ In postId prev).
    { intros Hin. apply PageFacts.includes_In in Hin. congruence. }
    split; [|split; [|split]].
    + intros x. rewrite in_app_iff. cbn [In]. split.
      * intros [Hin|[<-|[]]].
        -- right. split; [|exact Hin]. intros ->. contradiction.
        -- left. split; [reflexivity | exact Hno].
      * intros [[-> _]|[_ Hin]]; [right; left; reflexivity | left; exact Hin].
    + intros Hnd. apply PageFacts.NoDup_snoc; assumption.
    + intros _.
      assert (Hin : Page.includes (prev ++ [postId]) postId = true).
      { apply PageFacts.includes_In, in_or_app. right. left. reflexivity. }
      rewrite Hin, filter_app, (PageFacts.filter_absent prev postId Hno).
      cbn [filter]. rewrite Z.eqb_refl. cbn [negb]. apply app_nil_r.
    + unfold Page.toggleExpanded. rewrite Hinc. reflexivity.
Qed.

Lemma togglePostSelection_flips_witness :
  NoDup (Page.togglePostSelection [4; 9; 2]%Z 9%Z)
  /\ Page.togglePostSelection (Page.togglePostSelection [4; 2]%Z 9%Z) 9%Z
     = [4; 2]%Z.
Proof.
  split.
  - apply (proj1 (proj2 (togglePostSelection_flips [4; 9; 2]%Z 9%Z))).
    repeat (apply NoDup_cons; [cbn; lia|]). apply NoDup_nil.
  - apply (proj1 (proj2 (proj2 (togglePostSelection_flips [4; 2]%Z 9%Z)))).
    cbn. lia.
Defined.



(** X25.  The page in front of a route that refuses.  When no generation
    key is configured, or when the generation service cannot be reached, the
    route answers every request with [success: false]; the page then shows,
    for each selected post, the post with its own title and content, the
    image source [Failed to generate suggestion] and an SEO score of 0. *)
Theorem page_with_refusing_route :
  forall (E : Env) (INSTRUCTIONS : jsstring) (posts : list Page.WPPost)
         (selectedAuthor : option Z) (selected : list Z),
    some_str (OPENAI_API_KEY E) = false
    \/ (forall l rq, remote E KChat l rq = None) ->
    selected <> [] ->
    Page.optimizeWithAI (Page.served_by E INSTRUCTIONS) posts selectedAuthor selected
    = Some (map (fun post =>
                   Page.untouched_result selectedAuthor post
                     "Failed to generate suggestion")
                (found_posts posts selected)).
Proof.
  intros E I posts author selected H Hne.
  assert (Hroute : forall sent b,
             exists o,
               Page.served_by E I sent b = Some (JObj o)
               /\ lookup (js "success") o = Some (JBool false)).
  { intros sent b. unfold Page.served_by, result_of, run, Optimize.POST.
    destruct (some_str (OPENAI_API_KEY E)) eqn:Hk.
    - destruct H as [H|H]; [discriminate H|].
      unfold Optimize.optimizeWithAI. rewrite Hk. cbn [negb].
      unfold try_catch, bind, fetch. rewrite H.
      eexists. split; reflexivity.
    - cbn [negb]. unfold try_catch, ret. eexists. split; reflexivity. }
  assert (Hloop : forall sel sent results,
             snd (Page.optimize_loop (Page.served_by E I) posts author sel sent results)
             = results
               ++ map (fun post =>
                         Page.untouched_result author post
                           "Failed to generate suggestion")
                      (found_posts posts sel)).
  { induction sel as [|i rest IH]; intros sent results.
    - cbn. rewrite app_nil_r. reflexivity.
    - cbn [Page.optimize_loop found_posts flat_map].
      fold (found_posts posts rest).
      destruct (find (fun p => (Page.id p =? i)%Z) posts) as [post|];
        [|apply IH].
      rewrite IH. cbn [app map]. rewrite <- app_assoc. cbn [app].
      destruct (Hroute sent (Page.body_of post)) as (o & -> & Hs).
      unfold Page.result_for, Page.get. rewrite Hs. reflexivity. }
  unfold Page.optimizeWithAI. destruct selected; [congruence|].
  rewrite Hloop. reflexivity.
Qed.

Lemma page_with_refusing_route_witness :
  let E := sample_env (Some (js "editor")) None (Some (js "key")) remote_serving in
  let posts := [ Page.mkWPPost 4 (js "Four") (js "<p>4</p>") [] ] in
  Page.optimizeWithAI (Page.served_by E []) posts (Some 3%Z) [4%Z]
  = Some [ Page.untouched_result (Some 3%Z)
             (Page.mkWPPost 4 (js "Four") (js "<p>4</p>") [])
             "Failed to generate suggestion" ].
Proof.
  intros E posts.
  apply (page_with_refusing_route E [] posts (Some 3%Z) [4%Z]);
    [left; reflexivity | discriminate].
Defined.

(** X26.  The handler that lists the authors.  Without a user name or a
    password it answers 400 and makes no request.  With them it makes
    exactly one request, always to the same address, whatever the configured
    address of the content system; a rejected request, an error status or a
    body that is not JSON gives 500 with [success: false], and an accepted
    one gives 200 with the authors as they came, in order. *)
Theorem authors_outcomes :
  forall (E : Env)
         (users_remote : log -> request -> option (response (list Authors.WPAuthor))),
    (Authors.WP_USERNAME E = [] \/ Authors.WP_PASSWORD E = [] ->
     exists rep,
       Authors.GET E users_remote [] = (Ok rep, [])
       /\ reply_status rep = 400%Z
       /\ success_of rep = Some (JBool false))
    /\ (Authors.WP_USERNAME E <> [] -> Authors.WP_PASSWORD E <> [] ->
        calls_of (Authors.GET E users_remote) = [Authors.users_request E]
        /\ exists rep,
            result_of (Authors.GET E users_remote) = Ok rep
            /\ match users_remote [] (Authors.users_request E) with
               | Some r =>
                   match ok r, decoded r with
                   | true, Some authors =>
                       reply_status rep = 200%Z
                       /\ success_of rep = Some (JBool true)
                       /\ field "data" (reply_body rep)
                          = Some (JArr (map Authors.author_json authors))
                   | _, _ =>
                       reply_status rep = 500%Z
                       /\ success_of rep = Some (JBool false)
                   end
               | None =>
                   reply_status rep = 500%Z
                   /\ success_of rep = Some (JBool false)
               end).
Proof.
  intros E users_remote. split.
  - intros H. unfold Authors.GET, try_catch.
    destruct (Authors.WP_USERNAME E) as [|u0 u].
    + eexists. repeat split; reflexivity.
    + destruct (Authors.WP_PASSWORD E) as [|p0 p].
      * eexists. repeat split; reflexivity.
      * destruct H as [H|H]; discriminate H.
  - intros Hu Hp. unfold calls_of, result_of, run, Authors.GET.
    remember (Authors.users_request E) as rq eqn:Hrq.
    destruct (Authors.WP_USERNAME E) as [|u0 u]; [congruence|].
    destruct (Authors.WP_PASSWORD E) as [|p0 p]; [congruence|].
    cbn [orb]. unfold try_catch, bind, Authors.fetch_users, decode.
    destruct (users_remote [] rq) as [r|].
    + destruct (ok r); cbn [negb].
      * destruct (decoded r) as [authors|].
        -- split; [reflexivity|]. eexists. split; [reflexivity|].
           split; [reflexivity|]. split; [reflexivity|].
           unfold ret. cbn [fst reply_body NextResponse_json].
           etransitivity;
             [apply (stringify_field "data" [(_, _)]);
              [discriminate | reflexivity]|].
           f_equal. apply ParseFacts.stringify_defined.
           apply PageFacts.author_json_defined.
        -- split; [reflexivity|]. eexists. repeat split; reflexivity.
      * split; [reflexivity|]. eexists. repeat split; reflexivity.
    + split; [reflexivity|]. eexists. repeat split; reflexivity.
Qed.

Lemma authors_outcomes_witness :
  let E := sample_env (Some (js "editor")) None None remote_down in
  let ada := Authors.mkAuthor 1 (js "Ada") (js "ada") in
  let users_remote := fun (_ : log) (_ : request) =>
                        Some (mkResponse true 200 no_header (Some [ada])) in
  calls_of (Authors.GET E users_remote) = [Authors.users_request E]
  /\ exists rep,
      result_of (Authors.GET E users_remote) = Ok rep
      /\ reply_status rep = 200%Z
      /\ field "data" (reply_body rep) = Some (JArr [Authors.author_json ada]).
Proof.
  intros E ada users_remote.
  destruct (proj2 (authors_outcomes E users_remote)) as (Hc & rep & Hrep & H).
  - vm_compute. discriminate.
  - vm_compute. discriminate.
  - split; [exact Hc|]. exists rep. split; [exact Hrep|].
    cbn in H. destruct H as (Hs & _ & Hd). split; [exact Hs | exact Hd].
Defined.

(* ================================================================= *)
(** ** From the look-ups to the update *)







(* ================================================================= *)
(** ** Selecting every post *)

Lemma find_by_id :
  forall (posts : list Page.WPPost) (q : Page.WPPost),
    NoDup (map Page.id posts) ->
    In q posts ->
    find (fun p => (Page.id p =? Page.id q)%Z) posts = Some q.
Proof.
  induction posts as [|p ps IH]; intros q Hnd Hin; [contradiction|].
  cbn [map] in Hnd. inversion Hnd as [|x xs Hp Hps]; subst.
  cbn [find]. destruct (Z.eqb_spec (Page.id p) (Page.id q)) as [He|Hne].
  - destruct Hin as [->|Hin]; [reflexivity|].
    exfalso. apply Hp. rewrite He. apply in_map, Hin.
  - destruct Hin as [->|Hin]; [congruence|]. apply IH; assumption.
Qed.

Lemma found_posts_of_ids :
  forall (posts l : list Page.WPPost),
    NoDup (map Page.id posts) ->
    incl l posts ->
    found_posts posts (map Page.id l) = l.
Proof.
  intros posts l Hnd. induction l as [|q l IH]; intros Hincl; [reflexivity|].
  cbn [map found_posts flat_map]. fold (found_posts posts (map Page.id l)).
  rewrite (find_by_id posts q Hnd) by (apply Hincl; left; reflexivity).
  rewrite IH; [reflexivity|].
  intros x Hx. apply Hincl. right. exact Hx.
Qed.

(** X28.  Select all, then optimise.  When no two posts share an
    identifier, selecting all and optimising sends one request per post, in
    the order of the list, and shows one result per post; after deselecting
    all nothing is optimised. *)
Theorem select_all_then_optimize :
  forall (api : list Optimize.body -> Optimize.body -> option jsval)
         (posts : list Page.WPPost) (selectedAuthor : option Z),
    (posts <> [] ->
     NoDup (map Page.id posts) ->
     exists results,
       Page.optimizeWithAI api posts selectedAuthor (Page.selectAll posts)
       = Some results
       /\ map Page.postId results = map Page.id posts
       /\ fst (Page.optimize_loop api posts selectedAuthor
                 (Page.selectAll posts) [] [])
          = map Page.body_of posts)
    /\ Page.optimizeWithAI api posts selectedAuthor Page.deselectAll = None.
Proof.
  intros api posts author. split; [|reflexivity].
  intros Hne Hnd. unfold Page.selectAll.
  destruct (PageFacts.optimize_loop_runs api posts author
              (map Page.id posts) [] []) as (rs & Hrun & Hall).
  rewrite (found_posts_of_ids posts posts Hnd) in Hrun, Hall
    by apply incl_refl.
  cbn [app] in Hrun. exists rs. split; [|split].
  - unfold Page.optimizeWithAI.
    destruct posts as [|p ps]; [congruence|]. cbn [map] in *.
    rewrite Hrun. reflexivity.
  - clear Hrun Hne Hnd. induction Hall as [|post r ps rs' [Hid _] _ IH];
      [reflexivity|]. cbn [map]. rewrite Hid, IH. reflexivity.
  - rewrite Hrun. reflexivity.
Qed.

Lemma select_all_then_optimize_witness :
  let posts := [ Page.mkWPPost 4 (js "Four") (js "<p>4</p>") [];
                 Page.mkWPPost 9 (js "Nine") (js "<p>9</p>") [] ] in
  let api := fun (_ : list Optimize.body) (_ : Optimize.body) =>
               Some (JObj [(js "success", JBool true)]) in
  exists results,
    Page.optimizeWithAI api posts None (Page.selectAll posts) = Some results
    /\ map Page.postId results = [4; 9]%Z.
Proof.
  intros posts api.
  destruct (proj1 (select_all_then_optimize api posts None))
    as (results & H1 & H2 & _).
  - vm_compute. discriminate.
  - vm_compute. repeat (apply NoDup_cons; [cbn; lia|]). apply NoDup_nil.
  - exists results. split; [exact H1 | exact H2].
Defined.
